(** * The GS plugin: renderer/device lifecycle, GIF entry points, freeze
      dispatch, lane-mask tables and the FIFO ring allocation.

    Shallow embedding of [plugins/GS/GS.cpp] and [plugins/GS/GSVector.cpp].

    - The plugin's globals ([s_gs], [m_current_renderer_type], [is_d3d], the
      function-local static [stored_toggle_state]) are the fields of a
      [World]; every exported function is a computation in a small
      state-and-failure monad over it, [None] standing for undefined
      behaviour (a call through a null [s_gs]).
    - Objects created with [new] carry the identity they were given at
      allocation; ownership is structural: the world owns the renderer,
      the renderer owns its device.
    - Calls that leave GS.cpp (constructors, destructors, renderer methods)
      are recorded, in order, in the world's [calls].
    - [theApp], the configuration store, is part of the world; a call that
      can be left by an exception of [std::stoi] yields an [Outcome]. *)

From Stdlib Require Import ZArith List String Ascii Bool Lia.
From Stdlib Require DecimalString DecimalZ DecimalPos.
Import ListNotations.
Open Scope Z_scope.

(** ** Data model *)

(** [GSRendererType] (declared in GS.h); the members GS.cpp switches on. *)
Inductive GSRendererType : Type :=
| Undefined
| DX1011_HW
| Null
| OGL_HW
| OGL_SW.

Definition GSRendererType_eqb (a b : GSRendererType) : bool :=
  match a, b with
  | Undefined, Undefined | DX1011_HW, DX1011_HW | Null, Null
  | OGL_HW, OGL_HW | OGL_SW, OGL_SW => true
  | _, _ => false
  end.

(** [enum retro_hw_context_type] of the libretro API, read through
    [hw_render.context_type]. *)
Inductive retro_hw_context_type : Type :=
| RETRO_HW_CONTEXT_NONE
| RETRO_HW_CONTEXT_OPENGL
| RETRO_HW_CONTEXT_OPENGLES2
| RETRO_HW_CONTEXT_OPENGL_CORE
| RETRO_HW_CONTEXT_OPENGLES3
| RETRO_HW_CONTEXT_OPENGLES_VERSION
| RETRO_HW_CONTEXT_VULKAN
| RETRO_HW_CONTEXT_DIRECT3D
| RETRO_HW_CONTEXT_DUMMY.

(** The concrete classes GS.cpp instantiates. *)
Inductive DeviceClass : Type := GSDevice11 | GSDeviceOGL | GSDeviceNull.

Inductive RendererClass : Type :=
| GSRendererDX11
| GSRendererOGL
| GSRendererSW (threads : Z)
| GSRendererNull.

(** Identity of a heap object: the serial number of the [new] that made it. *)
Definition oid := nat.

Record GSDevice : Type := mkDevice {
  dev_id : oid;
  dev_class : DeviceClass
}.

(** One ingested GIF packet: path, buffer address, size. *)
Record TransferOp : Type := mkTransfer {
  tr_path : nat;
  tr_mem : Z;
  tr_size : Z
}.

(** A renderer: its identity and class, the register block bound with
    [SetRegsMem] (0 is the null pointer), the owned device [m_dev], and the
    emulation state it has accumulated, kept as the transfers ingested
    since construction. *)
Record GSRenderer : Type := mkRenderer {
  rnd_id : oid;
  rnd_class : RendererClass;
  m_regs : Z;
  m_dev : option GSDevice;
  rnd_state : list TransferOp
}.

Definition set_m_regs (r : GSRenderer) (p : Z) : GSRenderer :=
  mkRenderer (rnd_id r) (rnd_class r) p (m_dev r) (rnd_state r).

Definition set_m_dev (r : GSRenderer) (d : option GSDevice) : GSRenderer :=
  mkRenderer (rnd_id r) (rnd_class r) (m_regs r) d (rnd_state r).

Definition push_transfer (r : GSRenderer) (t : TransferOp) : GSRenderer :=
  mkRenderer (rnd_id r) (rnd_class r) (m_regs r) (m_dev r) (rnd_state r ++ [t]).

(** [GSFreezeData { int size; u8* data; }]: the caller's sized buffer, by
    content. *)
Record GSFreezeData : Type := mkFreezeData {
  fd_size : Z;
  fd_data : list Z
}.

(** Calls that leave GS.cpp, as they happen. *)
Inductive Event : Type :=
| EvGLLoad
| EvNewDevice (d : oid) (c : DeviceClass)
| EvNewRenderer (r : oid) (c : RendererClass)
| EvDeleteRenderer (r : oid)
| EvDeleteDevice (d : oid)
| EvSetRegsMem (r : oid) (basemem : Z)
| EvCreateDevice (r d : oid) (ok : bool)
| EvResetDevice (r : oid)
| EvTransfer (r : oid) (path : nat) (mem size : Z)
| EvFreeze (r : oid) (sizeonly : bool)
| EvDefrost (r : oid).

(** ** GSdxApp: the configuration store *)

Module GSdxApp.

Section Configuration.

(** The decimal text [std::to_string] gives for enumeration constants that
    are declared outside GS.cpp. *)
Variables CRCHackLevel_Automatic BiFiltering_PS2 HWMipmapLevel_Automatic
  GSRendererType_Default TriFiltering_None : string.

(** [std::stoi] ([None] when it throws) and the text [sprintf] writes for
    [%d]. *)
Variable stoi : string -> option Z.
Variable sprintf_d : Z -> string.

(** Whether [_WIN32] and [GL_EXT_TEX_SUB_IMAGE] are defined. *)
Variables WIN32 GL_EXT_TEX_SUB_IMAGE : bool.

(** A [std::map<std::string, std::string>] by content. *)
Definition config_map : Type := string -> option string.

Definition map_assign (m : config_map) (k v : string) : config_map :=
  fun k' => if String.eqb k' k then Some v else m k'.

(** [m[k]] read as a value: the entry, inserted empty when it is missing. *)
Definition map_index (m : config_map) (k : string) : string * config_map :=
  match m k with
  | Some v => (v, m)
  | None => (EmptyString, map_assign m k EmptyString)
  end.

(** [GSdxApp]'s members in play, with the static [is_initialised] of
    [Init]. *)
Record t : Type := mkApp {
  is_initialised : bool;
  m_current_configuration : config_map;
  m_default_configuration : config_map
}.

(** The assignments of [GSdxApp::Init] to [m_current_configuration] that
    every build makes, in order. *)
Definition Init_defaults : list (string * string) :=
    [("accurate_date", "1");
     ("accurate_blending_unit", "1");
     ("AspectRatio", "1");
     ("autoflush_sw", "1");
     ("clut_load_before_draw", "0");
     ("crc_hack_level", CRCHackLevel_Automatic);
     ("CrcHacksExclusions", "");
     ("dithering_ps2", "2");
     ("extrathreads", "2");
     ("extrathreads_height", "4");
     ("filter", BiFiltering_PS2);
     ("force_texture_clear", "0");
     ("fxaa", "0");
     ("interlace", "7");
     ("large_framebuffer", "0");
     ("linear_present", "1");
     ("MaxAnisotropy", "0");
     ("mipmap", "1");
     ("mipmap_hw", HWMipmapLevel_Automatic);
     ("NTSC_Saturation", "1");
     ("override_geometry_shader", "-1");
     ("override_GL_ARB_compute_shader", "-1");
     ("override_GL_ARB_copy_image", "-1");
     ("override_GL_ARB_clear_texture", "-1");
     ("override_GL_ARB_clip_control", "-1");
     ("override_GL_ARB_direct_state_access", "-1");
     ("override_GL_ARB_draw_buffers_blend", "-1");
     ("override_GL_ARB_gpu_shader5", "-1");
     ("override_GL_ARB_multi_bind", "-1");
     ("override_GL_ARB_shader_image_load_store", "-1");
     ("override_GL_ARB_shader_storage_buffer_object", "-1");
     ("override_GL_ARB_sparse_texture", "-1");
     ("override_GL_ARB_sparse_texture2", "-1");
     ("override_GL_ARB_texture_view", "-1");
     ("override_GL_ARB_vertex_attrib_binding", "-1");
     ("override_GL_ARB_texture_barrier", "-1");
     ("paltex", "0");
     ("Renderer", GSRendererType_Default);
     ("upscale_multiplier", "1");
     ("UserHacks", "0");
     ("UserHacks_align_sprite_X", "0");
     ("UserHacks_AutoFlush", "0");
     ("UserHacks_DisableDepthSupport", "0");
     ("UserHacks_Disable_Safe_Features", "0");
     ("UserHacks_DisablePartialInvalidation", "0");
     ("UserHacks_CPU_FB_Conversion", "0");
     ("UserHacks_Half_Bottom_Override", "-1");
     ("UserHacks_HalfPixelOffset", "0");
     ("UserHacks_merge_pp_sprite", "0");
     ("UserHacks_round_sprite_offset", "0");
     ("UserHacks_SkipDraw", "0");
     ("UserHacks_SkipDraw_Offset", "0");
     ("UserHacks_TCOffsetX", "0");
     ("UserHacks_TCOffsetY", "0");
     ("UserHacks_TextureInsideRt", "0");
     ("UserHacks_TriFilter", TriFiltering_None);
     ("UserHacks_WildHack", "0");
     ("wrap_gs_mem", "0")]%string.

Definition assign_all (l : list (string * string)) (m : config_map)
  : config_map :=
  fold_left (fun m kv => map_assign m (fst kv) (snd kv)) l m.

(** [GSdxApp::Init]; it also resets [m_current_renderer_type], the static
    of GS.cpp, which is passed in and handed back. *)
Definition Init (a : t) (current_renderer_type : GSRendererType)
  : t * GSRendererType :=
  if is_initialised a then (a, current_renderer_type)
  else
    let m := m_current_configuration a in
    let m := if WIN32
             then map_assign m "accurate_blending_unit_d3d11" "1"
             else m in
    let m := assign_all Init_defaults m in
    let d := m_default_configuration a in
    let d := if GL_EXT_TEX_SUB_IMAGE
             then map_assign d "override_GL_ARB_get_texture_sub_image" "-1"
             else d in
    (mkApp true m d, Undefined).

(** [GSdxApp::GetConfigS] *)
Definition GetConfigS (entry : string) (a : t) : string * t :=
  let '(v, m) := map_index (m_current_configuration a) entry in
  (v, mkApp (is_initialised a) m (m_default_configuration a)).

(** [GSdxApp::SetConfig(const char*, const char* )] *)
Definition SetConfig (entry value : string) (a : t) : t :=
  mkApp (is_initialised a)
    (map_assign (m_current_configuration a) entry value)
    (m_default_configuration a).

(** [GSdxApp::GetConfigI]; [None] when [std::stoi] throws, the entry having
    been inserted by then. *)
Definition GetConfigI (entry : string) (a : t) : option Z * t :=
  let '(v, a) := GetConfigS entry a in
  (stoi v, a).

(** [GSdxApp::GetConfigB] *)
Definition GetConfigB (entry : string) (a : t) : option bool * t :=
  let '(v, a) := GetConfigI entry a in
  (option_map (fun i => negb (i =? 0)) v, a).

(** [GSdxApp::SetConfig(const char*, int)] *)
Definition SetConfigI (entry : string) (value : Z) (a : t) : t :=
  SetConfig entry (sprintf_d value) a.

(** The state before [Init]: nothing stored. *)
Definition fresh : t := mkApp false (fun _ => None) (fun _ => None).

End Configuration.

Arguments fresh : clear implicits.

Fixpoint distinct_keys (l : list string) : bool :=
  match l with
  | [] => true
  | k :: l => negb (existsb (String.eqb k) l) && distinct_keys l
  end.

Lemma distinct_keys_NoDup (l : list string) :
  distinct_keys l = true -> NoDup l.
Proof.
  induction l as [|k l IH]; cbn; intros H; constructor;
    apply andb_prop in H; destruct H as [Hk Hl]; [|now apply IH].
  intros Hin. apply negb_true_iff in Hk.
  assert (E : existsb (String.eqb k) l = true).
  { apply existsb_exists. exists k. split; [assumption|apply String.eqb_refl]. }
  congruence.
Qed.

(** A run of assignments leaves, at each key, the last value assigned to
    it, and the old entry at a key not assigned. *)
Lemma assign_all_other (l : list (string * string)) (m : config_map)
  (k : string) :
  ~ In k (map fst l) -> assign_all l m k = m k.
Proof.
  revert m. induction l as [|[k0 v0] l IH]; intros m Hk; [reflexivity|].
  cbn [assign_all fold_left fst snd] in *.
  change (assign_all l (map_assign m k0 v0) k = m k).
  rewrite IH by (cbn in Hk; tauto).
  unfold map_assign. destruct (String.eqb_spec k k0) as [->|_];
    [cbn in Hk; tauto|reflexivity].
Qed.

Lemma assign_all_in (l : list (string * string)) (m : config_map)
  (k v : string) :
  NoDup (map fst l) -> In (k, v) l -> assign_all l m k = Some v.
Proof.
  revert m. induction l as [|[k0 v0] l IH]; intros m Hnd Hin; [destruct Hin|].
  cbn [map fst] in Hnd. inversion Hnd as [|? ? Hk0 Hnd']; subst.
  change (assign_all l (map_assign m k0 v0) k = Some v).
  destruct Hin as [[= -> ->]|Hin].
  - rewrite assign_all_other by assumption.
    unfold map_assign. now rewrite String.eqb_refl.
  - now apply IH.
Qed.

Lemma Init_defaults_distinct (c1 c2 c3 c4 c5 : string) :
  NoDup (map fst (Init_defaults c1 c2 c3 c4 c5)).
Proof. apply distinct_keys_NoDup. vm_compute. reflexivity. Qed.

(** A key just written is present: reading it gives the value and changes
    nothing. *)
Lemma GetConfigS_written (a : t) (k v : string) :
  GetConfigS k (SetConfig k v a) = (v, SetConfig k v a).
Proof.
  unfold GetConfigS, SetConfig, map_index, map_assign.
  cbn [m_current_configuration is_initialised m_default_configuration].
  now rewrite String.eqb_refl.
Qed.

(** X6. Writing an entry and reading entries back: [GetConfigS] returns the
    value last given to [SetConfig] for that key and, the key being
    present, leaves the store as it is; an entry under any other key reads
    as it did before the write. *)
Theorem GetConfigS_after_SetConfig (a : t) (k k' v : string) :
  GetConfigS k (SetConfig k v a) = (v, SetConfig k v a) /\
  (k' <> k ->
   fst (GetConfigS k' (SetConfig k v a)) = fst (GetConfigS k' a)).
Proof.
  split.
  - apply GetConfigS_written.
  - intros Hne. unfold GetConfigS, SetConfig, map_index, map_assign.
    cbn [m_current_configuration is_initialised m_default_configuration].
    destruct (String.eqb_spec k' k) as [?|_]; [contradiction|].
    now destruct (m_current_configuration a k').
Qed.

(** X7. Reading a key that has no entry is not a pure read: [GetConfigS]
    returns the empty string and leaves an empty entry under that key; the
    other entries are untouched, and [GetConfigI] hands that empty string
    to [std::stoi]. *)
Theorem GetConfigS_missing_key (stoi : string -> option Z)
  (a : t) (k : string) :
  m_current_configuration a k = None ->
  fst (GetConfigS k a) = EmptyString /\
  m_current_configuration (snd (GetConfigS k a)) k = Some EmptyString /\
  (forall k', k' <> k ->
     m_current_configuration (snd (GetConfigS k a)) k'
       = m_current_configuration a k') /\
  GetConfigI stoi k a = (stoi EmptyString, snd (GetConfigS k a)).
Proof.
  intros Hk. unfold GetConfigI, GetConfigS, map_index. rewrite Hk.
  cbn [fst snd m_current_configuration]. unfold map_assign.
  rewrite String.eqb_refl. repeat split.
  intros k' Hne. now destruct (String.eqb_spec k' k).
Qed.

Lemma GetConfigS_missing_key_witness :
  m_current_configuration fresh "extrathreads"%string = None /\
  fst (GetConfigS "extrathreads"%string fresh) = EmptyString /\
  m_current_configuration (snd (GetConfigS "extrathreads"%string fresh))
    "extrathreads"%string = Some EmptyString /\
  (forall k', k' <> "extrathreads"%string ->
     m_current_configuration (snd (GetConfigS "extrathreads"%string fresh)) k'
       = m_current_configuration fresh k') /\
  GetConfigI (fun _ => None) "extrathreads"%string fresh
    = (None, snd (GetConfigS "extrathreads"%string fresh)).
Proof.
  split; [reflexivity|].
  exact (GetConfigS_missing_key (fun _ => None) fresh "extrathreads"%string eq_refl).
Defined.

(** X8. [Init] runs once. From a state not yet initialised it sets the
    renderer type to [Undefined] and assigns, in [m_current_configuration],
    every key of its list the listed value and - on a [_WIN32] build only -
    ["accurate_blending_unit_d3d11"] the value ["1"], whatever was stored
    under them; every other entry is as before. In
    [m_default_configuration] it assigns
    ["override_GL_ARB_get_texture_sub_image"], where [GL_EXT_TEX_SUB_IMAGE]
    is defined, and nothing else. After that it does nothing: a later
    [Init] changes neither the two maps - entries written with [SetConfig]
    in between included - nor the renderer type then current. *)
Theorem Init_runs_once (c1 c2 c3 c4 c5 : string) (WIN32 GL : bool)
  (a : t) (ty : GSRendererType) :
  is_initialised a = false ->
  let a1 := fst (Init c1 c2 c3 c4 c5 WIN32 GL a ty) in
  let ty1 := snd (Init c1 c2 c3 c4 c5 WIN32 GL a ty) in
  is_initialised a1 = true /\
  ty1 = Undefined /\
  (forall k v, In (k, v) (Init_defaults c1 c2 c3 c4 c5) ->
     m_current_configuration a1 k = Some v) /\
  m_current_configuration a1 "accurate_blending_unit_d3d11"%string =
    (if WIN32 then Some "1"%string
     else m_current_configuration a "accurate_blending_unit_d3d11"%string) /\
  (forall k, ~ In k (map fst (Init_defaults c1 c2 c3 c4 c5)) ->
     k <> "accurate_blending_unit_d3d11"%string ->
     m_current_configuration a1 k = m_current_configuration a k) /\
  m_default_configuration a1 "override_GL_ARB_get_texture_sub_image"%string =
    (if GL then Some "-1"%string
     else m_default_configuration a
            "override_GL_ARB_get_texture_sub_image"%string) /\
  (forall k, k <> "override_GL_ARB_get_texture_sub_image"%string ->
     m_default_configuration a1 k = m_default_configuration a k) /\
  (forall ty', Init c1 c2 c3 c4 c5 WIN32 GL a1 ty' = (a1, ty')) /\
  (forall k v ty',
     Init c1 c2 c3 c4 c5 WIN32 GL (SetConfig k v a1) ty'
       = (SetConfig k v a1, ty')).
Proof.
  intros Hi. cbv zeta. unfold Init. rewrite Hi.
  cbn [fst snd is_initialised m_current_configuration
       m_default_configuration].
  split; [reflexivity|]. split; [reflexivity|]. split.
  { intros k v Hin.
    apply assign_all_in; [apply Init_defaults_distinct|exact Hin]. }
  split.
  { rewrite assign_all_other by (vm_compute; intuition discriminate).
    destruct WIN32; reflexivity. }
  split.
  { intros k Hk Hd. rewrite assign_all_other by exact Hk.
    destruct WIN32; [|reflexivity].
    unfold map_assign.
    now destruct (String.eqb_spec k "accurate_blending_unit_d3d11"%string). }
  split.
  { destruct GL; reflexivity. }
  split.
  { intros k Hk. destruct GL; [|reflexivity].
    unfold map_assign.
    now destruct (String.eqb_spec k
                    "override_GL_ARB_get_texture_sub_image"%string). }
  split; reflexivity.
Qed.

Lemma Init_runs_once_witness :
  is_initialised fresh = false /\
  let a1 := fst (Init "-1" "2" "-1" "12" "0" true true fresh OGL_HW) in
  snd (Init "-1" "2" "-1" "12" "0" true true fresh OGL_HW) = Undefined /\
  m_current_configuration a1 "extrathreads"%string = Some "2"%string /\
  m_current_configuration a1 "accurate_blending_unit_d3d11"%string
    = Some "1"%string /\
  m_current_configuration a1 "override_GL_ARB_get_texture_sub_image"%string
    = None /\
  m_default_configuration a1 "override_GL_ARB_get_texture_sub_image"%string
    = Some "-1"%string /\
  Init "-1" "2" "-1" "12" "0" true true (SetConfig "extrathreads" "4" a1) OGL_SW
    = (SetConfig "extrathreads" "4" a1, OGL_SW).
Proof.
  split; [reflexivity|].
  pose proof (Init_runs_once "-1" "2" "-1" "12" "0" true true fresh OGL_HW
                eq_refl) as H.
  cbv zeta in H |- *.
  destruct H as (_ & Hty & Hin & Hd3d & Hother & Hdef & _ & _ & Hset).
  split; [exact Hty|].
  split; [apply Hin; vm_compute; tauto|].
  split; [exact Hd3d|].
  split.
  { rewrite Hother by (vm_compute; intuition discriminate). reflexivity. }
  split; [exact Hdef|].
  apply Hset.
Defined.

(** X9. An integer written with [SetConfig(entry, int)] is the integer
    [GetConfigI] reads back, and [GetConfigB] reads whether it is non-zero,
    on any C library where [std::stoi] undoes [%d] on [int]s. *)
Theorem GetConfigI_after_SetConfig
  (stoi : string -> option Z) (sprintf_d : Z -> string)
  (a : t) (k : string) (n : Z) :
  (forall i, - 2 ^ 31 <= i < 2 ^ 31 -> stoi (sprintf_d i) = Some i) ->
  - 2 ^ 31 <= n < 2 ^ 31 ->
  GetConfigI stoi k (SetConfigI sprintf_d k n a)
    = (Some n, SetConfigI sprintf_d k n a) /\
  GetConfigB stoi k (SetConfigI sprintf_d k n a)
    = (Some (negb (n =? 0)), SetConfigI sprintf_d k n a).
Proof.
  intros Hlib Hn.
  unfold GetConfigB, GetConfigI, SetConfigI.
  rewrite GetConfigS_written.
  rewrite (Hlib n Hn). split; reflexivity.
Qed.

(** Decimal text as the Standard Library writes and reads it: a C library
    on which the two conversions undo each other. *)
Definition decimal_text (n : Z) : string :=
  DecimalString.NilZero.string_of_int (Z.to_int n).

Definition decimal_value (s : string) : option Z :=
  option_map Z.of_int (DecimalString.NilZero.int_of_string s).

Lemma decimal_value_text (n : Z) : decimal_value (decimal_text n) = Some n.
Proof.
  unfold decimal_value, decimal_text.
  rewrite DecimalString.NilZero.isi.
  - cbn [option_map]. now rewrite DecimalZ.of_to.
  - destruct n; cbn; try discriminate;
      intros [= E]; now apply DecimalPos.Unsigned.to_uint_nonnil in E.
  - destruct n; cbn; try discriminate;
      intros [= E]; now apply DecimalPos.Unsigned.to_uint_nonnil in E.
Qed.

Lemma GetConfigI_after_SetConfig_witness :
  GetConfigI decimal_value "extrathreads"%string
    (SetConfigI decimal_text "extrathreads"%string (-3) fresh)
    = (Some (-3), SetConfigI decimal_text "extrathreads"%string (-3) fresh) /\
  GetConfigB decimal_value "extrathreads"%string
    (SetConfigI decimal_text "extrathreads"%string (-3) fresh)
    = (Some true, SetConfigI decimal_text "extrathreads"%string (-3) fresh).
Proof.
  apply (GetConfigI_after_SetConfig decimal_value decimal_text fresh
           "extrathreads"%string (-3));
    [intros i _; apply decimal_value_text | lia].
Defined.

End GSdxApp.

(** ** The C++ library *)

(** [std::stoi(str)] in the "C" locale, for a 32-bit [int]: [strtol] in base
    10 skips leading white space, takes an optional sign and then as many
    decimal digits as there are; what follows them is ignored.
    [std::invalid_argument] is thrown when there is no digit to convert and
    [std::out_of_range] when the value is not an [int]: the result is [None]
    in both cases. *)
Definition isspace (c : ascii) : bool :=
  let n := nat_of_ascii c in
  (n =? 32)%nat || ((9 <=? n)%nat && (n <=? 13)%nat).

Definition digit_value (c : ascii) : option Z :=
  let n := Z.of_nat (nat_of_ascii c) in
  if (48 <=? n) && (n <=? 57) then Some (n - 48) else None.

Fixpoint skip_spaces (s : string) : string :=
  match s with
  | String c s' => if isspace c then skip_spaces s' else s
  | EmptyString => s
  end.

(** The value of the longest prefix of digits, [acc] being the value of the
    digits read so far ([None]: none yet). *)
Fixpoint read_digits (s : string) (acc : option Z) : option Z :=
  match s with
  | String c s' =>
      match digit_value c with
      | Some d =>
          read_digits s'
            (Some (10 * match acc with Some v => v | None => 0 end + d))
      | None => acc
      end
  | EmptyString => acc
  end.

Definition std_stoi (str : string) : option Z :=
  let s := skip_spaces str in
  let '(negative, s) :=
    match s with
    | String "-" s' => (true, s')
    | String "+" s' => (false, s')
    | _ => (false, s)
    end in
  match read_digits s None with
  | None => None
  | Some v =>
      let v := if negative then - v else v in
      if (- 2 ^ 31 <=? v) && (v <? 2 ^ 31) then Some v else None
  end.

Example std_stoi_examples :
  std_stoi "2" = Some 2 /\
  std_stoi "  -12abc" = Some (-12) /\
  std_stoi "+7" = Some 7 /\
  std_stoi "" = None /\
  std_stoi "auto" = None /\
  std_stoi "-" = None /\
  std_stoi "2147483647" = Some 2147483647 /\
  std_stoi "2147483648" = None /\
  std_stoi "-2147483648" = Some (-2147483648).
Proof. repeat split. Qed.

(** ** The plugin's state *)

(** What the plugin reads from its host and never writes:
    [hw_render.context_type], the text of the renderer option
    ([option_value(STRING_PCSX2_OPT_RENDERER, ...)]), and whether the
    backend setup of a given device object succeeds. *)
Record Host : Type := mkHost {
  context_type : retro_hw_context_type;
  opt_renderer : string;
  device_setup_ok : oid -> bool
}.

Record World : Type := mkWorld {
  host : Host;
  theApp : GSdxApp.t;
  is_d3d : bool;
  s_gs : option GSRenderer;
  m_current_renderer_type : GSRendererType;
  stored_toggle_state : bool;
  next_id : oid;
  calls : list Event
}.

Definition set_theApp (a : GSdxApp.t) (w : World) : World :=
  mkWorld (host w) a (is_d3d w) (s_gs w) (m_current_renderer_type w)
          (stored_toggle_state w) (next_id w) (calls w).

Definition set_is_d3d (b : bool) (w : World) : World :=
  mkWorld (host w) (theApp w) b (s_gs w) (m_current_renderer_type w)
          (stored_toggle_state w) (next_id w) (calls w).

Definition set_s_gs (r : option GSRenderer) (w : World) : World :=
  mkWorld (host w) (theApp w) (is_d3d w) r (m_current_renderer_type w)
          (stored_toggle_state w) (next_id w) (calls w).

Definition set_renderer_type (t : GSRendererType) (w : World) : World :=
  mkWorld (host w) (theApp w) (is_d3d w) (s_gs w) t
          (stored_toggle_state w) (next_id w) (calls w).

Definition set_stored_toggle_state (b : bool) (w : World) : World :=
  mkWorld (host w) (theApp w) (is_d3d w) (s_gs w) (m_current_renderer_type w)
          b (next_id w) (calls w).

Definition set_next_id (n : oid) (w : World) : World :=
  mkWorld (host w) (theApp w) (is_d3d w) (s_gs w) (m_current_renderer_type w)
          (stored_toggle_state w) n (calls w).

Definition set_calls (l : list Event) (w : World) : World :=
  mkWorld (host w) (theApp w) (is_d3d w) (s_gs w) (m_current_renderer_type w)
          (stored_toggle_state w) (next_id w) l.

(** ** The monad of plugin calls *)

Definition M (A : Type) : Type := World -> option (A * World).

Definition ret {A : Type} (a : A) : M A := fun w => Some (a, w).

Definition bind {A B : Type} (m : M A) (k : A -> M B) : M B :=
  fun w => match m w with
           | Some (a, w') => k a w'
           | None => None
           end.

Definition gets {A : Type} (f : World -> A) : M A := fun w => Some (f w, w).

Definition modify (f : World -> World) : M unit := fun w => Some (tt, f w).

Definition undefined_behaviour {A : Type} : M A := fun _ => None.

Definition when (b : bool) (m : M unit) : M unit := if b then m else ret tt.

Definition emit (e : Event) : M unit :=
  modify (fun w => set_calls (calls w ++ [e]) w).

Declare Scope gs_scope.
Delimit Scope gs_scope with gs.
Notation "x <- m ;; k" := (bind m (fun x => k))
  (at level 61, m at next level, right associativity) : gs_scope.
Notation "m ;;; k" := (bind m (fun _ => k))
  (at level 61, right associativity) : gs_scope.
Open Scope gs_scope.

(** How a call that an exception can leave ends: it returns a value, or the
    exception propagates to its caller. GS.cpp has no handler; the only
    exceptions in play are the two of [std::stoi]. *)
Inductive Outcome (A : Type) : Type :=
| Returned (a : A)
| Thrown.

Arguments Returned {A} a.
Arguments Thrown {A}.

(** Sequencing after a call that can throw: the rest runs on the value
    returned and is skipped when the exception propagates. *)
Definition bind_returned {A B : Type} (m : M (Outcome A))
  (k : A -> M (Outcome B)) : M (Outcome B) :=
  o <- m ;;
  match o with
  | Returned a => k a
  | Thrown => ret Thrown
  end.

Notation "x <-! m ;; k" := (bind_returned m (fun x => k))
  (at level 61, m at next level, right associativity) : gs_scope.
Notation "m ;;;! k" := (bind_returned m (fun _ => k))
  (at level 61, right associativity) : gs_scope.

(** A call of a method of [theApp]. *)
Definition on_theApp {A : Type} (f : GSdxApp.t -> A * GSdxApp.t) : M A :=
  fun w => let '(a, app) := f (theApp w) in Some (a, set_theApp app w).

(** The outcome of a call whose model gives [None] when it throws. *)
Definition or_thrown {A : Type} (o : option A) : Outcome A :=
  match o with
  | Some a => Returned a
  | None => Thrown
  end.

(** [new T()]: a fresh object, never null; running out of memory is not
    modelled. *)
Definition fresh_id : M oid :=
  n <- gets next_id ;;
  modify (set_next_id (S n)) ;;;
  ret n.

Definition new_device (c : DeviceClass) : M (option GSDevice) :=
  n <- fresh_id ;;
  emit (EvNewDevice n c) ;;;
  ret (Some (mkDevice n c)).

Definition new_renderer (c : RendererClass) : M (option GSRenderer) :=
  n <- fresh_id ;;
  emit (EvNewRenderer n c) ;;;
  ret (Some (mkRenderer n c 0 None [])).

(** [delete dev]; deleting a null pointer does nothing. *)
Definition delete_device (d : option GSDevice) : M unit :=
  match d with
  | None => ret tt
  | Some d => emit (EvDeleteDevice (dev_id d))
  end.

(** Modelled from the spec: the renderer's destructor (GSRenderer.cpp is not
    part of the sources) - destroying a Renderer cascades to destroying its
    owned Device. *)
Definition delete_renderer (r : option GSRenderer) : M unit :=
  match r with
  | None => ret tt
  | Some r => emit (EvDeleteRenderer (rnd_id r)) ;;; delete_device (m_dev r)
  end.

(** A method call through [s_gs]; through a null [s_gs] it is undefined. *)
Definition via_s_gs {A : Type} (f : GSRenderer -> M A) : M A :=
  r <- gets s_gs ;;
  match r with
  | None => undefined_behaviour
  | Some r => f r
  end.

(** Modelled from the spec: [GSRenderer::SetRegsMem] - binds (does not copy)
    the emulated GPU register block. *)
Definition SetRegsMem (basemem : Z) : M unit :=
  via_s_gs (fun r =>
    emit (EvSetRegsMem (rnd_id r) basemem) ;;;
    modify (set_s_gs (Some (set_m_regs r basemem)))).

(** Modelled from the spec: [GSRenderer::CreateDevice] - takes ownership of
    the passed Device; returns false when the device-specific setup fails. *)
Definition CreateDevice (dev : GSDevice) : M bool :=
  via_s_gs (fun r =>
    ok <- gets (fun w => device_setup_ok (host w) (dev_id dev)) ;;
    emit (EvCreateDevice (rnd_id r) (dev_id dev) ok) ;;;
    if ok
    then modify (set_s_gs (Some (set_m_dev r (Some dev)))) ;;; ret true
    else ret false).

(** Modelled from the spec: [GSRenderer::ResetDevice] - resets the Device
    (hardware teardown); the Device object stays allocated. *)
Definition ResetDevice : M unit :=
  via_s_gs (fun r => emit (EvResetDevice (rnd_id r))).

(** Modelled from the spec: [GSRenderer::Transfer<Path>] - ingests [size]
    units of raw transfer data through one path; mutates the renderer's
    internal state; no return value. *)
Definition Transfer (path : nat) (mem size : Z) : M unit :=
  via_s_gs (fun r =>
    emit (EvTransfer (rnd_id r) path mem size) ;;;

    modify (set_s_gs (Some (push_transfer r (mkTransfer path mem size))))).

(** ** GS.cpp *)

Definition u32 (x : Z) : Z := x mod 2 ^ 32.

Section Plugin.

(** [std::stoi]: the integer a text converts to, [None] when it throws. *)
Variable stoi : string -> option Z.

(** [_WIN32]: which of the conditionally compiled cases are present. *)
Variable WIN32 : bool.

(** [GSshutdown] *)
Definition GSshutdown : M unit :=
  r <- gets s_gs ;;
  delete_renderer r ;;;
  modify (set_s_gs None) ;;;
  modify (set_renderer_type Undefined).

(** [GSclose] *)
Definition GSclose : M unit :=
  r <- gets s_gs ;;
  match r with
  | None => ret tt
  | Some _ =>
      ResetDevice ;;;
      via_s_gs (fun r => delete_device (m_dev r)) ;;;
      via_s_gs (fun r => modify (set_s_gs (Some (set_m_dev r None))))
  end.

(** The device [switch] of [_GSopen]: [default:] shares the DX11 case under
    [_WIN32] and falls into [case OGL_HW] otherwise. *)
Definition device_class_for (renderer : GSRendererType) : DeviceClass :=
  match renderer with
  | OGL_HW => GSDeviceOGL
  | OGL_SW => GSDeviceOGL
  | Null => GSDeviceNull
  | DX1011_HW | Undefined => if WIN32 then GSDevice11 else GSDeviceOGL
  end.

(** [theApp.GetConfigI(entry)]: [std::stoi] of the entry, which
    [operator[]] inserts, empty, when it is missing; the exception of
    [std::stoi] is not caught. *)
Definition GetConfigI (entry : string) : M (Outcome Z) :=
  i <- on_theApp (GSdxApp.GetConfigI stoi entry) ;;
  ret (or_thrown i).

(** The renderer [switch] of [_GSopen], with the same [default:]. *)
Definition construct_renderer (renderer : GSRendererType) (threads : Z)
  : M (Outcome unit) :=
  match renderer with
  | OGL_HW =>
      r <- new_renderer GSRendererOGL ;; modify (set_s_gs r) ;;;
      ret (Returned tt)
  | OGL_SW =>
      threads <-! (if threads =? -1
                   then GetConfigI "extrathreads"
                   else ret (Returned threads)) ;;
      r <- new_renderer (GSRendererSW threads) ;; modify (set_s_gs r) ;;;
      ret (Returned tt)
  | Null =>
      r <- new_renderer GSRendererNull ;; modify (set_s_gs r) ;;;
      ret (Returned tt)
  | DX1011_HW | Undefined =>
      if WIN32
      then r <- new_renderer GSRendererDX11 ;;
           modify (set_s_gs r) ;;;
           modify (set_is_d3d true) ;;;
           ret (Returned tt)
      else r <- new_renderer GSRendererOGL ;; modify (set_s_gs r) ;;;
           ret (Returned tt)
  end.

Definition is_null {A : Type} (p : option A) : bool :=
  match p with None => true | Some _ => false end.

(** [_GSopen]; an exception raised while the renderer is constructed
    leaves it at that point. *)
Definition _GSopen (renderer : GSRendererType) (threads : Z) (basemem : Z)
  : M (Outcome Z) :=
  modify (set_is_d3d false) ;;;
  cur <- gets m_current_renderer_type ;;
  when (negb (GSRendererType_eqb cur renderer))
    (old <- gets s_gs ;;
     delete_renderer old ;;;
     modify (set_s_gs None) ;;;
     modify (set_renderer_type renderer)) ;;;
  match renderer with
  | OGL_HW | OGL_SW => emit EvGLLoad
  | _ => ret tt
  end ;;;
  dev <- new_device (device_class_for renderer) ;;
  match dev with
  | None => ret (Returned (-1))
  | Some dev =>
      r <- gets s_gs ;;
      (if is_null r then construct_renderer renderer threads
       else ret (Returned tt)) ;;;!
      r <- gets s_gs ;;
      if is_null r then ret (Returned (-1))
      else
        SetRegsMem basemem ;;;
        ok <- CreateDevice dev ;;
        if negb ok
        then GSclose ;;; ret (Returned (-1))
        else ret (Returned 0)
  end.

(** The part of [GSopen2] that picks the renderer type, up to the call of
    [_GSopen]. *)
Definition GSopen2_select (flags : Z) : M unit :=
  let toggle_state := negb (Z.land flags 4 =? 0) in
  ctx <- gets (fun w => context_type (host w)) ;;
  match ctx with
  | RETRO_HW_CONTEXT_DIRECT3D => modify (set_renderer_type DX1011_HW)
  | RETRO_HW_CONTEXT_NONE => modify (set_renderer_type Null)
  | _ =>
      opt <- gets (fun w => opt_renderer (host w)) ;;
      if String.eqb opt "Software"
      then modify (set_renderer_type OGL_SW)
      else modify (set_renderer_type OGL_HW)
  end ;;;
  cur <- gets m_current_renderer_type ;;
  stored <- gets stored_toggle_state ;;
  when (negb (GSRendererType_eqb cur Undefined)
        && negb (Bool.eqb stored toggle_state))
    (match cur with
     | DX1011_HW =>
         (* a case of its own under [_WIN32], the [default:] otherwise *)
         modify (set_renderer_type OGL_SW)
     | OGL_SW => modify (set_renderer_type OGL_HW)
     | OGL_HW => modify (set_renderer_type OGL_SW)
     | _ => modify (set_renderer_type OGL_SW)
     end) ;;;
  modify (set_stored_toggle_state toggle_state).

(** [GSopen2] *)
Definition GSopen2 (flags : Z) (basemem : Z) : M (Outcome Z) :=
  GSopen2_select flags ;;;
  renderer <- gets m_current_renderer_type ;;
  _GSopen renderer (-1) basemem.

(** [GSgifTransfer], [GSgifTransfer1], [GSgifTransfer2], [GSgifTransfer3];
    [addr] and [size] are [u32]. *)
Definition GSgifTransfer (mem size : Z) : M unit :=
  Transfer 3 mem size.

Definition GSgifTransfer1 (mem addr : Z) : M unit :=
  Transfer 0 (mem + addr) (u32 (0x4000 - addr) / 16).

Definition GSgifTransfer2 (mem size : Z) : M unit :=
  Transfer 1 mem size.

Definition GSgifTransfer3 (mem size : Z) : M unit :=
  Transfer 2 mem size.

End Plugin.

Section Freeze.

(** The mode constants of the plugin API and the renderer's serialisation
    methods are declared outside GS.cpp: [Freeze r data sizeonly] and
    [Defrost r data] give the return code, the buffer and the renderer
    after the call. *)
Variables FREEZE_LOAD FREEZE_SAVE FREEZE_SIZE : Z.
Variable Freeze : GSRenderer -> GSFreezeData -> bool -> Z * GSFreezeData * GSRenderer.
Variable Defrost : GSRenderer -> GSFreezeData -> Z * GSFreezeData * GSRenderer.

Definition call_Freeze (data : GSFreezeData) (sizeonly : bool)
  : M (Z * GSFreezeData) :=
  via_s_gs (fun r =>
    emit (EvFreeze (rnd_id r) sizeonly) ;;;
    let '(rc, data', r') := Freeze r data sizeonly in
    modify (set_s_gs (Some r')) ;;;
    ret (rc, data')).

Definition call_Defrost (data : GSFreezeData) : M (Z * GSFreezeData) :=
  via_s_gs (fun r =>
    emit (EvDefrost (rnd_id r)) ;;;
    let '(rc, data', r') := Defrost r data in
    modify (set_s_gs (Some r')) ;;;
    ret (rc, data')).

(** [GSfreeze]: the [switch] takes the first label equal to [mode]. *)
Definition GSfreeze (mode : Z) (data : GSFreezeData) : M (Z * GSFreezeData) :=
  if mode =? FREEZE_SAVE then call_Freeze data false
  else if mode =? FREEZE_SIZE then call_Freeze data true
  else if mode =? FREEZE_LOAD then call_Defrost data
  else ret (0, data).

End Freeze.

(** ** Running the monad *)

Lemma GSRendererType_eqb_eq (a b : GSRendererType) :
  GSRendererType_eqb a b = true <-> a = b.
Proof. destruct a, b; simpl; split; congruence. Qed.

Lemma GSRendererType_eqb_refl (a : GSRendererType) :
  GSRendererType_eqb a a = true.
Proof. now destruct a. Qed.

Lemma GSRendererType_eqb_neq (a b : GSRendererType) :
  a <> b -> GSRendererType_eqb a b = false.
Proof. destruct a, b; simpl; congruence. Qed.

(** Unfolds the monad and the collaborators, leaving a term in the fields of
    the world. *)
Ltac gs_unfold :=
  unfold GSopen2, GSopen2_select, _GSopen, GSclose, GSshutdown,
    construct_renderer, GetConfigI, on_theApp, or_thrown, bind_returned,
    GSgifTransfer, GSgifTransfer1, GSgifTransfer2,
    GSgifTransfer3, Transfer, CreateDevice, SetRegsMem, ResetDevice,
    via_s_gs, delete_renderer, delete_device, new_renderer, new_device,
    fresh_id, emit, when, modify, gets, bind, ret, undefined_behaviour in *.

(** ** GSclose *)

(** C6. [GSclose] with no renderer ([s_gs] null) changes nothing. With a
    renderer it calls [ResetDevice], deletes the renderer's device (if it
    has one) and nulls [m_dev]; the renderer stays in [s_gs] with the same
    identity, class, register block and accumulated state, and every other
    global is as before. *)
Theorem GSclose_releases_only_the_device (w : World) :
  GSclose w =
  Some (tt,
        match s_gs w with
        | None => w
        | Some r =>
            mkWorld (host w) (theApp w) (is_d3d w)
              (Some (mkRenderer (rnd_id r) (rnd_class r) (m_regs r) None
                                (rnd_state r)))
              (m_current_renderer_type w) (stored_toggle_state w) (next_id w)
              (calls w ++ EvResetDevice (rnd_id r)
                 :: match m_dev r with
                    | None => []
                    | Some d => [EvDeleteDevice (dev_id d)]
                    end)
        end).
Proof.
  destruct w as [h a d3 [r|] ty st n cs]; gs_unfold; cbn; [|reflexivity].
  destruct r as [i c regs [d|] rs]; cbn; unfold set_calls, set_s_gs, set_m_dev; cbn.
  - now rewrite <- app_assoc.
  - reflexivity.
Qed.

(** ** _GSopen *)

(** The class of the renderer the second [switch] of [_GSopen] constructs,
    [threads] being the thread count the software renderer is given. *)
Definition renderer_class_for (WIN32 : bool) (renderer : GSRendererType)
  (threads : Z) : RendererClass :=
  match renderer with
  | OGL_HW => GSRendererOGL
  | OGL_SW => GSRendererSW threads
  | Null => GSRendererNull
  | DX1011_HW | Undefined => if WIN32 then GSRendererDX11 else GSRendererOGL
  end.

(** The GL entry points are loaded for the two GL renderer types only. *)
Definition gl_load_calls (renderer : GSRendererType) : list Event :=
  match renderer with
  | OGL_HW | OGL_SW => [EvGLLoad]
  | _ => []
  end.

(** What deleting the renderer in [s_gs] adds to the record. *)
Definition delete_calls (r : option GSRenderer) : list Event :=
  match r with
  | None => []
  | Some r =>
      EvDeleteRenderer (rnd_id r)
        :: match m_dev r with
           | Some d => [EvDeleteDevice (dev_id d)]
           | None => []
           end
  end.

(** What [GSclose] adds to the record when [r] is in [s_gs]. *)
Definition close_calls (r : GSRenderer) : list Event :=
  EvResetDevice (rnd_id r)
    :: match m_dev r with
       | Some d => [EvDeleteDevice (dev_id d)]
       | None => []
       end.

(** Who is who: the identity of the object in [s_gs] and of its device. *)
Definition renderer_identity (w : World) : option oid :=
  option_map rnd_id (s_gs w).

Definition device_identity (w : World) : option oid :=
  match s_gs w with
  | Some r => option_map dev_id (m_dev r)
  | None => None
  end.

(** What is fixed when the plugin is built and is not decided in GS.cpp:
    whether [_WIN32] and [GL_EXT_TEX_SUB_IMAGE] are defined, and the decimal
    text of the enumeration constants [GSdxApp::Init] stores. *)
Record Build : Type := mkBuild {
  build_WIN32 : bool;
  build_GL_EXT_TEX_SUB_IMAGE : bool;
  CRCHackLevel_Automatic : string;
  BiFiltering_PS2 : string;
  HWMipmapLevel_Automatic : string;
  GSRendererType_Default : string;
  TriFiltering_None : string
}.

(** [theApp] once [GSinit] has called [theApp.Init()] on the empty store. *)
Definition initialised (b : Build) : GSdxApp.t :=
  fst (GSdxApp.Init (CRCHackLevel_Automatic b) (BiFiltering_PS2 b)
         (HWMipmapLevel_Automatic b) (GSRendererType_Default b)
         (TriFiltering_None b) (build_WIN32 b)
         (build_GL_EXT_TEX_SUB_IMAGE b) GSdxApp.fresh Undefined).

(** The state the plugin starts in: [GSdxApp::Init] has filled the store and
    set the renderer type to [Undefined], there is no renderer, and the
    toggle has never been seen. *)
Definition boot (b : Build) (h : Host) : World :=
  mkWorld h (initialised b) false None Undefined false 0%nat [].

Lemma boot_renderer_type (b : Build) (h : Host) (ty : GSRendererType) :
  snd (GSdxApp.Init (CRCHackLevel_Automatic b) (BiFiltering_PS2 b)
         (HWMipmapLevel_Automatic b) (GSRendererType_Default b)
         (TriFiltering_None b) (build_WIN32 b)
         (build_GL_EXT_TEX_SUB_IMAGE b) GSdxApp.fresh ty)
  = m_current_renderer_type (boot b h).
Proof. reflexivity. Qed.

Definition hw_host : Host :=
  mkHost RETRO_HW_CONTEXT_OPENGL "Hardware" (fun _ => true).

(** A build without [_WIN32] and [GL_EXT_TEX_SUB_IMAGE]. The texts of the
    enumeration constants are sample values: nothing proved depends on
    them. *)
Definition linux_build : Build :=
  mkBuild false false "-1" "2" "-1" "12" "0".

(** [Init] leaves the thread count of the software renderer at "2",
    on every build. *)
Lemma initialised_extrathreads (b : Build) :
  GSdxApp.m_current_configuration (initialised b) "extrathreads"%string
    = Some "2"%string.
Proof.
  unfold initialised, GSdxApp.Init. cbn [GSdxApp.is_initialised GSdxApp.fresh fst
    GSdxApp.m_current_configuration].
  apply GSdxApp.assign_all_in; [apply GSdxApp.Init_defaults_distinct|].
  vm_compute. tauto.
Qed.

(** Case analysis on a world down to its fields. *)
Ltac gs_world w :=
  let ok := fresh "ok" in
  destruct w as [[?ctx ?opt ok] [?ini ?cur ?def] ?d3
                 [[?i ?c ?regs [[?di ?dc]|] ?rs]|] ?ty ?st ?n ?cs].

(** Decides the device-setup tests left in an evaluated goal. *)
Ltac gs_setup_cases :=
  repeat match goal with
         | ok : oid -> bool |- context [?f ?x] =>
             constr_eq f ok; destruct (ok x) eqn:?
         end.

(** Decides, for the store [cur], whether the entry read by [_GSopen] is
    there and whether it converts. *)
Ltac gs_config_cases stoi cur :=
  let v := fresh "v" in
  destruct (cur "extrathreads"%string) as [v|] eqn:?;
  [destruct (stoi v) eqn:?|destruct (stoi EmptyString) eqn:?].

(** What one call of [_GSopen] does, in closed form. [conf] is the thread
    count and the store after the configuration has been read, when it is
    read: for the software renderer, to be constructed, asked for with
    [threads = -1]. *)
Lemma _GSopen_result stoi WIN32 V threads p w :
  let keep := GSRendererType_eqb (m_current_renderer_type w) V in
  let old := if keep then s_gs w else None in
  let d := next_id w in
  let ok := device_setup_ok (host w) d in
  let reads :=
    is_null old && GSRendererType_eqb V OGL_SW && (threads =? -1) in
  let conf := if reads
              then GSdxApp.GetConfigI stoi "extrathreads" (theApp w)
              else (Some threads, theApp w) in
  let built :=
    calls w
      ++ (if keep then [] else delete_calls (s_gs w))
      ++ gl_load_calls V
      ++ [EvNewDevice d (device_class_for WIN32 V)] in
  _GSopen stoi WIN32 V threads p w =
  match fst conf with
  | None =>
      Some (Thrown,
            mkWorld (host w) (snd conf) false None V (stored_toggle_state w)
              (S d) built)
  | Some n =>
      let r := match old with
               | Some r => r
               | None => mkRenderer (S d) (renderer_class_for WIN32 V n)
                           0 None []
               end in
      Some (Returned (if ok then 0 else -1),
            mkWorld (host w) (snd conf)
              (match old, V with
               | None, (DX1011_HW | Undefined) => WIN32
               | _, _ => false
               end)
              (Some (mkRenderer (rnd_id r) (rnd_class r) p
                       (if ok
                        then Some (mkDevice d (device_class_for WIN32 V))
                        else None)
                       (rnd_state r)))
              V (stored_toggle_state w)
              (match old with Some _ => S d | None => S (S d) end)
              (built
               ++ match old with
                  | Some _ => []
                  | None => [EvNewRenderer (S d)
                               (renderer_class_for WIN32 V n)]
                  end
               ++ [EvSetRegsMem (rnd_id r) p; EvCreateDevice (rnd_id r) d ok]
               ++ (if ok then [] else close_calls r)))
  end.
Proof.
  unfold _GSopen, construct_renderer, renderer_class_for, GetConfigI,
    GSdxApp.GetConfigI, GSdxApp.GetConfigS, GSdxApp.map_index,
    delete_calls, close_calls.
  destruct (threads =? -1); gs_world w; gs_config_cases stoi cur;
    destruct ty, V, WIN32; cbv -[app String.eqb];
    repeat match goal with H : _ = _ |- _ => rewrite H end;
    gs_setup_cases; rewrite <- ?app_assoc; reflexivity.
Qed.

(** When [_GSopen] is left by an exception: the software renderer has to be
    constructed, with [threads = -1], and [std::stoi] throws on the
    ["extrathreads"] entry of the store. *)
Definition _GSopen_throws (stoi : string -> option Z) (V : GSRendererType)
  (threads : Z) (w : World) : Prop :=
  is_null (if GSRendererType_eqb (m_current_renderer_type w) V
           then s_gs w else None)
  && GSRendererType_eqb V OGL_SW && (threads =? -1) = true /\
  fst (GSdxApp.GetConfigI stoi "extrathreads" (theApp w)) = None.

(** A call that finds its renderer in place reads no configuration and
    returns. *)
Lemma _GSopen_keeps stoi WIN32 V threads p w r :
  m_current_renderer_type w = V ->
  s_gs w = Some r ->
  let d := next_id w in
  let ok := device_setup_ok (host w) d in
  _GSopen stoi WIN32 V threads p w =
  Some (Returned (if ok then 0 else -1),
        mkWorld (host w) (theApp w) false
          (Some (mkRenderer (rnd_id r) (rnd_class r) p
                   (if ok
                    then Some (mkDevice d (device_class_for WIN32 V))
                    else None)
                   (rnd_state r)))
          V (stored_toggle_state w) (S d)
          (calls w ++ gl_load_calls V
             ++ [EvNewDevice d (device_class_for WIN32 V);
                 EvSetRegsMem (rnd_id r) p;
                 EvCreateDevice (rnd_id r) d ok]
             ++ (if ok then [] else close_calls r))).
Proof.
  intros Hty Hr. rewrite _GSopen_result. cbv zeta.
  rewrite Hty, GSRendererType_eqb_refl, Hr. cbn [is_null andb fst snd app].
  now rewrite <- !app_assoc.
Qed.

(** The two ways [_GSopen] ends. *)
Lemma _GSopen_outcome stoi WIN32 V threads p w :
  exists o w',
    _GSopen stoi WIN32 V threads p w = Some (o, w') /\
    host w' = host w /\
    m_current_renderer_type w' = V /\
    stored_toggle_state w' = stored_toggle_state w /\
    (o = Thrown <-> _GSopen_throws stoi V threads w) /\
    (o = Thrown -> s_gs w' = None) /\
    (forall rc, o = Returned rc -> s_gs w' <> None).
Proof.
  rewrite _GSopen_result. cbv zeta. unfold _GSopen_throws.
  destruct (is_null _ && _ && _); cbn [fst snd].
  - destruct (fst (GSdxApp.GetConfigI stoi "extrathreads" (theApp w)));
      do 2 eexists; (split; [reflexivity|]); cbn [host s_gs
        m_current_renderer_type stored_toggle_state];
      repeat split; try tauto; try discriminate; intros []; discriminate.
  - do 2 eexists; (split; [reflexivity|]); cbn [host s_gs
      m_current_renderer_type stored_toggle_state];
      repeat split; try tauto; try discriminate; intros []; discriminate.
Qed.






(** C1 (amended). Calling [_GSopen] twice in a row with the same renderer
    type and the same [basemem] keeps the renderer: [s_gs] holds the same
    object, unchanged but for its device, and the second call deletes and
    constructs no renderer. It does construct a new device and hands it to
    [CreateDevice]: when that succeeds the renderer's device is the new
    object, not the one of the first call; when it fails [GSclose] leaves
    the renderer without a device. The second call always returns; the
    first one does unless it is left by the exception of [std::stoi]. *)
Theorem _GSopen_again_keeps_renderer_replaces_device
  stoi WIN32 V t1 t2 p w :
  exists o1 w1,
    _GSopen stoi WIN32 V t1 p w = Some (o1, w1) /\
    (o1 = Thrown <-> _GSopen_throws stoi V t1 w) /\
    forall rc1, o1 = Returned rc1 ->
    exists rc2 w2 r1 r2,
      _GSopen stoi WIN32 V t2 p w1 = Some (Returned rc2, w2) /\
      s_gs w1 = Some r1 /\
      s_gs w2 = Some r2 /\
      r2 = set_m_dev r1 (m_dev r2) /\
      m_dev r2 =
        (if rc2 =? 0
         then Some (mkDevice (next_id w1) (device_class_for WIN32 V))
         else None) /\
      (rc2 = 0 -> device_identity w2 <> device_identity w1) /\
      calls w2 =
        calls w1 ++ gl_load_calls V
          ++ [EvNewDevice (next_id w1) (device_class_for WIN32 V);
              EvSetRegsMem (rnd_id r1) p;
              EvCreateDevice (rnd_id r1) (next_id w1) (rc2 =? 0)]
          ++ (if rc2 =? 0 then []
              else EvResetDevice (rnd_id r1)
                     :: match m_dev r1 with
                        | Some d => [EvDeleteDevice (dev_id d)]
                        | None => []
                        end).
Proof.
  pose proof (_GSopen_result stoi WIN32 V t1 p w) as H1. cbv zeta in H1.
  unfold _GSopen_throws.
  set (old := if GSRendererType_eqb (m_current_renderer_type w) V
              then s_gs w else None) in *.
  set (reads := is_null old && GSRendererType_eqb V OGL_SW && (t1 =? -1))
    in *.
  assert (Hconf :
    reads = true ->
    (if reads then GSdxApp.GetConfigI stoi "extrathreads" (theApp w)
     else (Some t1, theApp w))
    = GSdxApp.GetConfigI stoi "extrathreads" (theApp w)).
  { now intros ->. }
  assert (Hreads :
    fst (if reads then GSdxApp.GetConfigI stoi "extrathreads" (theApp w)
         else (Some t1, theApp w)) = None -> reads = true).
  { destruct reads; [reflexivity|discriminate]. }
  destruct (fst (if reads then _ else _)) as [n|] eqn:E.
  - match type of H1 with _ = Some (_, ?w1) =>
      pose proof (_GSopen_keeps stoi WIN32 V t2 p w1 _ eq_refl eq_refl) as H2;
      cbv zeta in H2
    end.
    cbn [host next_id calls stored_toggle_state theApp rnd_id rnd_class
         rnd_state m_dev close_calls] in H2.
    do 2 eexists. split; [exact H1|]. split.
    { split; [discriminate|]. intros [Hr Hc].
      rewrite (Hconf Hr) in E. congruence. }
    intros rc1 _. do 4 eexists.
    split; [exact H2|].
    cbn [s_gs next_id calls].
    split; [reflexivity|]. split; [reflexivity|].
    unfold set_m_dev, device_identity;
      cbn [rnd_id rnd_class m_regs m_dev rnd_state s_gs option_map dev_id].
    clear H1 H2 Hconf Hreads E. clearbody old. clear reads.
    destruct old as [r0|];
      destruct (device_setup_ok (host w) (next_id w));
      match goal with
      | |- context [device_setup_ok ?h ?x] => destruct (device_setup_ok h x)
      end;
      cbn [Z.eqb Pos.eqb];
      repeat split; try reflexivity;
      intros Hrc; try discriminate Hrc;
      intros E; try discriminate E; injection E; lia.
  - do 2 eexists. split; [exact H1|]. split.
    { specialize (Hreads eq_refl). rewrite (Hconf Hreads) in E.
      split; [intros _; split; [exact Hreads|exact E]|reflexivity]. }
    intros rc1 Hrc. discriminate Hrc.
Qed.

(** C1, as stated, fails: on a host where every device setup succeeds, two
    successive [_GSopen] calls for [OGL_HW] with the same [basemem] leave
    the same renderer in [s_gs] but two different devices in it. *)
Lemma _GSopen_again_device_identity_changes :
  exists w1 w2,
    _GSopen std_stoi false OGL_HW (-1) 4096 (boot linux_build hw_host)
      = Some (Returned 0, w1) /\
    _GSopen std_stoi false OGL_HW (-1) 4096 w1 = Some (Returned 0, w2) /\
    renderer_identity w2 = renderer_identity w1 /\
    device_identity w1 = Some 0%nat /\
    device_identity w2 = Some 2%nat /\
    device_identity w2 <> device_identity w1.
Proof.
  do 2 eexists.
  split; [vm_compute; reflexivity|].
  split; [vm_compute; reflexivity|].
  repeat split; discriminate.
Qed.

(** ** GSopen2 *)

(** [!!(flags & 4)] is bit 2 of [flags]. *)
Lemma toggle_state_testbit (flags : Z) :
  negb (Z.land flags 4 =? 0) = Z.testbit flags 2.
Proof.
  destruct (Z.testbit flags 2) eqn:E.
  - destruct (Z.eqb_spec (Z.land flags 4) 0) as [H|H]; [|reflexivity].
    apply (f_equal (fun x => Z.testbit x 2)) in H.
    rewrite Z.land_spec, E in H. discriminate H.
  - assert (H : Z.land flags 4 = 0).
    { apply Z.bits_inj'. intros n Hn.
      rewrite Z.land_spec, Z.bits_0.
      change 4 with (2 ^ 2). rewrite Z.pow2_bits_eqb by lia.
      destruct (Z.eqb_spec 2 n) as [<-|_]; [now rewrite E|apply andb_false_r]. }
    now rewrite H.
Qed.

(** The renderer type the first [switch] of [GSopen2] selects: from the
    host's context, else from the renderer option. *)
Definition configured_type (h : Host) : GSRendererType :=
  match context_type h with
  | RETRO_HW_CONTEXT_DIRECT3D => DX1011_HW
  | RETRO_HW_CONTEXT_NONE => Null
  | _ => if String.eqb (opt_renderer h) "Software" then OGL_SW else OGL_HW
  end.

(** The second [switch] of [GSopen2]: the other mode. *)
Definition other_mode (t : GSRendererType) : GSRendererType :=
  match t with
  | OGL_SW => OGL_HW
  | _ => OGL_SW
  end.

(** A run of [GSopen2] calls, each given as (flags, basemem); the result is
    the renderer type in force after each call, however the call ended. *)
Fixpoint GSopen2_calls (stoi : string -> option Z) (WIN32 : bool)
  (l : list (Z * Z)) : M (list GSRendererType) :=
  match l with
  | [] => ret []
  | (flags, basemem) :: l =>
      GSopen2 stoi WIN32 flags basemem ;;;
      t <- gets m_current_renderer_type ;;
      ts <- GSopen2_calls stoi WIN32 l ;;
      ret (t :: ts)
  end.

(** The selection overwrites [m_current_renderer_type] before it tests it:
    the type it leaves depends on the host and on the toggle edge, never on
    the type that was current. *)
Lemma GSopen2_select_result flags w :
  GSopen2_select flags w =
  Some (tt,
        mkWorld (host w) (theApp w) (is_d3d w) (s_gs w)
          (if Bool.eqb (stored_toggle_state w) (Z.testbit flags 2)
           then configured_type (host w)
           else other_mode (configured_type (host w)))
          (Z.testbit flags 2) (next_id w) (calls w)).
Proof.
  unfold GSopen2_select. rewrite toggle_state_testbit.
  unfold configured_type.
  destruct (Z.testbit flags 2); gs_world w;
    destruct st, ctx; cbv -[String.eqb];
    try destruct (String.eqb opt "Software"); reflexivity.
Qed.

(** One [GSopen2] call ends, keeps the host, records the toggle bit and
    leaves the selected type current. It is left by the exception of
    [std::stoi] only when there is no renderer and the software renderer
    was selected; otherwise it returns, with a renderer in [s_gs]. *)
Lemma GSopen2_result stoi WIN32 flags basemem w :
  exists o w',
    GSopen2 stoi WIN32 flags basemem w = Some (o, w') /\
    host w' = host w /\
    stored_toggle_state w' = Z.testbit flags 2 /\
    m_current_renderer_type w' =
      (if Bool.eqb (stored_toggle_state w) (Z.testbit flags 2)
       then configured_type (host w)
       else other_mode (configured_type (host w))) /\
    (o = Thrown ->
     s_gs w = None /\ s_gs w' = None /\
     m_current_renderer_type w' = OGL_SW /\
     fst (GSdxApp.GetConfigI stoi "extrathreads" (theApp w)) = None) /\
    (forall rc, o = Returned rc -> s_gs w' <> None).
Proof.
  unfold GSopen2. unfold bind at 1. rewrite GSopen2_select_result.
  unfold bind, gets.
  cbn [m_current_renderer_type].
  match goal with |- context [_GSopen stoi WIN32 ?V ?t ?p ?w0] =>
    destruct (_GSopen_outcome stoi WIN32 V t p w0)
      as (o & w' & E & Hh & Hty & Hst & Hthrow & Hnone & Hsome)
  end.
  exists o, w'. split; [exact E|].
  cbn [host stored_toggle_state m_current_renderer_type] in *.
  split; [exact Hh|]. split; [exact Hst|]. split; [exact Hty|].
  split; [|exact Hsome].
  intros Ho. specialize (Hnone Ho). apply Hthrow in Ho.
  unfold _GSopen_throws in Ho.
  cbn [m_current_renderer_type s_gs theApp] in Ho.
  rewrite GSRendererType_eqb_refl in Ho. destruct Ho as [Hr Hc].
  apply andb_prop in Hr. destruct Hr as [Hr _].
  apply andb_prop in Hr. destruct Hr as [Hr Hv].
  apply GSRendererType_eqb_eq in Hv.
  split; [now destruct (s_gs w)|]. split; [exact Hnone|].
  split; [congruence|exact Hc].
Qed.

(** X1. Because [GSopen2] stores the selected type in
    [m_current_renderer_type] before it calls [_GSopen] with that same
    value, the comparison in [_GSopen] finds them equal: a renderer that is
    in [s_gs] is kept, with its class, whatever type was selected. *)
Lemma GSopen2_keeps_the_renderer stoi WIN32 flags basemem w r :
  s_gs w = Some r ->
  exists rc w' r',
    GSopen2 stoi WIN32 flags basemem w = Some (Returned rc, w') /\
    s_gs w' = Some r' /\
    rnd_id r' = rnd_id r /\
    rnd_class r' = rnd_class r /\
    rnd_state r' = rnd_state r.
Proof.
  intros Hr.
  unfold GSopen2. unfold bind at 1. rewrite GSopen2_select_result.
  unfold bind, gets.
  cbn [m_current_renderer_type].
  match goal with |- context [_GSopen stoi WIN32 ?V ?t ?p ?w0] =>
    rewrite (_GSopen_keeps stoi WIN32 V t p w0 r eq_refl Hr)
  end.
  cbv zeta.
  do 3 eexists. split; [reflexivity|].
  cbn [s_gs rnd_id rnd_class rnd_state]. repeat split.
Qed.

(** C3. Host context not forcing a backend, renderer option not "Software",
    current type [OGL_HW]: a [GSopen2] call whose bit 2 differs from the
    stored toggle state leaves [OGL_SW] current, the next call with the same
    bit 2 leaves [OGL_HW] current, and so does every further call with that
    bit 2. *)
Theorem GSopen2_toggle_edge_scenario stoi WIN32 w f1 p1 f2 p2 rest :
  context_type (host w) <> RETRO_HW_CONTEXT_DIRECT3D ->
  context_type (host w) <> RETRO_HW_CONTEXT_NONE ->
  opt_renderer (host w) <> "Software"%string ->
  m_current_renderer_type w = OGL_HW ->
  Z.testbit f1 2 <> stored_toggle_state w ->
  Z.testbit f2 2 = Z.testbit f1 2 ->
  Forall (fun c => Z.testbit (fst c) 2 = Z.testbit f1 2) rest ->
  exists w',
    GSopen2_calls stoi WIN32 ((f1, p1) :: (f2, p2) :: rest) w =
    Some (OGL_SW :: OGL_HW :: repeat OGL_HW (List.length rest), w').
Proof.
  intros Hd3d Hnone Hopt _ Hedge Hsame Hrest.
  assert (Hcfg : configured_type (host w) = OGL_HW).
  { unfold configured_type.
    apply String.eqb_neq in Hopt. rewrite Hopt.
    destruct (context_type (host w)); congruence. }
  assert (Hheld : forall l w2,
             host w2 = host w ->
             stored_toggle_state w2 = Z.testbit f1 2 ->
             Forall (fun c => Z.testbit (fst c) 2 = Z.testbit f1 2) l ->
             exists w',
               GSopen2_calls stoi WIN32 l w2 =
               Some (repeat OGL_HW (List.length l), w')).
  { induction l as [|[f p] l IH]; intros w2 Hh Hst Hl.
    - eexists. reflexivity.
    - inversion Hl as [|? ? Hf Hl']; subst. cbn [fst] in Hf.
      destruct (GSopen2_result stoi WIN32 f p w2)
        as (rc & w3 & E & Hh3 & Hst3 & Hty & _).
      rewrite Hst, Hf, eqb_reflx, Hh, Hcfg in Hty.
      destruct (IH w3) as (w' & E'); [congruence | congruence | assumption |].
      exists w'. cbn [GSopen2_calls List.length repeat].
      unfold bind at 1. rewrite E. unfold bind at 1, gets at 1.
      unfold bind at 1. rewrite E'. unfold ret. now rewrite Hty. }
  destruct (GSopen2_result stoi WIN32 f1 p1 w)
    as (rc1 & w1 & E1 & Hh1 & Hst1 & Hty1 & _).
  destruct (GSopen2_result stoi WIN32 f2 p2 w1)
    as (rc2 & w2 & E2 & Hh2 & Hst2 & Hty2 & _).
  assert (Hne : Bool.eqb (stored_toggle_state w) (Z.testbit f1 2) = false).
  { apply eqb_false_iff. congruence. }
  rewrite Hne, Hcfg in Hty1.
  rewrite Hst1, Hsame, eqb_reflx, Hh1, Hcfg in Hty2.
  destruct (Hheld rest w2) as (w' & E'); [congruence | congruence | assumption |].
  exists w'. cbn [GSopen2_calls].
  unfold bind at 1. rewrite E1. unfold bind at 1, gets at 1.
  unfold bind at 1, bind at 1. rewrite E2. unfold bind at 1, gets at 1.
  unfold bind at 1. rewrite E'. unfold ret. now rewrite Hty1, Hty2.
Qed.

(** The world after a first [GSopen2] with no flag set, on a host with an
    OpenGL context, the hardware renderer configured and working devices;
    and the renderer it holds. *)
Definition opened_hw : World :=
  Eval vm_compute in
    match GSopen2 std_stoi false 0 4096 (boot linux_build hw_host) with
    | Some (_, w) => w
    | None => boot linux_build hw_host
    end.

Definition opened_hw_renderer : GSRenderer :=
  Eval vm_compute in
    match s_gs opened_hw with
    | Some r => r
    | None => mkRenderer 0%nat GSRendererNull 0 None []
    end.

Lemma GSopen2_toggle_edge_scenario_witness :
  exists w',
    GSopen2_calls std_stoi false
      [(4, 4096); (4, 4096); (4, 4096); (4, 4096)] opened_hw =
    Some ([OGL_SW; OGL_HW; OGL_HW; OGL_HW], w').
Proof.
  apply (GSopen2_toggle_edge_scenario std_stoi false opened_hw 4 4096 4 4096
           [(4, 4096); (4, 4096)]);
    try (vm_compute; discriminate); try reflexivity.
  repeat constructor.
Defined.

(** C4 fails on the code. On the very first [GSopen2] call - renderer type
    [Undefined], no toggle seen yet - a set bit 2 is an edge and is acted
    on: with the hardware renderer configured the call leaves [OGL_SW]
    current, where the same call without the bit leaves [OGL_HW]. The guard
    against [Undefined] is evaluated after the type has been overwritten. *)
Theorem GSopen2_first_call_acts_on_toggle :
  m_current_renderer_type (boot linux_build hw_host) = Undefined /\
  configured_type hw_host = OGL_HW /\
  exists w0 w4,
    GSopen2 std_stoi false 0 4096 (boot linux_build hw_host)
      = Some (Returned 0, w0) /\
    m_current_renderer_type w0 = OGL_HW /\
    GSopen2 std_stoi false 4 4096 (boot linux_build hw_host)
      = Some (Returned 0, w4) /\
    m_current_renderer_type w4 = OGL_SW.
Proof.
  split; [reflexivity|]. split; [reflexivity|].
  do 2 eexists.
  split; [vm_compute; reflexivity|]. split; [reflexivity|].
  split; [vm_compute; reflexivity|]. reflexivity.
Qed.

(** C2 fails on the code as it is reached. [_GSopen] is static and
    [GSopen2], its one caller, stores the type it selected in
    [m_current_renderer_type] before the call, so the comparison that
    guards the rebuild never finds a difference. A first [GSopen2] opens
    the hardware renderer and a transfer gives it state; the next
    [GSopen2], with the toggle bit set, selects [OGL_SW] - and leaves the
    same [GSRendererOGL] object in [s_gs], with the state it had, under the
    type [OGL_SW]: no renderer is deleted and none constructed. [_GSopen]
    itself, entered from the same state with [OGL_HW] still current, does
    what the claim says: it deletes the renderer and its device and
    constructs a [GSRendererSW] with no state. *)
Theorem GSopen2_variant_change_keeps_renderer :
  exists w1 w1' w2 w3,
    GSopen2 std_stoi false 0 4096 (boot linux_build hw_host)
      = Some (Returned 0, w1) /\
    m_current_renderer_type w1 = OGL_HW /\
    s_gs w1 =
      Some (mkRenderer 1%nat GSRendererOGL 4096
              (Some (mkDevice 0%nat GSDeviceOGL)) []) /\
    GSgifTransfer 0x2000 16 w1 = Some (tt, w1') /\
    GSopen2 std_stoi false 4 4096 w1' = Some (Returned 0, w2) /\
    m_current_renderer_type w2 = OGL_SW /\
    s_gs w2 =
      Some (mkRenderer 1%nat GSRendererOGL 4096
              (Some (mkDevice 2%nat GSDeviceOGL))
              [mkTransfer 3%nat 0x2000 16]) /\
    calls w2 =
      calls w1'
        ++ [EvGLLoad; EvNewDevice 2%nat GSDeviceOGL;
            EvSetRegsMem 1%nat 4096; EvCreateDevice 1%nat 2%nat true] /\
    _GSopen std_stoi false OGL_SW (-1) 4096 w1' = Some (Returned 0, w3) /\
    s_gs w3 =
      Some (mkRenderer 3%nat (GSRendererSW 2) 4096
              (Some (mkDevice 2%nat GSDeviceOGL)) []) /\
    calls w3 =
      calls w1'
        ++ [EvDeleteRenderer 1%nat; EvDeleteDevice 0%nat; EvGLLoad;
            EvNewDevice 2%nat GSDeviceOGL;
            EvNewRenderer 3%nat (GSRendererSW 2);
            EvSetRegsMem 3%nat 4096; EvCreateDevice 3%nat 2%nat true].
Proof.
  do 4 eexists.
  split; [vm_compute; reflexivity|].
  split; [reflexivity|]. split; [reflexivity|].
  split; [vm_compute; reflexivity|].
  split; [vm_compute; reflexivity|].
  split; [reflexivity|]. split; [reflexivity|]. split; [reflexivity|].
  split; [vm_compute; reflexivity|].
  split; reflexivity.
Qed.

(** ** GIF entry points *)

(** C8. With a renderer in [s_gs], each GIF entry point makes exactly one
    [Transfer] call, on its own path: [GSgifTransfer] on path 3 with
    [(mem, size)], [GSgifTransfer1] on path 0 with the buffer at
    [mem + addr] and size [(0x4000 - addr) / 16] in [u32] arithmetic,
    [GSgifTransfer2] on path 1 and [GSgifTransfer3] on path 2 with
    [(mem, size)]. *)
Theorem GSgifTransfer_paths (w : World) (r : GSRenderer) (mem size addr : Z) :
  s_gs w = Some r ->
  let transferred (path : nat) (m s : Z) :=
    Some (tt,
          mkWorld (host w) (theApp w) (is_d3d w)
            (Some (push_transfer r (mkTransfer path m s)))
            (m_current_renderer_type w) (stored_toggle_state w) (next_id w)
            (calls w ++ [EvTransfer (rnd_id r) path m s])) in
  GSgifTransfer mem size w = transferred 3%nat mem size /\
  GSgifTransfer1 mem addr w =
    transferred 0%nat (mem + addr) (((0x4000 - addr) mod 2 ^ 32) / 16) /\
  GSgifTransfer2 mem size w = transferred 1%nat mem size /\
  GSgifTransfer3 mem size w = transferred 2%nat mem size /\
  (0 <= addr <= 0x4000 ->
   ((0x4000 - addr) mod 2 ^ 32) / 16 = (0x4000 - addr) / 16).
Proof.
  intros E. cbv zeta.
  unfold GSgifTransfer, GSgifTransfer1, GSgifTransfer2, GSgifTransfer3,
    Transfer, via_s_gs, bind, gets, emit, modify, u32.
  rewrite E. cbn [s_gs calls set_calls set_s_gs host is_d3d
                  m_current_renderer_type stored_toggle_state next_id].
  repeat split.
  intros H. rewrite Z.mod_small by lia. reflexivity.
Qed.

Lemma GSgifTransfer_paths_witness :
  s_gs opened_hw = Some opened_hw_renderer /\
  GSgifTransfer1 0x10000 0x3f00 opened_hw =
    Some (tt,
          mkWorld (host opened_hw) (theApp opened_hw) (is_d3d opened_hw)
            (Some (push_transfer opened_hw_renderer
                     (mkTransfer 0%nat 0x13f00 16)))
            (m_current_renderer_type opened_hw)
            (stored_toggle_state opened_hw) (next_id opened_hw)
            (calls opened_hw ++ [EvTransfer (rnd_id opened_hw_renderer) 0%nat
                                   0x13f00 16])).
Proof.
  split; [reflexivity|].
  exact (proj1 (proj2 (GSgifTransfer_paths opened_hw opened_hw_renderer
                         0x10000 0 0x3f00 eq_refl))).
Defined.

(** ** GSfreeze *)

(** C10. For a [mode] that is none of [FREEZE_SAVE], [FREEZE_SIZE] and
    [FREEZE_LOAD], [GSfreeze] returns 0 and calls neither [Freeze] nor
    [Defrost]: the world - renderer and call record included - and the
    caller's buffer are as before, whatever the two methods would do. *)
Theorem GSfreeze_unknown_mode
  (FREEZE_LOAD FREEZE_SAVE FREEZE_SIZE : Z)
  (Freeze : GSRenderer -> GSFreezeData -> bool -> Z * GSFreezeData * GSRenderer)
  (Defrost : GSRenderer -> GSFreezeData -> Z * GSFreezeData * GSRenderer)
  (mode : Z) (data : GSFreezeData) (w : World) :
  mode <> FREEZE_SAVE ->
  mode <> FREEZE_SIZE ->
  mode <> FREEZE_LOAD ->
  GSfreeze FREEZE_LOAD FREEZE_SAVE FREEZE_SIZE Freeze Defrost mode data w =
  Some ((0, data), w).
Proof.
  intros Hsave Hsize Hload. unfold GSfreeze.
  destruct (Z.eqb_spec mode FREEZE_SAVE) as [?|_]; [contradiction|].
  destruct (Z.eqb_spec mode FREEZE_SIZE) as [?|_]; [contradiction|].
  destruct (Z.eqb_spec mode FREEZE_LOAD) as [?|_]; [contradiction|].
  reflexivity.
Qed.

Lemma GSfreeze_unknown_mode_witness :
  GSfreeze 0 1 2 (fun r d _ => (0, d, r)) (fun r d => (0, d, r))
    3 (mkFreezeData 4 [1; 2; 3; 4]) opened_hw =
  Some ((0, mkFreezeData 4 [1; 2; 3; 4]), opened_hw).
Proof.
  apply (GSfreeze_unknown_mode 0 1 2 (fun r d _ => (0, d, r))
           (fun r d => (0, d, r)) 3 (mkFreezeData 4 [1; 2; 3; 4]) opened_hw);
    discriminate.
Defined.

(** ** GSVector.cpp: the lane-mask tables *)

(** Writing cell [n] of a fixed-size array. *)
Definition store {A : Type} (a : nat -> A) (n : nat) (v : A) : nat -> A :=
  fun i => if Nat.eqb i n then v else a i.

(** [for (size_t n = 0; n < countof(src); ++n) dst[n] = src[n];] *)
Definition copy_table {A : Type} (zero : A) (src : list A) (dst : nat -> A)
  : nat -> A :=
  fold_left (fun a n => store a n (nth n src zero))
            (seq 0 (List.length src)) dst.

(** Byte [k] of a vector held as 32-bit lanes, lowest lane and lowest byte
    first. *)
Definition byte_of_lanes (l : list Z) (k : nat) : Z :=
  Z.land (Z.shiftr (nth (k / 4) l 0) (8 * Z.of_nat (k mod 4))) 0xff.

Module GSVector4i.

(** Modelled from the spec: the class [GSVector4i] (GSVector.h is not among
    the sources) - a 16-byte vector read as bytes or 32-bit lanes; the
    constructor takes the four lanes lowest first and keeps the 32-bit
    pattern of each [int]. *)
Record t : Type := mk { U32 : list Z }.

Definition make (x y z w : Z) : t := mk [u32 x; u32 y; u32 z; u32 w].

Definition zero : t := make 0 0 0 0.

Definition U8 (v : t) (k : nat) : Z := byte_of_lanes (U32 v) k.

(** The local arrays of [GSVector4i::InitVectors]. *)
Definition xff : list t :=
  [
    make 0x00000000 0x00000000 0x00000000 0x00000000;
    make 0x000000ff 0x00000000 0x00000000 0x00000000;
    make 0x0000ffff 0x00000000 0x00000000 0x00000000;
    make 0x00ffffff 0x00000000 0x00000000 0x00000000;
    make 0xffffffff 0x00000000 0x00000000 0x00000000;
    make 0xffffffff 0x000000ff 0x00000000 0x00000000;
    make 0xffffffff 0x0000ffff 0x00000000 0x00000000;
    make 0xffffffff 0x00ffffff 0x00000000 0x00000000;
    make 0xffffffff 0xffffffff 0x00000000 0x00000000;
    make 0xffffffff 0xffffffff 0x000000ff 0x00000000;
    make 0xffffffff 0xffffffff 0x0000ffff 0x00000000;
    make 0xffffffff 0xffffffff 0x00ffffff 0x00000000;
    make 0xffffffff 0xffffffff 0xffffffff 0x00000000;
    make 0xffffffff 0xffffffff 0xffffffff 0x000000ff;
    make 0xffffffff 0xffffffff 0xffffffff 0x0000ffff;
    make 0xffffffff 0xffffffff 0xffffffff 0x00ffffff;
    make 0xffffffff 0xffffffff 0xffffffff 0xffffffff
  ].

Definition x0f : list t :=
  [
    make 0x00000000 0x00000000 0x00000000 0x00000000;
    make 0x0000000f 0x00000000 0x00000000 0x00000000;
    make 0x00000f0f 0x00000000 0x00000000 0x00000000;
    make 0x000f0f0f 0x00000000 0x00000000 0x00000000;
    make 0x0f0f0f0f 0x00000000 0x00000000 0x00000000;
    make 0x0f0f0f0f 0x0000000f 0x00000000 0x00000000;
    make 0x0f0f0f0f 0x00000f0f 0x00000000 0x00000000;
    make 0x0f0f0f0f 0x000f0f0f 0x00000000 0x00000000;
    make 0x0f0f0f0f 0x0f0f0f0f 0x00000000 0x00000000;
    make 0x0f0f0f0f 0x0f0f0f0f 0x0000000f 0x00000000;
    make 0x0f0f0f0f 0x0f0f0f0f 0x00000f0f 0x00000000;
    make 0x0f0f0f0f 0x0f0f0f0f 0x000f0f0f 0x00000000;
    make 0x0f0f0f0f 0x0f0f0f0f 0x0f0f0f0f 0x00000000;
    make 0x0f0f0f0f 0x0f0f0f0f 0x0f0f0f0f 0x0000000f;
    make 0x0f0f0f0f 0x0f0f0f0f 0x0f0f0f0f 0x00000f0f;
    make 0x0f0f0f0f 0x0f0f0f0f 0x0f0f0f0f 0x000f0f0f;
    make 0x0f0f0f0f 0x0f0f0f0f 0x0f0f0f0f 0x0f0f0f0f
  ].

(** The static arrays [m_xff[17]] and [m_x0f[17]]. *)
Record tables : Type := mkTables {
  m_xff : nat -> t;
  m_x0f : nat -> t
}.

(** [GSVector4i::InitVectors] *)
Definition InitVectors (s : tables) : tables :=
  mkTables (copy_table zero xff (m_xff s)) (copy_table zero x0f (m_x0f s)).

End GSVector4i.

Module GSVector8i.

(** Modelled from the spec: the class [GSVector8i] (GSVector.h is not among
    the sources) - a 32-byte vector; the constructor takes the eight lanes
    lowest first. *)
Record t : Type := mk { U32 : list Z }.

Definition make (x0 y0 z0 w0 x1 y1 z1 w1 : Z) : t :=
  mk [u32 x0; u32 y0; u32 z0; u32 w0; u32 x1; u32 y1; u32 z1; u32 w1].

Definition zero : t := make 0 0 0 0 0 0 0 0.

Definition U8 (v : t) (k : nat) : Z := byte_of_lanes (U32 v) k.

(** The local arrays of [GSVector8i::InitVectors]. *)
Definition xff : list t :=
  [
    make 0x00000000 0x00000000 0x00000000 0x00000000
         0x00000000 0x00000000 0x00000000 0x00000000;
    make 0x000000ff 0x00000000 0x00000000 0x00000000
         0x00000000 0x00000000 0x00000000 0x00000000;
    make 0x0000ffff 0x00000000 0x00000000 0x00000000
         0x00000000 0x00000000 0x00000000 0x00000000;
    make 0x00ffffff 0x00000000 0x00000000 0x00000000
         0x00000000 0x00000000 0x00000000 0x00000000;
    make 0xffffffff 0x00000000 0x00000000 0x00000000
         0x00000000 0x00000000 0x00000000 0x00000000;
    make 0xffffffff 0x000000ff 0x00000000 0x00000000
         0x00000000 0x00000000 0x00000000 0x00000000;
    make 0xffffffff 0x0000ffff 0x00000000 0x00000000
         0x00000000 0x00000000 0x00000000 0x00000000;
    make 0xffffffff 0x00ffffff 0x00000000 0x00000000
         0x00000000 0x00000000 0x00000000 0x00000000;
    make 0xffffffff 0xffffffff 0x00000000 0x00000000
         0x00000000 0x00000000 0x00000000 0x00000000;
    make 0xffffffff 0xffffffff 0x000000ff 0x00000000
         0x00000000 0x00000000 0x00000000 0x00000000;
    make 0xffffffff 0xffffffff 0x0000ffff 0x00000000
         0x00000000 0x00000000 0x00000000 0x00000000;
    make 0xffffffff 0xffffffff 0x00ffffff 0x00000000
         0x00000000 0x00000000 0x00000000 0x00000000;
    make 0xffffffff 0xffffffff 0xffffffff 0x00000000
         0x00000000 0x00000000 0x00000000 0x00000000;
    make 0xffffffff 0xffffffff 0xffffffff 0x000000ff
         0x00000000 0x00000000 0x00000000 0x00000000;
    make 0xffffffff 0xffffffff 0xffffffff 0x0000ffff
         0x00000000 0x00000000 0x00000000 0x00000000;
    make 0xffffffff 0xffffffff 0xffffffff 0x00ffffff
         0x00000000 0x00000000 0x00000000 0x00000000;
    make 0xffffffff 0xffffffff 0xffffffff 0xffffffff
         0x00000000 0x00000000 0x00000000 0x00000000;
    make 0xffffffff 0xffffffff 0xffffffff 0xffffffff
         0x000000ff 0x00000000 0x00000000 0x00000000;
    make 0xffffffff 0xffffffff 0xffffffff 0xffffffff
         0x0000ffff 0x00000000 0x00000000 0x00000000;
    make 0xffffffff 0xffffffff 0xffffffff 0xffffffff
         0x00ffffff 0x00000000 0x00000000 0x00000000;
    make 0xffffffff 0xffffffff 0xffffffff 0xffffffff
         0xffffffff 0x00000000 0x00000000 0x00000000;
    make 0xffffffff 0xffffffff 0xffffffff 0xffffffff
         0xffffffff 0x000000ff 0x00000000 0x00000000;
    make 0xffffffff 0xffffffff 0xffffffff 0xffffffff
         0xffffffff 0x0000ffff 0x00000000 0x00000000;
    make 0xffffffff 0xffffffff 0xffffffff 0xffffffff
         0xffffffff 0x00ffffff 0x00000000 0x00000000;
    make 0xffffffff 0xffffffff 0xffffffff 0xffffffff
         0xffffffff 0xffffffff 0x00000000 0x00000000;
    make 0xffffffff 0xffffffff 0xffffffff 0xffffffff
         0xffffffff 0xffffffff 0x000000ff 0x00000000;
    make 0xffffffff 0xffffffff 0xffffffff 0xffffffff
         0xffffffff 0xffffffff 0x0000ffff 0x00000000;
    make 0xffffffff 0xffffffff 0xffffffff 0xffffffff
         0xffffffff 0xffffffff 0x00ffffff 0x00000000;
    make 0xffffffff 0xffffffff 0xffffffff 0xffffffff
         0xffffffff 0xffffffff 0xffffffff 0x00000000;
    make 0xffffffff 0xffffffff 0xffffffff 0xffffffff
         0xffffffff 0xffffffff 0xffffffff 0x000000ff;
    make 0xffffffff 0xffffffff 0xffffffff 0xffffffff
         0xffffffff 0xffffffff 0xffffffff 0x0000ffff;
    make 0xffffffff 0xffffffff 0xffffffff 0xffffffff
         0xffffffff 0xffffffff 0xffffffff 0x00ffffff;
    make 0xffffffff 0xffffffff 0xffffffff 0xffffffff
         0xffffffff 0xffffffff 0xffffffff 0xffffffff
  ].

Definition x0f : list t :=
  [
    make 0x00000000 0x00000000 0x00000000 0x00000000
         0x00000000 0x00000000 0x00000000 0x00000000;
    make 0x0000000f 0x00000000 0x00000000 0x00000000
         0x00000000 0x00000000 0x00000000 0x00000000;
    make 0x00000f0f 0x00000000 0x00000000 0x00000000
         0x00000000 0x00000000 0x00000000 0x00000000;
    make 0x000f0f0f 0x00000000 0x00000000 0x00000000
         0x00000000 0x00000000 0x00000000 0x00000000;
    make 0x0f0f0f0f 0x00000000 0x00000000 0x00000000
         0x00000000 0x00000000 0x00000000 0x00000000;
    make 0x0f0f0f0f 0x0000000f 0x00000000 0x00000000
         0x00000000 0x00000000 0x00000000 0x00000000;
    make 0x0f0f0f0f 0x00000f0f 0x00000000 0x00000000
         0x00000000 0x00000000 0x00000000 0x00000000;
    make 0x0f0f0f0f 0x000f0f0f 0x00000000 0x00000000
         0x00000000 0x00000000 0x00000000 0x00000000;
    make 0x0f0f0f0f 0x0f0f0f0f 0x00000000 0x00000000
         0x00000000 0x00000000 0x00000000 0x00000000;
    make 0x0f0f0f0f 0x0f0f0f0f 0x0000000f 0x00000000
         0x00000000 0x00000000 0x00000000 0x00000000;
    make 0x0f0f0f0f 0x0f0f0f0f 0x00000f0f 0x00000000
         0x00000000 0x00000000 0x00000000 0x00000000;
    make 0x0f0f0f0f 0x0f0f0f0f 0x000f0f0f 0x00000000
         0x00000000 0x00000000 0x00000000 0x00000000;
    make 0x0f0f0f0f 0x0f0f0f0f 0x0f0f0f0f 0x00000000
         0x00000000 0x00000000 0x00000000 0x00000000;
    make 0x0f0f0f0f 0x0f0f0f0f 0x0f0f0f0f 0x0000000f
         0x00000000 0x00000000 0x00000000 0x00000000;
    make 0x0f0f0f0f 0x0f0f0f0f 0x0f0f0f0f 0x00000f0f
         0x00000000 0x00000000 0x00000000 0x00000000;
    make 0x0f0f0f0f 0x0f0f0f0f 0x0f0f0f0f 0x000f0f0f
         0x00000000 0x00000000 0x00000000 0x00000000;
    make 0x0f0f0f0f 0x0f0f0f0f 0x0f0f0f0f 0x0f0f0f0f
         0x00000000 0x00000000 0x00000000 0x00000000;
    make 0x0f0f0f0f 0x0f0f0f0f 0x0f0f0f0f 0x0f0f0f0f
         0x0000000f 0x00000000 0x00000000 0x00000000;
    make 0x0f0f0f0f 0x0f0f0f0f 0x0f0f0f0f 0x0f0f0f0f
         0x00000f0f 0x00000000 0x00000000 0x00000000;
    make 0x0f0f0f0f 0x0f0f0f0f 0x0f0f0f0f 0x0f0f0f0f
         0x000f0f0f 0x00000000 0x00000000 0x00000000;
    make 0x0f0f0f0f 0x0f0f0f0f 0x0f0f0f0f 0x0f0f0f0f
         0x0f0f0f0f 0x00000000 0x00000000 0x00000000;
    make 0x0f0f0f0f 0x0f0f0f0f 0x0f0f0f0f 0x0f0f0f0f
         0x0f0f0f0f 0x0000000f 0x00000000 0x00000000;
    make 0x0f0f0f0f 0x0f0f0f0f 0x0f0f0f0f 0x0f0f0f0f
         0x0f0f0f0f 0x00000f0f 0x00000000 0x00000000;
    make 0x0f0f0f0f 0x0f0f0f0f 0x0f0f0f0f 0x0f0f0f0f
         0x0f0f0f0f 0x000f0f0f 0x00000000 0x00000000;
    make 0x0f0f0f0f 0x0f0f0f0f 0x0f0f0f0f 0x0f0f0f0f
         0x0f0f0f0f 0x0f0f0f0f 0x00000000 0x00000000;
    make 0x0f0f0f0f 0x0f0f0f0f 0x0f0f0f0f 0x0f0f0f0f
         0x0f0f0f0f 0x0f0f0f0f 0x0000000f 0x00000000;
    make 0x0f0f0f0f 0x0f0f0f0f 0x0f0f0f0f 0x0f0f0f0f
         0x0f0f0f0f 0x0f0f0f0f 0x00000f0f 0x00000000;
    make 0x0f0f0f0f 0x0f0f0f0f 0x0f0f0f0f 0x0f0f0f0f
         0x0f0f0f0f 0x0f0f0f0f 0x000f0f0f 0x00000000;
    make 0x0f0f0f0f 0x0f0f0f0f 0x0f0f0f0f 0x0f0f0f0f
         0x0f0f0f0f 0x0f0f0f0f 0x0f0f0f0f 0x00000000;
    make 0x0f0f0f0f 0x0f0f0f0f 0x0f0f0f0f 0x0f0f0f0f
         0x0f0f0f0f 0x0f0f0f0f 0x0f0f0f0f 0x0000000f;
    make 0x0f0f0f0f 0x0f0f0f0f 0x0f0f0f0f 0x0f0f0f0f
         0x0f0f0f0f 0x0f0f0f0f 0x0f0f0f0f 0x00000f0f;
    make 0x0f0f0f0f 0x0f0f0f0f 0x0f0f0f0f 0x0f0f0f0f
         0x0f0f0f0f 0x0f0f0f0f 0x0f0f0f0f 0x000f0f0f;
    make 0x0f0f0f0f 0x0f0f0f0f 0x0f0f0f0f 0x0f0f0f0f
         0x0f0f0f0f 0x0f0f0f0f 0x0f0f0f0f 0x0f0f0f0f
  ].

(** The static arrays [m_xff[33]] and [m_x0f[33]]. *)
Record tables : Type := mkTables {
  m_xff : nat -> t;
  m_x0f : nat -> t
}.

(** [GSVector8i::InitVectors] *)
Definition InitVectors (s : tables) : tables :=
  mkTables (copy_table zero xff (m_xff s)) (copy_table zero x0f (m_x0f s)).

End GSVector8i.

(** The copy loop fills every cell the source has and no other. *)
Lemma copy_table_from {A : Type} (zero : A) (src : list A) :
  forall (len start : nat) (dst : nat -> A) (n : nat),
    fold_left (fun a n => store a n (nth n src zero)) (seq start len) dst n =
    if ((start <=? n) && (n <? start + len))%nat
    then nth n src zero
    else dst n.
Proof.
  induction len as [|len IH]; intros start dst n; cbn [seq fold_left].
  - destruct (Nat.leb_spec start n), (Nat.ltb_spec n (start + 0));
      cbn; try reflexivity; lia.
  - rewrite IH. unfold store.
    destruct (Nat.leb_spec (S start) n), (Nat.ltb_spec n (S start + len)),
      (Nat.leb_spec start n), (Nat.ltb_spec n (start + S len)),
      (Nat.eqb_spec n start); cbn; subst; try reflexivity; lia.
Qed.

Lemma copy_table_spec {A : Type} (zero : A) (src : list A) (dst : nat -> A)
  (n : nat) :
  (n < List.length src)%nat -> copy_table zero src dst n = nth n src zero.
Proof.
  intros H. unfold copy_table. rewrite copy_table_from.
  destruct (Nat.ltb_spec n (0 + List.length src)); [reflexivity|lia].
Qed.

(** Entry [n] of a table of [W]-byte vectors has [pat] in its low [n] bytes
    and 0 in the others, for every [n] up to [W]; checked by enumeration. *)
Definition mask_shape {A : Type} (U8 : A -> nat -> Z) (zero : A) (W : nat)
  (pat : Z) (tbl : list A) : bool :=
  forallb (fun n =>
    forallb (fun k => U8 (nth n tbl zero) k =? (if (k <? n)%nat then pat else 0))
            (seq 0 W))
    (seq 0 (S W)).

Lemma mask_shape_spec {A : Type} (U8 : A -> nat -> Z) (zero : A) (W : nat)
  (pat : Z) (tbl : list A) :
  mask_shape U8 zero W pat tbl = true ->
  forall n k : nat, (n <= W)%nat -> (k < W)%nat ->
    U8 (nth n tbl zero) k = (if (k <? n)%nat then pat else 0).
Proof.
  intros H n k Hn Hk. unfold mask_shape in H.
  rewrite forallb_forall in H.
  specialize (H n). rewrite in_seq, forallb_forall in H.
  specialize (H ltac:(lia) k). rewrite in_seq in H.
  apply Z.eqb_eq, H. lia.
Qed.

(** C5. After [InitVectors], whatever the static arrays held before: for
    every [n] from 0 to 16, byte [k] (of 16) of [GSVector4i::m_xff[n]] is
    0xff when [k < n] and 0 otherwise, and that of [m_x0f[n]] is 0x0f when
    [k < n] and 0 otherwise; [m_xff[16]] has all lanes 0xffffffff and
    [m_xff[0]] all lanes 0. The same for [GSVector8i] with 32 bytes and [n]
    from 0 to 32. *)
Theorem InitVectors_lane_masks :
  (forall (s : GSVector4i.tables) (n k : nat),
      (n <= 16)%nat -> (k < 16)%nat ->
      GSVector4i.U8 (GSVector4i.m_xff (GSVector4i.InitVectors s) n) k
        = (if (k <? n)%nat then 0xff else 0) /\
      GSVector4i.U8 (GSVector4i.m_x0f (GSVector4i.InitVectors s) n) k
        = (if (k <? n)%nat then 0x0f else 0)) /\
  (forall s : GSVector4i.tables,
      GSVector4i.U32 (GSVector4i.m_xff (GSVector4i.InitVectors s) 16)
        = repeat 0xffffffff 4 /\
      GSVector4i.U32 (GSVector4i.m_xff (GSVector4i.InitVectors s) 0)
        = repeat 0 4) /\
  (forall (s : GSVector8i.tables) (n k : nat),
      (n <= 32)%nat -> (k < 32)%nat ->
      GSVector8i.U8 (GSVector8i.m_xff (GSVector8i.InitVectors s) n) k
        = (if (k <? n)%nat then 0xff else 0) /\
      GSVector8i.U8 (GSVector8i.m_x0f (GSVector8i.InitVectors s) n) k
        = (if (k <? n)%nat then 0x0f else 0)) /\
  (forall s : GSVector8i.tables,
      GSVector8i.U32 (GSVector8i.m_xff (GSVector8i.InitVectors s) 32)
        = repeat 0xffffffff 8 /\
      GSVector8i.U32 (GSVector8i.m_xff (GSVector8i.InitVectors s) 0)
        = repeat 0 8).
Proof.
  split; [|split; [|split]].
  - intros s n k Hn Hk.
    cbn [GSVector4i.InitVectors GSVector4i.m_xff GSVector4i.m_x0f].
    rewrite !copy_table_spec by (cbn; lia).
    split; apply (mask_shape_spec GSVector4i.U8 GSVector4i.zero 16);
      trivial; vm_compute; reflexivity.
  - intros s. cbn [GSVector4i.InitVectors GSVector4i.m_xff].
    rewrite !copy_table_spec by (cbn; lia). split; reflexivity.
  - intros s n k Hn Hk.
    cbn [GSVector8i.InitVectors GSVector8i.m_xff GSVector8i.m_x0f].
    rewrite !copy_table_spec by (cbn; lia).
    split; apply (mask_shape_spec GSVector8i.U8 GSVector8i.zero 32);
      trivial; vm_compute; reflexivity.
  - intros s. cbn [GSVector8i.InitVectors GSVector8i.m_xff].
    rewrite !copy_table_spec by (cbn; lia). split; reflexivity.
Qed.

(** ** GS.cpp: the FIFO ring, POSIX build *)

(** [size_t] and pointers are 64 bits wide. *)
Definition size_t (x : Z) : Z := x mod 2 ^ 64.

Module FifoPosix.

(** [MAP_FAILED] is [(void* )-1]. *)
Definition MAP_FAILED : Z := 2 ^ 64 - 1.

(** One mapping: [v_len] bytes at [v_base] showing the object behind
    descriptor [v_fd] from offset [v_off]. *)
Record View : Type := mkView {
  v_base : Z;
  v_len : Z;
  v_fd : Z;
  v_off : Z
}.

(** The process as [fifo_alloc] sees it. The kernel's side is given in
    advance: what [shm_open] will return, and for each coming [mmap] call
    whether it fails ([None]) or succeeds, with the address the kernel picks
    when the caller leaves the choice to it. [views] lists the mappings made,
    the newest first: a [MAP_FIXED] mapping put over an older one hides it.
    [shm_bytes fd off] is the byte of the shared object at [off]. *)
Record OS : Type := mkOS {
  shm_open_answer : Z;
  mmap_answers : list (option Z);
  s_shm_fd : Z;
  shm_length : Z;
  views : list View;
  shm_bytes : Z -> Z -> Z
}.

Definition in_view (a : Z) (v : View) : bool :=
  (v_base v <=? a) && (a <? v_base v + v_len v).

(** Where the address [a] leads: descriptor and offset, if it is mapped. *)
Definition resolve (os : OS) (a : Z) : option (Z * Z) :=
  match find (in_view a) (views os) with
  | Some v => Some (v_fd v, v_off v + (a - v_base v))
  | None => None
  end.

Definition load (os : OS) (a : Z) : option Z :=
  match resolve os a with
  | Some (fd, off) => Some (shm_bytes os fd off)
  | None => None
  end.

Definition store_byte (os : OS) (a b : Z) : option OS :=
  match resolve os a with
  | Some (fd, off) =>
      Some (mkOS (shm_open_answer os) (mmap_answers os) (s_shm_fd os)
              (shm_length os) (views os)
              (fun fd' off' =>
                 if (fd' =? fd) && (off' =? off) then b
                 else shm_bytes os fd' off'))
  | None => None
  end.

(** [mmap(addr, len, PROT_READ | PROT_WRITE, MAP_SHARED [| MAP_FIXED], fd,
    off)]: on success the mapping address ([addr] itself under [MAP_FIXED]),
    on failure [MAP_FAILED] and no change. *)
Definition mmap (addr len : Z) (fixed : bool) (fd off : Z) (os : OS)
  : Z * OS :=
  match mmap_answers os with
  | Some chosen :: rest =>
      let at_ := if fixed then addr else chosen in
      (at_, mkOS (shm_open_answer os) rest (s_shm_fd os) (shm_length os)
              (mkView at_ len fd off :: views os) (shm_bytes os))
  | None :: rest =>
      (MAP_FAILED, mkOS (shm_open_answer os) rest (s_shm_fd os)
                     (shm_length os) (views os) (shm_bytes os))
  | [] => (MAP_FAILED, os)
  end.

(** [s_shm_fd = shm_open(file_name, O_RDWR | O_CREAT | O_EXCL, 0600)] *)
Definition shm_open (os : OS) : OS :=
  mkOS (shm_open_answer os) (mmap_answers os) (shm_open_answer os)
    (shm_length os) (views os) (shm_bytes os).

Definition ftruncate (len : Z) (os : OS) : OS :=
  mkOS (shm_open_answer os) (mmap_answers os) (s_shm_fd os) len (views os)
    (shm_bytes os).

(** The values [i] takes in [for (size_t i = 1; i < repeat; i++)]. *)
Definition loop_indices (repeat : Z) : list Z :=
  map Z.of_nat (seq 1 (Z.to_nat repeat - 1)).

(** The body of that loop: the result of [mmap] goes to the unused local
    [next]. *)
Definition map_segment (fifo size : Z) (os : OS) (i : Z) : OS :=
  let base := size_t (fifo + size_t (size * i)) in
  snd (mmap base size true (s_shm_fd os) 0 os).

(** [fifo_alloc], POSIX build; the null pointer is 0. *)
Definition fifo_alloc (size repeat : Z) (os : OS) : Z * OS :=
  let os := shm_open os in
  if s_shm_fd os =? -1 then (0, os)
  else
    let os := ftruncate (size_t (repeat * size)) os in
    let '(fifo, os) :=
      mmap 0 (size_t (size * repeat)) false (s_shm_fd os) 0 os in
    let os := fold_left (map_segment fifo size) (loop_indices repeat) os in
    (fifo, os).

End FifoPosix.

(** ** GS.cpp: the FIFO ring, Windows build *)

Module FifoWin32.

(** A mapped view of the file-mapping object [w_handle], [w_len] bytes at
    [w_base], from offset 0. *)
Record View : Type := mkView {
  w_base : Z;
  w_len : Z;
  w_handle : Z
}.

(** A region reserved and committed with [VirtualAlloc]. *)
Record Region : Type := mkRegion {
  a_base : Z;
  a_size : Z;
  a_code : bool
}.

(** The process as [fifo_alloc] sees it. The system's side is given in
    advance: the handle [CreateFileMapping] will return (0 is [NULL]), and
    for each coming [MapViewOfFile] / [MapViewOfFileEx] call, and likewise
    for each coming [VirtualAlloc] call, whether it fails ([None]) or
    succeeds, with the address the system picks when the caller names
    none. [s_fh] and [s_Next] are the file's statics. *)
Record OS : Type := mkOS {
  CreateFileMapping_answer : Z;
  map_answers : list (option Z);
  s_fh : Z;
  s_Next : nat -> Z;
  views : list View;
  open_handles : list Z;
  VirtualAlloc_answers : list (option Z);
  reserved : list Region
}.

Definition ARRAY_SIZE_s_Next : Z := 8.

Definition set_s_fh (h : Z) (os : OS) : OS :=
  mkOS (CreateFileMapping_answer os) (map_answers os) h (s_Next os)
    (views os) (open_handles os) (VirtualAlloc_answers os) (reserved os).

Definition set_s_Next (i : nat) (p : Z) (os : OS) : OS :=
  mkOS (CreateFileMapping_answer os) (map_answers os) (s_fh os)
    (store (s_Next os) i p) (views os) (open_handles os)
    (VirtualAlloc_answers os) (reserved os).

(** [CreateFileMapping(INVALID_HANDLE_VALUE, nullptr, PAGE_READWRITE, 0,
    size, nullptr)] *)
Definition CreateFileMapping (os : OS) : Z * OS :=
  let h := CreateFileMapping_answer os in
  (h, mkOS h (map_answers os) (s_fh os) (s_Next os) (views os)
        (if h =? 0 then open_handles os else h :: open_handles os)
        (VirtualAlloc_answers os) (reserved os)).

(** [MapViewOfFileEx(h, FILE_MAP_ALL_ACCESS, 0, 0, size, base)]: the view
    is placed at [base] or the call fails with [NULL]; [MapViewOfFile] is
    the same with the address left to the system ([base = None]). *)
Definition MapViewOfFileEx (h size : Z) (base : option Z) (os : OS)
  : Z * OS :=
  match map_answers os with
  | Some chosen :: rest =>
      let at_ := match base with Some b => b | None => chosen end in
      (at_, mkOS (CreateFileMapping_answer os) rest (s_fh os) (s_Next os)
              (mkView at_ size h :: views os) (open_handles os)
              (VirtualAlloc_answers os) (reserved os))
  | None :: rest =>
      (0, mkOS (CreateFileMapping_answer os) rest (s_fh os) (s_Next os)
            (views os) (open_handles os)
            (VirtualAlloc_answers os) (reserved os))
  | [] => (0, os)
  end.

Definition MapViewOfFile (h size : Z) (os : OS) : Z * OS :=
  MapViewOfFileEx h size None os.

(** [UnmapViewOfFile(p)]: removes the view that starts at [p]; fails, with
    no effect, when there is none. *)
Definition UnmapViewOfFile (p : Z) (os : OS) : OS :=
  mkOS (CreateFileMapping_answer os) (map_answers os) (s_fh os) (s_Next os)
    (filter (fun v => negb (w_base v =? p)) (views os)) (open_handles os)
    (VirtualAlloc_answers os) (reserved os).

Definition CloseHandle (h : Z) (os : OS) : OS :=
  mkOS (CreateFileMapping_answer os) (map_answers os) (s_fh os) (s_Next os)
    (views os) (filter (fun h' => negb (h' =? h)) (open_handles os))
    (VirtualAlloc_answers os) (reserved os).

(** [VirtualAlloc(NULL, size, MEM_COMMIT | MEM_RESERVE, protect)]: the base
    of the new region, or [NULL]; a size of 0 is refused. *)
Definition VirtualAlloc (size : Z) (code : bool) (os : OS) : Z * OS :=
  if size =? 0 then (0, os)
  else
    match VirtualAlloc_answers os with
    | Some a :: rest =>
        (a, mkOS (CreateFileMapping_answer os) (map_answers os) (s_fh os)
              (s_Next os) (views os) (open_handles os) rest
              (mkRegion a size code :: reserved os))
    | None :: rest =>
        (0, mkOS (CreateFileMapping_answer os) (map_answers os) (s_fh os)
              (s_Next os) (views os) (open_handles os) rest (reserved os))
    | [] => (0, os)
    end.

(** [VirtualFree(ptr, 0, MEM_RELEASE)]: releases the region [VirtualAlloc]
    reserved at [ptr]; fails, with no effect, when [ptr] is not the base
    of one. *)
Definition VirtualFree (ptr : Z) (os : OS) : OS :=
  mkOS (CreateFileMapping_answer os) (map_answers os) (s_fh os) (s_Next os)
    (views os) (open_handles os) (VirtualAlloc_answers os)
    (filter (fun r => negb (a_base r =? ptr)) (reserved os)).

(** [vmalloc], Windows build: [code] selects [PAGE_EXECUTE_READWRITE]. *)
Definition vmalloc (size : Z) (code : bool) (os : OS) : Z * OS :=
  VirtualAlloc size code os.

(** [vmfree], Windows build; [size] is not used. *)
Definition vmfree (ptr size : Z) (os : OS) : OS :=
  VirtualFree ptr os.

(** [fifo_free] *)
Definition fifo_free (ptr size repeat : Z) (os : OS) : OS :=
  if s_fh os =? 0
  then (if negb (ptr =? 0) then vmfree ptr size os else os)
  else
    let os := UnmapViewOfFile ptr os in
    let os :=
      fold_left (fun os i =>
                   if negb (s_Next os i =? 0)
                   then set_s_Next i 0 (UnmapViewOfFile (s_Next os i) os)
                   else os)
                (seq 1 (Z.to_nat ARRAY_SIZE_s_Next - 1)) os in
    set_s_fh 0 (CloseHandle (s_fh os) os).

(** [do { UnmapViewOfFile(s_Next[i]); s_Next[i] = 0; } while (--i > 0);] *)
Definition unmap_down_from (i : nat) (os : OS) : OS :=
  fold_left (fun os j => set_s_Next j 0 (UnmapViewOfFile (s_Next os j) os))
            (rev (seq 1 i)) os.

(** One pass of the [for] loop from [i] up: maps segment after segment
    until one is not where it was asked for; the result is the index of
    that segment, if any. *)
Fixpoint map_segments (fifo size : Z) (indices : list nat) (os : OS)
  : option nat * OS :=
  match indices with
  | [] => (None, os)
  | i :: rest =>
      let base := size_t (fifo + size_t (size * Z.of_nat i)) in
      let '(p, os) := MapViewOfFileEx (s_fh os) size (Some base) os in
      let os := set_s_Next i p os in
      if negb (s_Next os i =? base) then (Some i, os)
      else map_segments fifo size rest os
  end.

(** The [for] loop of [fifo_alloc]. After a failed segment the [do]/[while]
    leaves [i] at 0 and the loop's [i++] restarts it at 1, so the loop is a
    sequence of passes; [retries_left] is [4 - mmap_segment_failed], the
    test [mmap_segment_failed > 4] after the increment being
    [retries_left = 0]. *)
Fixpoint map_ring (retries_left : nat) (fifo size repeat : Z) (os : OS)
  : Z * OS :=
  match map_segments fifo size (seq 1 (Z.to_nat repeat - 1)) os with
  | (None, os) => (fifo, os)
  | (Some i, os) =>
      match retries_left with
      | O => (0, fifo_free fifo size repeat os)
      | S retries_left =>
          let os := unmap_down_from i os in
          let '(fifo, os) := MapViewOfFile (s_fh os) size os in
          map_ring retries_left fifo size repeat os
      end
  end.

(** [fifo_alloc], Windows build; the null pointer is 0. *)
Definition fifo_alloc (size repeat : Z) (os : OS) : Z * OS :=
  if repeat >=? ARRAY_SIZE_s_Next then (0, os)
  else
    let '(h, os) := CreateFileMapping os in
    let os := set_s_fh h os in
    if s_fh os =? 0 then (0, os)
    else
      let '(fifo, os) := MapViewOfFile (s_fh os) size os in
      map_ring 4 fifo size repeat os.

End FifoWin32.

(** ** The FIFO ring: what [fifo_alloc] establishes *)

Module FifoPosixFacts.
Import FifoPosix.

(** Two addresses that lead to the same byte of the same object alias: a
    byte stored through one is the byte loaded through the other. *)
Lemma store_load_alias (os os' : OS) (p q b fd off : Z) :
  resolve os p = Some (fd, off) ->
  resolve os q = Some (fd, off) ->
  store_byte os p b = Some os' ->
  load os' q = Some b.
Proof.
  unfold store_byte, load. intros Hp Hq. rewrite Hp.
  intros [= <-]. unfold resolve in *. cbn [views shm_bytes].
  destruct (find (in_view q) (views os)) as [v|]; [|discriminate].
  injection Hq as -> ->. now rewrite !Z.eqb_refl.
Qed.

Lemma find_app {A : Type} (f : A -> bool) (l1 l2 : list A) :
  find f (l1 ++ l2) =
  match find f l1 with
  | Some x => Some x
  | None => find f l2
  end.
Proof.
  induction l1 as [|x l1 IH]; cbn; [reflexivity|].
  now destruct (f x).
Qed.

(** The view the loop asks for at index [i]. *)
Definition segment_view (fifo size fd : Z) (i : Z) : View :=
  mkView (fifo + size * i) size fd 0.

Lemma loop_indices_bounds (repeat i : Z) :
  In i (loop_indices repeat) <-> 1 <= i < repeat.
Proof.
  unfold loop_indices. rewrite in_map_iff. split.
  - intros (n & <- & Hn). apply in_seq in Hn. lia.
  - intros H. exists (Z.to_nat i). split; [lia|]. apply in_seq. lia.
Qed.

(** When every [mmap] of the loop succeeds, the loop puts one view per
    index over what was mapped before. *)
Lemma map_segments_all_succeed (fifo size : Z) :
  forall (idx : list Z) (os : OS) (chosen : list Z) (rest : list (option Z)),
    0 <= fifo -> 0 < size ->
    (forall i, In i idx -> 0 <= i /\ fifo + size * i + size <= 2 ^ 64) ->
    mmap_answers os = map Some chosen ++ rest ->
    List.length chosen = List.length idx ->
    let os' := fold_left (map_segment fifo size) idx os in
    views os' =
      rev (map (segment_view fifo size (s_shm_fd os)) idx) ++ views os /\
    s_shm_fd os' = s_shm_fd os /\
    mmap_answers os' = rest.
Proof.
  induction idx as [|i idx IH]; intros os chosen rest Hf Hs Hidx Hans Hlen.
  - destruct chosen; [|discriminate]. cbn. auto.
  - destruct chosen as [|c chosen]; [discriminate|].
    cbn [fold_left].
    assert (Hi : 0 <= i /\ fifo + size * i + size <= 2 ^ 64)
      by (apply Hidx; now left).
    assert (Hstep : map_segment fifo size os i =
                    mkOS (shm_open_answer os) (map Some chosen ++ rest)
                      (s_shm_fd os) (shm_length os)
                      (segment_view fifo size (s_shm_fd os) i :: views os)
                      (shm_bytes os)).
    { unfold map_segment, mmap, segment_view, size_t. rewrite Hans.
      cbn [map app snd].
      rewrite (Z.mod_small (size * i)) by nia.
      rewrite Z.mod_small by nia. reflexivity. }
    rewrite Hstep.
    specialize (IH (mkOS (shm_open_answer os) (map Some chosen ++ rest)
                      (s_shm_fd os) (shm_length os)
                      (segment_view fifo size (s_shm_fd os) i :: views os)
                      (shm_bytes os)) chosen rest Hf Hs).
    cbv zeta in IH. cbn [views s_shm_fd mmap_answers] in IH.
    destruct IH as (Hv & Hfd & Ha); auto.
    { intros j Hj. apply Hidx. now right. }
    cbv zeta. rewrite Hv, Hfd, Ha. cbn [map rev].
    rewrite <- app_assoc. auto.
Qed.

(** In a ring of segment views over a base view, byte [j] of segment [k]
    leads to offset [j] of the object. *)
Lemma resolve_ring (fifo size repeat fd : Z) (older : list View)
  (k j : Z) :
  0 < size -> 0 <= k < repeat -> 0 <= j < size ->
  find (in_view (fifo + size * k + j))
       (rev (map (segment_view fifo size fd) (loop_indices repeat))
          ++ mkView fifo (size * repeat) fd 0 :: older)
  = Some (if k =? 0
          then mkView fifo (size * repeat) fd 0
          else segment_view fifo size fd k).
Proof.
  intros Hs Hk Hj.
  set (a := fifo + size * k + j).
  assert (Hseg : forall i, in_view a (segment_view fifo size fd i) = true
                           <-> i = k).
  { intros i. unfold in_view, segment_view; cbn [v_base v_len].
    rewrite andb_true_iff, Z.leb_le, Z.ltb_lt. subst a. split.
    - intros [H1 H2].
      destruct (Z.lt_trichotomy i k) as [?|[?|?]]; [nia|assumption|nia].
    - intros ->. lia. }
  rewrite find_app.
  destruct (find (in_view a) (rev (map (segment_view fifo size fd)
                                       (loop_indices repeat)))) as [v|] eqn:E.
  - apply find_some in E. destruct E as [Hin Hv].
    apply in_rev, in_map_iff in Hin. destruct Hin as (i & <- & Hi).
    apply Hseg in Hv. subst i. apply loop_indices_bounds in Hi.
    destruct (Z.eqb_spec k 0); [lia|reflexivity].
  - destruct (Z.eqb_spec k 0) as [->|Hk0].
    + cbn [find]. unfold in_view at 1; cbn [v_base v_len].
      destruct (Z.leb_spec fifo a), (Z.ltb_spec a (fifo + size * repeat));
        cbn; try reflexivity; subst a; nia.
    + exfalso.
      pose proof (find_none _ _ E (segment_view fifo size fd k)) as Hnone.
      rewrite (proj2 (Hseg k) eq_refl) in Hnone.
      assert (Hin : In (segment_view fifo size fd k)
                       (rev (map (segment_view fifo size fd)
                                 (loop_indices repeat)))).
      { apply in_rev. rewrite rev_involutive. apply in_map.
        apply loop_indices_bounds. lia. }
      specialize (Hnone Hin). discriminate.
Qed.

(** The success path of [fifo_alloc]: when [shm_open] and every [mmap]
    succeed, the result is the address of the first mapping and byte [j] of
    each of the [repeat] consecutive segments leads to byte [j] of the one
    shared object, so the segments alias each other. *)
Lemma fifo_alloc_all_succeed (size repeat fifo : Z) (os : OS)
  (chosen : list Z) (rest : list (option Z)) :
  0 < size -> 1 <= repeat -> 0 <= fifo ->
  fifo + size * repeat < 2 ^ 64 ->
  shm_open_answer os <> -1 ->
  mmap_answers os = Some fifo :: map Some chosen ++ rest ->
  List.length chosen = Z.to_nat (repeat - 1) ->
  exists os',
    fifo_alloc size repeat os = (fifo, os') /\
    forall k j, 0 <= k < repeat -> 0 <= j < size ->
      resolve os' (fifo + size * k + j) = Some (shm_open_answer os, j).
Proof.
  intros Hs Hr Hf Hfit Hfd Hans Hlen.
  unfold fifo_alloc. cbn [shm_open s_shm_fd].
  destruct (Z.eqb_spec (shm_open_answer os) (-1)) as [?|_]; [contradiction|].
  unfold mmap at 1, ftruncate, shm_open.
  cbn [mmap_answers s_shm_fd shm_open_answer shm_length views shm_bytes].
  rewrite Hans.
  eexists. split; [reflexivity|].
  intros k j Hk Hj.
  match goal with
  | |- context [fold_left _ _ ?o] =>
      pose proof (map_segments_all_succeed fifo size (loop_indices repeat) o
                    chosen rest Hf Hs) as H
  end.
  cbv zeta in H. cbn [views s_shm_fd mmap_answers] in H.
  destruct H as (Hv & _ & _).
  { intros i Hi. apply loop_indices_bounds in Hi. nia. }
  { reflexivity. }
  { unfold loop_indices. rewrite length_map, length_seq. lia. }
  unfold resolve. rewrite Hv.
  unfold size_t. rewrite (Z.mod_small (size * repeat)) by nia.
  rewrite (resolve_ring fifo size repeat (shm_open_answer os) (views os) k j)
    by assumption.
  destruct (Z.eqb_spec k 0) as [->|_]; unfold segment_view;
    cbn [v_fd v_off v_base]; f_equal; f_equal; lia.
Qed.

(** A process in which [shm_open] gives descriptor 3, the first [mmap] is
    placed at 0x10000 and the second [mmap] fails. *)
Definition second_mapping_fails : OS :=
  mkOS 3 [Some 0x10000; None] (-1) 0 [] (fun _ _ => 0).

(** C9 fails on the POSIX build. [fifo_alloc(4096, 2)] in a process whose
    second [mmap] - the [MAP_FIXED] one for segment 1 - fails: the function
    returns the address of the first mapping, not null; that mapping is
    still in place, nothing was undone; and segment 1 leads to offset 4096
    of the object rather than to offset 0, so a byte stored at the head of
    segment 1 is not the byte read at the head of segment 0. *)
Theorem fifo_alloc_posix_ignores_failed_mapping :
  exists os',
    fifo_alloc 4096 2 second_mapping_fails = (0x10000, os') /\
    views os' = [mkView 0x10000 8192 3 0] /\
    resolve os' 0x10000 = Some (3, 0) /\
    resolve os' (0x10000 + 4096) = Some (3, 4096) /\
    exists os'',
      store_byte os' (0x10000 + 4096) 0xab = Some os'' /\
      load os'' (0x10000 + 4096) = Some 0xab /\
      load os'' 0x10000 = Some 0.
Proof.
  eexists. split; [vm_compute; reflexivity|].
  repeat split.
  eexists. split; [vm_compute; reflexivity|].
  split; reflexivity.
Qed.

(** The same call when both [mmap] calls succeed: the two segments alias. *)
Example fifo_alloc_posix_two_segments :
  exists os',
    fifo_alloc 4096 2 (mkOS 3 [Some 0x10000; Some 0] (-1) 0 [] (fun _ _ => 0))
      = (0x10000, os') /\
    forall k j, 0 <= k < 2 -> 0 <= j < 4096 ->
      resolve os' (0x10000 + 4096 * k + j) = Some (3, j).
Proof.
  apply (fifo_alloc_all_succeed 4096 2 0x10000
           (mkOS 3 [Some 0x10000; Some 0] (-1) 0 [] (fun _ _ => 0)) [0] []);
    try lia; try reflexivity; discriminate.
Qed.

End FifoPosixFacts.

Module FifoWin32Facts.
Import FifoWin32.

(** A process in which the file mapping gets handle 7, every view without a
    requested address succeeds and every view requested at an address is
    refused. *)
Definition every_segment_refused : OS :=
  mkOS 7 [Some 0x10000; None; Some 0x20000; None; Some 0x30000; None;
          Some 0x40000; None; Some 0x50000; None]
       0 (fun _ => 0) [] [] [] [].

(** The Windows build does detect a refused segment and gives up, with a
    null result, at the fifth; [fifo_free] then unmaps the base view of the
    last pass and closes the handle. The base views of the four passes
    before it, replaced without being unmapped, stay mapped. *)
Lemma fifo_alloc_win32_gives_up_after_five :
  exists os',
    fifo_alloc 4096 2 every_segment_refused = (0, os') /\
    s_fh os' = 0 /\
    open_handles os' = [] /\
    views os' = [mkView 0x40000 4096 7; mkView 0x30000 4096 7;
                 mkView 0x20000 4096 7; mkView 0x10000 4096 7].
Proof.
  eexists. split; [vm_compute; reflexivity|]. repeat split.
Qed.

(** With every view granted, the segments follow the base view, [size]
    bytes apart, all views of the one file mapping. *)
Lemma fifo_alloc_win32_three_segments :
  exists os',
    fifo_alloc 4096 3 (mkOS 7 [Some 0x10000; Some 0; Some 0] 0 (fun _ => 0)
                         [] [] [] [])
      = (0x10000, os') /\
    views os' = [mkView (0x10000 + 2 * 4096) 4096 7;
                 mkView (0x10000 + 4096) 4096 7;
                 mkView 0x10000 4096 7].
Proof.
  eexists. split; [vm_compute; reflexivity|]. reflexivity.
Qed.

End FifoWin32Facts.

(** * Further properties of GS.cpp *)

(** ** Shutdown, and the order of lifecycle calls *)

(** What [GSshutdown] does, in closed form. *)
Lemma GSshutdown_result (w : World) :
  GSshutdown w =
  Some (tt,
        mkWorld (host w) (theApp w) (is_d3d w) None Undefined
          (stored_toggle_state w) (next_id w)
          (calls w ++ delete_calls (s_gs w))).
Proof.
  gs_world w; cbv -[app]; rewrite <- ?app_assoc, ?app_nil_r; reflexivity.
Qed.

Lemma GSclose_result (w : World) :
  GSclose w =
  Some (tt,
        match s_gs w with
        | None => w
        | Some r =>
            mkWorld (host w) (theApp w) (is_d3d w) (Some (set_m_dev r None))
              (m_current_renderer_type w) (stored_toggle_state w) (next_id w)
              (calls w ++ close_calls r)
        end).
Proof.
  gs_world w; cbv -[app]; rewrite <- ?app_assoc; reflexivity.
Qed.

Lemma GSopen2_keeps_the_renderer_witness :
  s_gs opened_hw = Some opened_hw_renderer /\
  exists rc w' r',
    GSopen2 std_stoi false 4 4096 opened_hw = Some (Returned rc, w') /\
    s_gs w' = Some r' /\
    rnd_id r' = rnd_id opened_hw_renderer /\
    rnd_class r' = rnd_class opened_hw_renderer /\
    rnd_state r' = rnd_state opened_hw_renderer.
Proof.
  split; [reflexivity|].
  exact (GSopen2_keeps_the_renderer std_stoi false 4 4096 opened_hw
           opened_hw_renderer eq_refl).
Defined.

(** X2. [GSshutdown] from any state: it deletes the renderer, if there is
    one, and with it the device the renderer owns, leaves [s_gs] null and
    the renderer type [Undefined], and touches nothing else - not the host,
    the store, [is_d3d], the toggle state or the allocation counter. Called
    again it does nothing, and neither does [GSclose]. The next [_GSopen],
    for whatever type, finds no renderer: it constructs a new one, of the
    class of that type and with no accumulated state, unless the exception
    of [std::stoi] leaves it, which can only happen for the software
    renderer asked for with [threads = -1]. *)
Theorem GSshutdown_tears_down stoi WIN32 (w : World) :
  let w1 :=
    mkWorld (host w) (theApp w) (is_d3d w) None Undefined
      (stored_toggle_state w) (next_id w)
      (calls w
         ++ match s_gs w with
            | None => []
            | Some r =>
                EvDeleteRenderer (rnd_id r)
                  :: match m_dev r with
                     | Some d => [EvDeleteDevice (dev_id d)]
                     | None => []
                     end
            end) in
  GSshutdown w = Some (tt, w1) /\
  GSshutdown w1 = Some (tt, w1) /\
  GSclose w1 = Some (tt, w1) /\
  forall V threads p,
  exists o w2,
    _GSopen stoi WIN32 V threads p w1 = Some (o, w2) /\
    match o with
    | Thrown =>
        V = OGL_SW /\ threads = -1 /\
        fst (GSdxApp.GetConfigI stoi "extrathreads" (theApp w)) = None /\
        s_gs w2 = None
    | Returned rc =>
        exists r,
          s_gs w2 = Some r /\
          rnd_id r = S (next_id w) /\
          rnd_state r = [] /\
          match V with
          | OGL_HW => rnd_class r = GSRendererOGL
          | OGL_SW =>
              exists n,
                rnd_class r = GSRendererSW n /\
                if threads =? -1
                then fst (GSdxApp.GetConfigI stoi "extrathreads" (theApp w))
                     = Some n
                else n = threads
          | Null => rnd_class r = GSRendererNull
          | DX1011_HW | Undefined =>
              rnd_class r = if WIN32 then GSRendererDX11 else GSRendererOGL
          end
    end.
Proof.
  cbv zeta. fold (delete_calls (s_gs w)).
  split; [apply GSshutdown_result|].
  split.
  { rewrite GSshutdown_result.
    cbn [host theApp is_d3d s_gs stored_toggle_state next_id calls
         delete_calls]. now rewrite app_nil_r. }
  split; [now rewrite GSclose_result|].
  intros V threads p. rewrite _GSopen_result. cbv zeta.
  cbn [s_gs m_current_renderer_type host next_id theApp].
  assert (Hold : (if GSRendererType_eqb Undefined V
                  then @None GSRenderer else None) = None)
    by now destruct (GSRendererType_eqb Undefined V).
  rewrite Hold. cbn [is_null andb].
  destruct (GSRendererType_eqb V OGL_SW && (threads =? -1)) eqn:Hreads.
  - apply andb_prop in Hreads. destruct Hreads as [HV Ht].
    apply GSRendererType_eqb_eq in HV. apply Z.eqb_eq in Ht. subst V threads.
    destruct (fst (GSdxApp.GetConfigI stoi "extrathreads" (theApp w)))
      as [n|] eqn:E; do 2 eexists; (split; [reflexivity|]).
    + eexists. cbn [s_gs rnd_id rnd_class rnd_state renderer_class_for].
      repeat split. exists n. now split.
    + now repeat split.
  - cbn [fst]. do 2 eexists. split; [reflexivity|].
    eexists. cbn [s_gs rnd_id rnd_class rnd_state].
    split; [reflexivity|]. split; [reflexivity|]. split; [reflexivity|].
    destruct V; cbn [renderer_class_for]; try reflexivity.
    exists threads. split; [reflexivity|].
    cbn [GSRendererType_eqb andb] in Hreads. now rewrite Hreads.
Qed.

(** X4. [is_d3d] after [_GSopen]: it is set only on a Windows build, for
    the types served by the DX11 case, and only by a call that constructs
    the renderer. A call that finds its renderer already in [s_gs] clears
    it: after two successive calls for the same type [is_d3d] is false,
    also when the renderer is a DX11 one. *)
Theorem _GSopen_is_d3d stoi WIN32 V t1 t2 p1 p2 w :
  exists o1 w1,
    _GSopen stoi WIN32 V t1 p1 w = Some (o1, w1) /\
    is_d3d w1 =
      (WIN32
       && is_null (if GSRendererType_eqb (m_current_renderer_type w) V
                   then s_gs w else None)
       && (GSRendererType_eqb V DX1011_HW || GSRendererType_eqb V Undefined)) /\
    (o1 = Thrown <-> _GSopen_throws stoi V t1 w) /\
    forall rc1, o1 = Returned rc1 ->
    exists rc2 w2,
      _GSopen stoi WIN32 V t2 p2 w1 = Some (Returned rc2, w2) /\
      is_d3d w2 = false /\
      renderer_identity w2 = renderer_identity w1.
Proof.
  pose proof (_GSopen_result stoi WIN32 V t1 p1 w) as H1. cbv zeta in H1.
  unfold _GSopen_throws.
  set (old := if GSRendererType_eqb (m_current_renderer_type w) V
              then s_gs w else None) in *.
  set (reads := is_null old && GSRendererType_eqb V OGL_SW && (t1 =? -1))
    in *.
  assert (Hconf :
    reads = true ->
    (if reads then GSdxApp.GetConfigI stoi "extrathreads" (theApp w)
     else (Some t1, theApp w))
    = GSdxApp.GetConfigI stoi "extrathreads" (theApp w)).
  { now intros ->. }
  assert (Hreads :
    fst (if reads then GSdxApp.GetConfigI stoi "extrathreads" (theApp w)
         else (Some t1, theApp w)) = None -> reads = true).
  { destruct reads; [reflexivity|discriminate]. }
  assert (HV : reads = true -> V = OGL_SW).
  { unfold reads. intros E. apply andb_prop in E. destruct E as [E _].
    apply andb_prop in E. destruct E as [_ E].
    now apply GSRendererType_eqb_eq in E. }
  destruct (fst (if reads then _ else _)) as [n|] eqn:E.
  - match type of H1 with _ = Some (_, ?w1) =>
      pose proof (_GSopen_keeps stoi WIN32 V t2 p2 w1 _ eq_refl eq_refl) as H2;
      cbv zeta in H2
    end.
    do 2 eexists. split; [exact H1|]. split; [|split].
    + cbn [is_d3d]. clear. destruct old, V, WIN32; reflexivity.
    + split; [discriminate|]. intros [Hr Hc].
      rewrite (Hconf Hr) in E. congruence.
    + intros rc1 _. do 2 eexists. split; [exact H2|].
      split; reflexivity.
  - specialize (Hreads eq_refl). specialize (HV Hreads). subst V.
    do 2 eexists. split; [exact H1|]. split; [|split].
    + cbn [is_d3d GSRendererType_eqb orb]. now rewrite andb_false_r.
    + rewrite (Hconf Hreads) in E. split; [intros _; now split|reflexivity].
    + intros rc1 Hrc. discriminate Hrc.
Qed.



(** ** Object lifetimes over whole runs *)

(** The calls that create and destroy the renderer and its device. *)
Inductive LifecycleCall : Type :=
| CallOpen (renderer : GSRendererType) (threads basemem : Z)
| CallOpen2 (flags basemem : Z)
| CallClose
| CallShutdown.

Definition lifecycle_call (stoi : string -> option Z) (WIN32 : bool)
  (c : LifecycleCall) : M (Outcome unit) :=
  match c with
  | CallOpen renderer threads basemem =>
      _GSopen stoi WIN32 renderer threads basemem ;;;! ret (Returned tt)
  | CallOpen2 flags basemem =>
      GSopen2 stoi WIN32 flags basemem ;;;! ret (Returned tt)
  | CallClose => GSclose ;;; ret (Returned tt)
  | CallShutdown => GSshutdown ;;; ret (Returned tt)
  end.

(** A run of calls; an exception that leaves a call ends the run. *)
Fixpoint lifecycle (stoi : string -> option Z) (WIN32 : bool)
  (l : list LifecycleCall) : M (Outcome unit) :=
  match l with
  | [] => ret (Returned tt)
  | c :: l => lifecycle_call stoi WIN32 c ;;;! lifecycle stoi WIN32 l
  end.

(** Reading a record of calls as a heap history: [allocated] is the bound
    below which identities have been handed out, [dead] the objects
    deleted so far. *)
Record Heap : Type := mkHeap {
  allocated : nat;
  dead : list oid
}.

Definition usable (h : Heap) (x : oid) : bool :=
  (x <? allocated h)%nat && negb (existsb (Nat.eqb x) (dead h)).

(** One call checked against the heap: a [new] must give an identity never
    handed out before, a [delete] and a method call must name an object
    that was allocated and has not been deleted. *)
Definition heap_step (h : option Heap) (e : Event) : option Heap :=
  match h with
  | None => None
  | Some h =>
      match e with
      | EvGLLoad => Some h
      | EvNewDevice x _ | EvNewRenderer x _ =>
          if (allocated h <=? x)%nat then Some (mkHeap (S x) (dead h))
          else None
      | EvDeleteRenderer x | EvDeleteDevice x =>
          if usable h x then Some (mkHeap (allocated h) (x :: dead h))
          else None
      | EvSetRegsMem r _ | EvResetDevice r | EvTransfer r _ _ _
      | EvFreeze r _ | EvDefrost r =>
          if usable h r then Some h else None
      | EvCreateDevice r d _ =>
          if usable h r && usable h d then Some h else None
      end
  end.

Definition heap_discipline (l : list Event) : option Heap :=
  fold_left heap_step l (Some (mkHeap 0 [])).

Lemma usable_spec (h : Heap) (x : oid) :
  usable h x = true <-> (x < allocated h)%nat /\ ~ In x (dead h).
Proof.
  unfold usable. rewrite andb_true_iff, Nat.ltb_lt, negb_true_iff.
  split; intros [Hlt Hd]; split; trivial.
  - intros Hin.
    assert (E : existsb (Nat.eqb x) (dead h) = true).
    { apply existsb_exists. exists x. split; [assumption|apply Nat.eqb_refl]. }
    congruence.
  - destruct (existsb (Nat.eqb x) (dead h)) eqn:E; [|reflexivity].
    apply existsb_exists in E. destruct E as (y & Hy & Hxy).
    apply Nat.eqb_eq in Hxy. subst y. contradiction.
Qed.

Lemma heap_discipline_app (l1 l2 : list Event) :
  heap_discipline (l1 ++ l2) = fold_left heap_step l2 (heap_discipline l1).
Proof. apply fold_left_app. Qed.

(** The check is not vacuous: it refuses a second delete of the same
    object, and a call on an object already deleted. *)
Example heap_discipline_refuses :
  heap_discipline [EvNewDevice 0%nat GSDeviceOGL; EvDeleteDevice 0%nat;
                   EvDeleteDevice 0%nat] = None /\
  heap_discipline [EvNewRenderer 0%nat GSRendererNull; EvDeleteRenderer 0%nat;
                   EvResetDevice 0%nat] = None.
Proof. split; reflexivity. Qed.

(** What holds between a world and the heap its record of calls leads to:
    the record passes the check, identities are handed out in step with
    [next_id], and the renderer in [s_gs] and its device are live, distinct
    objects. *)
Definition lifetimes_ok (w : World) (h : Heap) : Prop :=
  heap_discipline (calls w) = Some h /\
  allocated h = next_id w /\
  (forall x, In x (dead h) -> (x < next_id w)%nat) /\
  match s_gs w with
  | None => True
  | Some r =>
      (rnd_id r < next_id w)%nat /\ ~ In (rnd_id r) (dead h) /\
      match m_dev r with
      | None => True
      | Some d =>
          (dev_id d < next_id w)%nat /\ ~ In (dev_id d) (dead h) /\
          dev_id d <> rnd_id r
      end
  end.

(** Proves an object usable, or an identity outside [dead], from what is
    known of the objects in play. *)
Ltac lifetimes_side Hdead :=
  try (apply usable_spec; cbn [allocated dead]; split; [lia|]);
  let Hin := fresh "Hin" in
  intros Hin; cbn [In] in Hin;
  repeat destruct Hin as [Hin|Hin];
  try lia; try contradiction; try (apply Hdead in Hin; lia).

Ltac lifetimes_run Hdead :=
  repeat (cbn [fold_left heap_step allocated dead app];
          rewrite ?Nat.leb_refl;
          repeat match goal with
                 | |- context [usable ?h ?x] =>
                     rewrite (proj2 (usable_spec h x))
                       by (cbn [allocated dead]; split;
                           [lia|lifetimes_side Hdead])
                 end;
          cbn [andb]).


(** The store holds a thread count that [std::stoi] converts. *)
Definition configured (stoi : string -> option Z) (w : World) : Prop :=
  exists v n,
    GSdxApp.m_current_configuration (theApp w) "extrathreads"%string = Some v /\
    stoi v = Some n.

Lemma GetConfigI_configured stoi w :
  configured stoi w ->
  exists n,
    GSdxApp.GetConfigI stoi "extrathreads" (theApp w) = (Some n, theApp w).
Proof.
  intros (v & n & Hv & Hn). exists n.
  unfold GSdxApp.GetConfigI, GSdxApp.GetConfigS, GSdxApp.map_index.
  rewrite Hv, Hn. now destruct (theApp w).
Qed.

(** With such a store [_GSopen] returns and leaves the store as it is. *)
Lemma _GSopen_configured stoi WIN32 V threads p w :
  configured stoi w ->
  let keep := GSRendererType_eqb (m_current_renderer_type w) V in
  let old := if keep then s_gs w else None in
  let d := next_id w in
  let ok := device_setup_ok (host w) d in
  exists n,
    let r := match old with
             | Some r => r
             | None => mkRenderer (S d) (renderer_class_for WIN32 V n)
                         0 None []
             end in
    _GSopen stoi WIN32 V threads p w =
    Some (Returned (if ok then 0 else -1),
          mkWorld (host w) (theApp w)
            (match old, V with
             | None, (DX1011_HW | Undefined) => WIN32
             | _, _ => false
             end)
            (Some (mkRenderer (rnd_id r) (rnd_class r) p
                     (if ok
                      then Some (mkDevice d (device_class_for WIN32 V))
                      else None)
                     (rnd_state r)))
            V (stored_toggle_state w)
            (match old with Some _ => S d | None => S (S d) end)
            (calls w
               ++ (if keep then [] else delete_calls (s_gs w))
               ++ gl_load_calls V
               ++ [EvNewDevice d (device_class_for WIN32 V)]
               ++ match old with
                  | Some _ => []
                  | None => [EvNewRenderer (S d)
                               (renderer_class_for WIN32 V n)]
                  end
               ++ [EvSetRegsMem (rnd_id r) p; EvCreateDevice (rnd_id r) d ok]
               ++ (if ok then [] else close_calls r))).
Proof.
  intros Hc. cbv zeta. destruct (GetConfigI_configured stoi w Hc) as (n & E).
  rewrite _GSopen_result. cbv zeta. rewrite E.
  match goal with |- context [if ?b then (Some n, _) else _] =>
    destruct b end; cbn [fst snd]; eexists;
    rewrite <- !app_assoc; reflexivity.
Qed.

Lemma _GSopen_lifetimes stoi WIN32 V threads p w h :
  configured stoi w ->
  lifetimes_ok w h ->
  exists rc w',
    _GSopen stoi WIN32 V threads p w = Some (Returned rc, w') /\
    theApp w' = theApp w /\
    exists h', lifetimes_ok w' h'.
Proof.
  intros Hc (Hchk & Hal & Hdead & Hlive).
  destruct (_GSopen_configured stoi WIN32 V threads p w Hc) as (n & E).
  cbv zeta in E. rewrite E. do 2 eexists. split; [reflexivity|].
  split; [reflexivity|].
  unfold lifetimes_ok, delete_calls, close_calls.
  cbn [calls s_gs next_id rnd_id m_dev dev_id].
  rewrite heap_discipline_app, Hchk.
  destruct h as [a D]. cbn [allocated dead] in *. subst a.
  clear E.
  destruct (GSRendererType_eqb (m_current_renderer_type w) V);
    destruct (s_gs w) as [[ri rc0 rg [[di dc]|] rs]|];
    cbn [rnd_id rnd_class m_regs m_dev rnd_state dev_id delete_calls
         close_calls] in *;
    destruct (device_setup_ok (host w) (next_id w));
    repeat match goal with H : _ /\ _ |- _ => destruct H end;
    destruct V; cbn [gl_load_calls app];
    lifetimes_run Hdead;
    eexists; (split; [reflexivity|]); cbn [allocated dead];
    (split; [reflexivity|]);
    (split; [intros x Hin; cbn [In] in Hin;
             repeat destruct Hin as [Hin|Hin]; try lia;
             apply Hdead in Hin; lia|]);
    cbn [rnd_id m_dev dev_id];
    repeat split; try lia; lifetimes_side Hdead.
Qed.

Lemma GSclose_lifetimes w h :
  lifetimes_ok w h ->
  exists w',
    GSclose w = Some (tt, w') /\ theApp w' = theApp w /\
    exists h', lifetimes_ok w' h'.
Proof.
  intros (Hchk & Hal & Hdead & Hlive).
  rewrite GSclose_result. eexists. split; [reflexivity|].
  split; [now destruct (s_gs w)|].
  destruct h as [a D]. cbn [allocated dead] in *. subst a.
  destruct (s_gs w) as [[ri rc0 rg [[di dc]|] rs]|] eqn:E;
    unfold lifetimes_ok, close_calls;
    cbn [calls s_gs next_id rnd_id m_dev dev_id set_m_dev] in *;
    rewrite ?E;
    repeat match goal with H : _ /\ _ |- _ => destruct H end;
    try (rewrite heap_discipline_app, Hchk; lifetimes_run Hdead);
    eexists; (split; [first [reflexivity | eassumption]|]);
    cbn [allocated dead];
    (split; [reflexivity|]);
    (split; [intros x Hin; cbn [In] in Hin;
             repeat destruct Hin as [Hin|Hin]; try lia;
             apply Hdead in Hin; lia|]);
    repeat split; try lia; lifetimes_side Hdead.
Qed.

Lemma GSshutdown_lifetimes w h :
  lifetimes_ok w h ->
  exists w',
    GSshutdown w = Some (tt, w') /\ theApp w' = theApp w /\
    exists h', lifetimes_ok w' h'.
Proof.
  intros (Hchk & Hal & Hdead & Hlive).
  rewrite GSshutdown_result. eexists. split; [reflexivity|].
  split; [reflexivity|].
  destruct h as [a D]. cbn [allocated dead] in *. subst a.
  unfold lifetimes_ok, delete_calls. cbn [calls s_gs next_id].
  rewrite heap_discipline_app, Hchk.
  destruct (s_gs w) as [[ri rc0 rg [[di dc]|] rs]|];
    cbn [rnd_id m_dev dev_id] in *;
    repeat match goal with H : _ /\ _ |- _ => destruct H end;
    lifetimes_run Hdead;
    eexists; (split; [reflexivity|]);
    cbn [allocated dead];
    (split; [reflexivity|]);
    (split; [intros x Hin; cbn [In] in Hin;
             repeat destruct Hin as [Hin|Hin]; try lia;
             apply Hdead in Hin; lia|]);
    exact I.
Qed.

Lemma GSopen2_lifetimes stoi WIN32 flags basemem w h :
  configured stoi w ->
  lifetimes_ok w h ->
  exists rc w',
    GSopen2 stoi WIN32 flags basemem w = Some (Returned rc, w') /\
    theApp w' = theApp w /\
    exists h', lifetimes_ok w' h'.
Proof.
  intros Hc Hok.
  unfold GSopen2. unfold bind at 1. rewrite GSopen2_select_result.
  unfold bind, gets. cbn [m_current_renderer_type].
  match goal with |- context [_GSopen stoi WIN32 ?V ?t ?p ?w0] =>
    destruct (_GSopen_lifetimes stoi WIN32 V t p w0 h Hc Hok)
      as (rc & w' & E & Ha & Hh)
  end.
  exists rc, w'. split; [exact E|]. split; [exact Ha|exact Hh].
Qed.

(** X3. Any run of [_GSopen], [GSopen2], [GSclose] and [GSshutdown] calls,
    in any order and with any arguments, from the state the plugin starts
    in: every call returns, and the record of what the run did to the heap
    passes the check - no object is deleted twice, none is used or handed
    to the renderer after its deletion, and no identity is given out
    twice. At the end the renderer in [s_gs] and its device are live. *)
Theorem lifecycle_never_reuses_a_deleted_object
  (WIN32 : bool) (b : Build) (h : Host) (l : list LifecycleCall) :
  exists w heap,
    lifecycle std_stoi WIN32 l (boot b h) = Some (Returned tt, w) /\
    heap_discipline (calls w) = Some heap /\
    match s_gs w with
    | None => True
    | Some r =>
        usable heap (rnd_id r) = true /\
        match m_dev r with
        | None => True
        | Some d => usable heap (dev_id d) = true
        end
    end.
Proof.
  assert (Hgen : forall cs w h0,
             configured std_stoi w ->
             lifetimes_ok w h0 ->
             exists w' h', lifecycle std_stoi WIN32 cs w
                             = Some (Returned tt, w') /\
                           lifetimes_ok w' h').
  { induction cs as [|c cs IH]; intros w h0 Hc Hok.
    - exists w, h0. split; [reflexivity|assumption].
    - cbn [lifecycle]. unfold bind_returned, bind at 1.
      assert (Hcall : exists w1,
                 lifecycle_call std_stoi WIN32 c w = Some (Returned tt, w1) /\
                 theApp w1 = theApp w /\
                 exists h1, lifetimes_ok w1 h1).
      { destruct c as [V t p|f p| |]; cbn [lifecycle_call].
        - destruct (_GSopen_lifetimes std_stoi WIN32 V t p w h0 Hc Hok)
            as (rc & w1 & E & Ha & Hh).
          exists w1. unfold bind_returned, bind. rewrite E. now split.
        - destruct (GSopen2_lifetimes std_stoi WIN32 f p w h0 Hc Hok)
            as (rc & w1 & E & Ha & Hh).
          exists w1. unfold bind_returned, bind. rewrite E. now split.
        - destruct (GSclose_lifetimes w h0 Hok) as (w1 & E & Ha & Hh).
          exists w1. unfold bind. rewrite E. now split.
        - destruct (GSshutdown_lifetimes w h0 Hok) as (w1 & E & Ha & Hh).
          exists w1. unfold bind. rewrite E. now split. }
      destruct Hcall as (w1 & E & Ha & h1 & Hok1). rewrite E.
      apply IH with (h0 := h1); [|assumption].
      unfold configured in *. now rewrite Ha. }
  destruct (Hgen l (boot b h) (mkHeap 0 [])) as (w & heap & E & Hok).
  { exists "2"%string, 2. split; [apply initialised_extrathreads|reflexivity]. }
  { repeat split. intros x []. }
  exists w, heap. split; [exact E|].
  destruct Hok as (Hchk & Hal & Hdead & Hlive). split; [exact Hchk|].
  destruct (s_gs w) as [r|]; [|exact I].
  destruct Hlive as (Hr & Hnr & Hd).
  split; [apply usable_spec; split; [lia|assumption]|].
  destruct (m_dev r) as [d|]; [|exact I].
  destruct Hd as (Hd1 & Hd2 & _). apply usable_spec; split; [lia|assumption].
Qed.

(** ** GS.cpp: page-granular allocation, POSIX build *)

Module VmPosix.

(** Values of <sys/mman.h> on Linux. *)
Definition PROT_READ : Z := 1.
Definition PROT_WRITE : Z := 2.
Definition PROT_EXEC : Z := 4.
Definition MAP_PRIVATE : Z := 2.
Definition MAP_ANONYMOUS : Z := 0x20.
Definition MAP_32BIT : Z := 0x40.
Definition MAP_FAILED : Z := 2 ^ 64 - 1.

(** An anonymous mapping. *)
Record Region : Type := mkRegion {
  r_base : Z;
  r_len : Z;
  r_prot : Z;
  r_flags : Z
}.

(** The process as [vmalloc] and [vmfree] see it: the page size, the
    outcome of each coming [mmap] call ([None] when it fails, else the
    address the kernel picks), and the regions mapped. *)
Record OS : Type := mkOS {
  getpagesize : Z;
  mmap_answers : list (option Z);
  regions : list Region
}.

Definition in_region (a : Z) (r : Region) : bool :=
  (r_base r <=? a) && (a <? r_base r + r_len r).

Definition mapped (os : OS) (a : Z) : bool :=
  existsb (in_region a) (regions os).

(** [mmap(NULL, len, prot, flags, -1, 0)]; a length of 0 is refused. *)
Definition mmap (len prot flags : Z) (os : OS) : Z * OS :=
  if len =? 0 then (MAP_FAILED, os)
  else
    match mmap_answers os with
    | Some a :: rest =>
        (a, mkOS (getpagesize os) rest
              (mkRegion a len prot flags :: regions os))
    | None :: rest => (MAP_FAILED, mkOS (getpagesize os) rest (regions os))
    | [] => (MAP_FAILED, os)
    end.

(** What is left of a region once [[p, p + n)] is taken out of it: the part
    below and the part above. *)
Definition clip (p n : Z) (r : Region) : list Region :=
  (if r_base r <? Z.min p (r_base r + r_len r)
   then [mkRegion (r_base r) (Z.min p (r_base r + r_len r) - r_base r)
           (r_prot r) (r_flags r)]
   else [])
  ++ (if Z.max (p + n) (r_base r) <? r_base r + r_len r
      then [mkRegion (Z.max (p + n) (r_base r))
              (r_base r + r_len r - Z.max (p + n) (r_base r))
              (r_prot r) (r_flags r)]
      else []).

(** [munmap(ptr, len)]: refused, with no effect, when [ptr] is not on a
    page boundary or [len] is 0. *)
Definition munmap (ptr len : Z) (os : OS) : OS :=
  if negb (ptr mod getpagesize os =? 0) || (len =? 0) then os
  else mkOS (getpagesize os) (mmap_answers os)
         (flat_map (clip ptr len) (regions os)).

(** [size = (size + mask) & ~mask] with [size_t mask = getpagesize() - 1]. *)
Definition page_round (pagesize size : Z) : Z :=
  let mask := size_t (pagesize - 1) in
  Z.land (size_t (size + mask)) (size_t (Z.lnot mask)).

Section Build.

(** [_M_AMD64] *)
Variable M_AMD64 : bool.

(** [vmalloc], POSIX build *)
Definition vmalloc (size : Z) (code : bool) (os : OS) : Z * OS :=
  let prot := Z.lor PROT_READ PROT_WRITE in
  let flags := Z.lor MAP_PRIVATE MAP_ANONYMOUS in
  let size := page_round (getpagesize os) size in
  let prot := if code then Z.lor prot PROT_EXEC else prot in
  let flags := if code && M_AMD64 then Z.lor flags MAP_32BIT else flags in
  mmap size prot flags os.

End Build.

(** [vmfree], POSIX build *)
Definition vmfree (ptr size : Z) (os : OS) : OS :=
  let size := page_round (getpagesize os) size in
  munmap ptr size os.

End VmPosix.

Module VmPosixFacts.
Import VmPosix.

(** Masking off the low [k] bits, in 64-bit arithmetic. *)
Lemma land_lnot_low_bits (x k : Z) :
  0 <= k < 64 -> 0 <= x < 2 ^ 64 ->
  Z.land x (size_t (Z.lnot (size_t (2 ^ k - 1)))) = 2 ^ k * (x / 2 ^ k).
Proof.
  intros Hk Hx. unfold size_t.
  assert (Hp : 0 < 2 ^ k <= 2 ^ 63).
  { split; [apply Z.pow_pos_nonneg; lia|].
    apply Z.pow_le_mono_r; lia. }
  rewrite (Z.mod_small (2 ^ k - 1)) by lia.
  replace (2 ^ k - 1) with (Z.ones k) by (rewrite Z.ones_equiv; lia).
  rewrite <- (Z.land_ones (Z.lnot (Z.ones k)) 64) by lia.
  rewrite (Z.land_comm (Z.lnot (Z.ones k)) (Z.ones 64)).
  rewrite Z.land_assoc, (Z.land_ones x 64) by lia.
  rewrite (Z.mod_small x) by lia.
  rewrite <- Z.ldiff_land.
  rewrite Z.ldiff_ones_r by lia.
  rewrite Z.shiftl_mul_pow2, Z.shiftr_div_pow2 by lia. lia.
Qed.

(** The sum [size + mask] when it fits in 64 bits: the rounding gives
    the next multiple of the page size. *)
Lemma page_round_fits (k size : Z) :
  0 <= k < 64 -> 0 <= size < 2 ^ 64 ->
  size + 2 ^ k - 1 < 2 ^ 64 ->
  page_round (2 ^ k) size = 2 ^ k * ((size + 2 ^ k - 1) / 2 ^ k) /\
  size <= page_round (2 ^ k) size < size + 2 ^ k /\
  page_round (2 ^ k) size mod 2 ^ k = 0.
Proof.
  intros Hk Hs Hfit.
  assert (Hp : 0 < 2 ^ k <= 2 ^ 63).
  { split; [apply Z.pow_pos_nonneg; lia|].
    apply Z.pow_le_mono_r; lia. }
  assert (H63 : 2 ^ 64 = 2 * 2 ^ 63) by reflexivity.
  unfold page_round. cbv zeta.
  assert (E : size_t (size + size_t (2 ^ k - 1)) = size + 2 ^ k - 1).
  { unfold size_t. rewrite (Z.mod_small (2 ^ k - 1)) by lia.
    rewrite Z.mod_small; lia. }
  rewrite E, land_lnot_low_bits by lia.
  pose proof (Z.div_mod (size + 2 ^ k - 1) (2 ^ k) ltac:(lia)) as Hdm.
  pose proof (Z.mod_pos_bound (size + 2 ^ k - 1) (2 ^ k) ltac:(lia)) as Hb.
  split; [reflexivity|]. split; [lia|].
  rewrite Z.mul_comm. apply Z.mod_mul. lia.
Qed.

(** The sum when it does not fit: it wraps to a value below the page
    size, which the mask clears. *)
Lemma page_round_wraps (k size : Z) :
  0 <= k < 64 -> 0 <= size < 2 ^ 64 ->
  2 ^ 64 <= size + 2 ^ k - 1 ->
  page_round (2 ^ k) size = 0.
Proof.
  intros Hk Hs Hbig.
  assert (Hp : 0 < 2 ^ k <= 2 ^ 63).
  { split; [apply Z.pow_pos_nonneg; lia|].
    apply Z.pow_le_mono_r; lia. }
  assert (H63 : 2 ^ 64 = 2 * 2 ^ 63) by reflexivity.
  unfold page_round. cbv zeta.
  assert (E : size_t (size + size_t (2 ^ k - 1)) = size + 2 ^ k - 1 - 2 ^ 64).
  { unfold size_t. rewrite (Z.mod_small (2 ^ k - 1)) by lia.
    replace (size + (2 ^ k - 1)) with
      ((size + 2 ^ k - 1 - 2 ^ 64) + 1 * 2 ^ 64) by lia.
    rewrite Z.mod_add by lia. rewrite Z.mod_small; lia. }
  rewrite E, land_lnot_low_bits by lia.
  rewrite Z.div_small by lia. lia.
Qed.

(** X10. The rounding [vmalloc] and [vmfree] apply, for a page size that
    is a power of two: as long as [size + pagesize - 1] fits in 64 bits
    the result is the least multiple of the page size that is not below
    [size]; for the sizes above that the sum wraps and the result is 0. *)
Theorem page_round_spec (k size : Z) :
  0 <= k < 64 -> 0 <= size < 2 ^ 64 ->
  (size + 2 ^ k - 1 < 2 ^ 64 ->
     page_round (2 ^ k) size = 2 ^ k * ((size + 2 ^ k - 1) / 2 ^ k) /\
     size <= page_round (2 ^ k) size < size + 2 ^ k /\
     page_round (2 ^ k) size mod 2 ^ k = 0) /\
  (2 ^ 64 <= size + 2 ^ k - 1 -> page_round (2 ^ k) size = 0).
Proof.
  intros Hk Hs. split; intros Hcase.
  - now apply page_round_fits.
  - now apply page_round_wraps.
Qed.

Lemma page_round_spec_witness :
  0 <= 12 < 64 /\ 0 <= 5000 < 2 ^ 64 /\
  (5000 + 2 ^ 12 - 1 < 2 ^ 64 ->
     page_round (2 ^ 12) 5000 = 2 ^ 12 * ((5000 + 2 ^ 12 - 1) / 2 ^ 12) /\
     5000 <= page_round (2 ^ 12) 5000 < 5000 + 2 ^ 12 /\
     page_round (2 ^ 12) 5000 mod 2 ^ 12 = 0) /\
  (2 ^ 64 <= 5000 + 2 ^ 12 - 1 -> page_round (2 ^ 12) 5000 = 0).
Proof.
  split; [lia|]. split; [lia|].
  apply (page_round_spec 12 5000); lia.
Defined.

Lemma existsb_flat_map {A B : Type} (f : B -> bool) (g : A -> list B)
  (l : list A) :
  existsb f (flat_map g l) = existsb (fun a => existsb f (g a)) l.
Proof.
  induction l as [|a l IH]; [reflexivity|].
  cbn [flat_map existsb]. now rewrite existsb_app, IH.
Qed.

(** What [munmap] takes out of a region and what it leaves. *)
Lemma in_region_clip (p n x : Z) (r : Region) :
  0 < n ->
  existsb (in_region x) (clip p n r) =
  in_region x r && negb ((p <=? x) && (x <? p + n)).
Proof.
  intros Hn. unfold clip, in_region.
  destruct r as [b l pr fl]; cbn [r_base r_len r_prot r_flags].
  destruct (Z.ltb_spec b (Z.min p (b + l))),
    (Z.ltb_spec (Z.max (p + n) b) (b + l));
    cbn [app existsb r_base r_len orb];
    repeat match goal with
           | |- context [?a <=? ?b] => destruct (Z.leb_spec a b)
           | |- context [?a <? ?b] => destruct (Z.ltb_spec a b)
           end; cbn; try reflexivity; lia.
Qed.

Lemma mapped_munmap (os : OS) (p n x : Z) :
  p mod getpagesize os = 0 -> 0 < n ->
  mapped (munmap p n os) x =
  mapped os x && negb ((p <=? x) && (x <? p + n)).
Proof.
  intros Hp Hn. unfold munmap, mapped.
  rewrite Hp. cbn [Z.eqb negb orb].
  destruct (Z.eqb_spec n 0) as [?|_]; [lia|].
  cbn [regions]. rewrite existsb_flat_map.
  induction (regions os) as [|r rs IH]; [reflexivity|].
  cbn [existsb]. rewrite IH, in_region_clip by assumption.
  destruct (in_region x r), (existsb (in_region x) rs),
    ((p <=? x) && (x <? p + n)); reflexivity.
Qed.

(** X11. [vmalloc] then [vmfree] with the same size, for a page size
    [2^k], a non-zero size that does not overflow the rounding, and a
    page-aligned address from the kernel: [vmalloc] returns that address
    with all [size] bytes mapped, and [vmfree] unmaps exactly the pages
    [vmalloc] mapped - every address of the rounded range, and no address
    outside it. *)
Theorem vmfree_undoes_vmalloc (M_AMD64 : bool) (os : OS) (k size a : Z)
  (code : bool) (rest : list (option Z)) :
  0 <= k < 64 ->
  getpagesize os = 2 ^ k ->
  0 < size -> size + 2 ^ k - 1 < 2 ^ 64 ->
  mmap_answers os = Some a :: rest ->
  a mod 2 ^ k = 0 ->
  exists os1,
    vmalloc M_AMD64 size code os = (a, os1) /\
    (forall x, a <= x < a + size -> mapped os1 x = true) /\
    forall x,
      mapped (vmfree a size os1) x =
      mapped os x
      && negb ((a <=? x) && (x <? a + page_round (2 ^ k) size)).
Proof.
  intros Hk Hps Hsz Hfit Hans Ha.
  destruct (page_round_fits k size Hk ltac:(lia) Hfit) as (_ & Hbound & _).
  unfold vmalloc, mmap. cbv zeta. rewrite Hps, Hans.
  destruct (Z.eqb_spec (page_round (2 ^ k) size) 0) as [E|_]; [lia|].
  eexists. split; [reflexivity|]. split.
  - intros x Hx. unfold mapped. cbn [regions existsb].
    unfold in_region at 1. cbn [r_base r_len].
    destruct (Z.leb_spec a x), (Z.ltb_spec x (a + page_round (2 ^ k) size));
      cbn; try reflexivity; lia.
  - intros x. unfold vmfree. cbn [getpagesize].
    rewrite mapped_munmap by (cbn [getpagesize]; lia).
    unfold mapped. cbn [regions existsb].
    unfold in_region at 1. cbn [r_base r_len].
    destruct (Z.leb_spec a x), (Z.ltb_spec x (a + page_round (2 ^ k) size));
      cbn; rewrite ?andb_true_r, ?andb_false_r; reflexivity.
Qed.

Lemma vmfree_undoes_vmalloc_witness :
  exists os1,
    vmalloc true 5000 true (mkOS 4096 [Some 0x7f0000000000] []) =
      (0x7f0000000000, os1) /\
    (forall x, 0x7f0000000000 <= x < 0x7f0000000000 + 5000 ->
               mapped os1 x = true) /\
    forall x,
      mapped (vmfree 0x7f0000000000 5000 os1) x =
      mapped (mkOS 4096 [Some 0x7f0000000000] []) x
      && negb ((0x7f0000000000 <=? x)
               && (x <? 0x7f0000000000 + page_round (2 ^ 12) 5000)).
Proof.
  apply (vmfree_undoes_vmalloc true (mkOS 4096 [Some 0x7f0000000000] [])
           12 5000 0x7f0000000000 true []);
    try lia; reflexivity.
Defined.

(** X12. A request [vmalloc] cannot round to a positive length - size 0,
    or a size within a page of [2^64] - fails without reaching the kernel:
    the rounded length is 0, [mmap] refuses it, and the result is
    [MAP_FAILED], which is not the null pointer; nothing is mapped and no
    kernel answer is used up. *)
Theorem vmalloc_zero_length_fails (M_AMD64 : bool) (os : OS) (k size : Z)
  (code : bool) :
  0 <= k < 64 ->
  getpagesize os = 2 ^ k ->
  0 <= size < 2 ^ 64 ->
  size = 0 \/ 2 ^ 64 <= size + 2 ^ k - 1 ->
  vmalloc M_AMD64 size code os = (MAP_FAILED, os) /\ MAP_FAILED <> 0.
Proof.
  intros Hk Hps Hs Hcase.
  assert (Hp : 0 < 2 ^ k) by (apply Z.pow_pos_nonneg; lia).
  assert (E : page_round (2 ^ k) size = 0).
  { destruct Hcase as [->|Hbig]; [|now apply page_round_wraps].
    destruct (Z.le_gt_cases (2 ^ 64) (0 + 2 ^ k - 1)) as [Hbig|Hsmall];
      [now apply page_round_wraps|].
    destruct (page_round_fits k 0 Hk Hs Hsmall) as (-> & _).
    rewrite Z.div_small by lia. lia. }
  unfold vmalloc, mmap. cbv zeta. rewrite Hps, E.
  split; [reflexivity|discriminate].
Qed.

Lemma vmalloc_zero_length_fails_witness :
  vmalloc true 0 false (mkOS 4096 [Some 0x7f0000000000] []) =
    (MAP_FAILED, mkOS 4096 [Some 0x7f0000000000] []) /\
  MAP_FAILED <> 0.
Proof.
  apply (vmalloc_zero_length_fails true (mkOS 4096 [Some 0x7f0000000000] [])
           12 0 false); try lia; reflexivity.
Defined.

End VmPosixFacts.

(** ** More on the FIFO ring, POSIX build *)

Module FifoPosixRing.
Import FifoPosix.

(** X13. The success path of the POSIX [fifo_alloc], in terms of reads and
    writes: when [shm_open] and all [repeat] calls of [mmap] succeed, a
    byte stored at offset [j] of any of the [repeat] segments is the byte
    loaded at offset [j] of every segment. *)
Theorem fifo_alloc_ring_aliases (size repeat fifo : Z) (os : OS)
  (chosen : list Z) (rest : list (option Z)) :
  0 < size -> 1 <= repeat -> 0 <= fifo ->
  fifo + size * repeat < 2 ^ 64 ->
  shm_open_answer os <> -1 ->
  mmap_answers os = Some fifo :: map Some chosen ++ rest ->
  List.length chosen = Z.to_nat (repeat - 1) ->
  exists os',
    fifo_alloc size repeat os = (fifo, os') /\
    forall k k' j b,
      0 <= k < repeat -> 0 <= k' < repeat -> 0 <= j < size ->
      exists os'',
        store_byte os' (fifo + size * k + j) b = Some os'' /\
        load os'' (fifo + size * k' + j) = Some b.
Proof.
  intros Hs Hr Hf Hfit Hfd Hans Hlen.
  destruct (FifoPosixFacts.fifo_alloc_all_succeed size repeat fifo os chosen
              rest Hs Hr Hf Hfit Hfd Hans Hlen) as (os' & E & Hres).
  exists os'. split; [exact E|].
  intros k k' j b Hk Hk' Hj.
  assert (Hst : exists os'',
             store_byte os' (fifo + size * k + j) b = Some os'').
  { unfold store_byte. rewrite (Hres k j Hk Hj). eexists. reflexivity. }
  destruct Hst as (os'' & Hst). exists os''. split; [exact Hst|].
  exact (FifoPosixFacts.store_load_alias os' os'' _ _ b _ _
           (Hres k j Hk Hj) (Hres k' j Hk' Hj) Hst).
Qed.

Lemma fifo_alloc_ring_aliases_witness :
  exists os',
    fifo_alloc 4096 3
      (mkOS 3 [Some 0x10000; Some 0; Some 0] (-1) 0 [] (fun _ _ => 0))
      = (0x10000, os') /\
    forall k k' j b,
      0 <= k < 3 -> 0 <= k' < 3 -> 0 <= j < 4096 ->
      exists os'',
        store_byte os' (0x10000 + 4096 * k + j) b = Some os'' /\
        load os'' (0x10000 + 4096 * k' + j) = Some b.
Proof.
  apply (fifo_alloc_ring_aliases 4096 3 0x10000
           (mkOS 3 [Some 0x10000; Some 0; Some 0] (-1) 0 [] (fun _ _ => 0))
           [0; 0] []);
    try lia; try reflexivity; discriminate.
Defined.

(** Where an address leads after an [mmap] call: where it led before,
    unless the new mapping covers it. *)
Lemma resolve_mmap (addr len : Z) (fixed : bool) (fd off : Z) (os : OS)
  (x : Z) :
  resolve (snd (mmap addr len fixed fd off os)) x = resolve os x \/
  fst (mmap addr len fixed fd off os) <= x
    < fst (mmap addr len fixed fd off os) + len.
Proof.
  unfold mmap. destruct (mmap_answers os) as [|[c|] rest];
    cbn [fst snd]; try now left.
  unfold resolve. cbn [views find]. unfold in_view at 1. cbn [v_base v_len].
  destruct (Z.leb_spec (if fixed then addr else c) x);
    destruct (Z.ltb_spec x ((if fixed then addr else c) + len));
    cbn [andb]; auto.
Qed.

Lemma resolve_map_segments (fifo size : Z) (idx : list Z) (os : OS) (x : Z) :
  resolve (fold_left (map_segment fifo size) idx os) x = resolve os x \/
  exists i, In i idx /\
    size_t (fifo + size_t (size * i)) <= x
      < size_t (fifo + size_t (size * i)) + size.
Proof.
  revert os. induction idx as [|i idx IH]; intros os; [now left|].
  cbn [fold_left].
  destruct (IH (map_segment fifo size os i)) as [E|(j & Hj & Hx)].
  - rewrite E. unfold map_segment, mmap.
    destruct (mmap_answers os) as [|[c|] rest]; cbn [snd]; try now left.
    unfold resolve. cbn [views find]. unfold in_view at 1.
    cbn [v_base v_len].
    destruct (Z.leb_spec (size_t (fifo + size_t (size * i))) x);
      destruct (Z.ltb_spec x (size_t (fifo + size_t (size * i)) + size));
      cbn [andb]; try now left.
    right. exists i. split; [now left|lia].
  - right. exists j. split; [now right|exact Hx].
Qed.

(** X14. What the POSIX [fifo_alloc] reports, whatever the [mmap] calls
    do: provided the kernel never places a mapping at address 0, the result
    is the null pointer exactly when [shm_open] failed, and then nothing is
    mapped. No failure of [mmap] - of the first mapping or of a segment -
    makes the result null. As for what was mapped before the call: an
    address leads where it led unless it lies in the range of the first
    mapping or in the range a segment was asked to be placed at, where a
    [MAP_FIXED] mapping takes the place of whatever was there. *)
Theorem fifo_alloc_null_only_when_shm_open_fails (size repeat : Z) (os : OS) :
  (forall rest, mmap_answers os <> Some 0 :: rest) ->
  exists p os',
    fifo_alloc size repeat os = (p, os') /\
    (p = 0 <-> shm_open_answer os = -1) /\
    (shm_open_answer os = -1 -> views os' = views os) /\
    forall x,
      resolve os' x = resolve os x \/
      p <= x < p + size_t (size * repeat) \/
      exists i, 1 <= i < repeat /\
        size_t (p + size_t (size * i)) <= x
          < size_t (p + size_t (size * i)) + size.
Proof.
  intros Hzero. unfold fifo_alloc. cbn [shm_open s_shm_fd].
  destruct (Z.eqb_spec (shm_open_answer os) (-1)) as [E|E].
  - exists 0, (shm_open os). repeat split; auto.
  - match goal with
    | |- context [mmap 0 ?len false ?fd 0 ?o] =>
        pose proof (fun x => resolve_mmap 0 len false fd 0 o x) as Hfirst;
        assert (Hp : fst (mmap 0 len false fd 0 o) <> 0);
        [|destruct (mmap 0 len false fd 0 o) as [p o1]]
    end.
    { unfold mmap, ftruncate, shm_open. cbn [mmap_answers].
      destruct (mmap_answers os) as [|[c|] rest] eqn:Hans; cbn [fst];
        try discriminate.
      intros ->. now destruct (Hzero rest). }
    cbn [fst snd] in Hfirst, Hp.
    eexists p, _. split; [reflexivity|].
    split; [split; [intros ->; now elim Hp|contradiction]|].
    split; [contradiction|].
    intros x.
    destruct (resolve_map_segments p size (loop_indices repeat) o1 x)
      as [E1|(i & Hi & Hx)].
    + rewrite E1. destruct (Hfirst x) as [E0|Hx]; [left|right; now left].
      rewrite E0. reflexivity.
    + right. right. exists i. split; [|exact Hx].
      now apply FifoPosixFacts.loop_indices_bounds.
Qed.

(** A process with one mapping of another object, at address 0; the first
    [mmap] of [fifo_alloc] fails, the one for segment 1 succeeds. *)
Definition first_mapping_fails : OS :=
  mkOS 3 [None; Some 0] (-1) 0 [mkView 0 0x10000 9 0] (fun _ _ => 0).

(** There the result is [MAP_FAILED], not null, and segment 1 is asked for
    at [MAP_FAILED + 4096], which wraps to 4095: from that address on, what
    led to object 9 now leads to the new object. *)
Lemma fifo_alloc_null_only_when_shm_open_fails_witness :
  exists p os',
    fifo_alloc 4096 2 first_mapping_fails = (p, os') /\
    p = MAP_FAILED /\
    resolve first_mapping_fails 4095 = Some (9, 4095) /\
    resolve os' 4095 = Some (3, 0) /\
    resolve os' 4094 = Some (9, 4094) /\
    (p = 0 <-> shm_open_answer first_mapping_fails = -1) /\
    forall x,
      resolve os' x = resolve first_mapping_fails x \/
      p <= x < p + size_t (4096 * 2) \/
      exists i, 1 <= i < 2 /\
        size_t (p + size_t (4096 * i)) <= x
          < size_t (p + size_t (4096 * i)) + 4096.
Proof.
  destruct (fifo_alloc_null_only_when_shm_open_fails 4096 2
              first_mapping_fails ltac:(intros rest; discriminate))
    as (p & os' & E & Hnull & _ & Hframe).
  exists p, os'. split; [exact E|].
  vm_compute in E. injection E as <- <-.
  repeat split; try reflexivity; try exact Hframe;
    try (apply Hnull); try (intros H; apply Hnull in H; exact H).
Defined.

End FifoPosixRing.

Module FifoPosixFree.
Import FifoPosix.

(** The process together with the descriptors it has closed. *)
Record Proc : Type := mkProc {
  os : OS;
  closed : list Z
}.

(** What is left of a view once [[p, p + n)] is taken out of it; the part
    above shows the object from correspondingly further on. *)
Definition clip (p n : Z) (v : View) : list View :=
  (if v_base v <? Z.min p (v_base v + v_len v)
   then [mkView (v_base v) (Z.min p (v_base v + v_len v) - v_base v)
           (v_fd v) (v_off v)]
   else [])
  ++ (if Z.max (p + n) (v_base v) <? v_base v + v_len v
      then [mkView (Z.max (p + n) (v_base v))
              (v_base v + v_len v - Z.max (p + n) (v_base v))
              (v_fd v) (v_off v + (Z.max (p + n) (v_base v) - v_base v))]
      else []).

(** [munmap(ptr, len)], for [ptr] on a page boundary as every address
    [mmap] returns is; a length of 0 is refused. *)
Definition munmap (ptr len : Z) (o : OS) : OS :=
  if len =? 0 then o
  else mkOS (shm_open_answer o) (mmap_answers o) (s_shm_fd o) (shm_length o)
         (flat_map (clip ptr len) (views o)) (shm_bytes o).

Definition set_s_shm_fd (fd : Z) (o : OS) : OS :=
  mkOS (shm_open_answer o) (mmap_answers o) fd (shm_length o) (views o)
    (shm_bytes o).

(** [fifo_free], POSIX build *)
Definition fifo_free (ptr size repeat : Z) (p : Proc) : Proc :=
  if s_shm_fd (os p) <? 0 then p
  else
    let o := munmap ptr (size_t (size * repeat)) (os p) in
    (* close(s_shm_fd); s_shm_fd = -1; *)
    mkProc (set_s_shm_fd (-1) o) (s_shm_fd o :: closed p).

(** [fifo_alloc] in a process. *)
Definition fifo_alloc_in (size repeat : Z) (p : Proc) : Z * Proc :=
  let '(fifo, o) := fifo_alloc size repeat (os p) in
  (fifo, mkProc o (closed p)).

Lemma find_clip (p n x : Z) (v : View) :
  0 < n ->
  find (in_view x) (clip p n v) =
  if in_view x v && negb ((p <=? x) && (x <? p + n))
  then Some (if x <? p
             then mkView (v_base v) (Z.min p (v_base v + v_len v) - v_base v)
                    (v_fd v) (v_off v)
             else mkView (Z.max (p + n) (v_base v))
                    (v_base v + v_len v - Z.max (p + n) (v_base v))
                    (v_fd v)
                    (v_off v + (Z.max (p + n) (v_base v) - v_base v)))
  else None.
Proof.
  intros Hn. unfold clip, in_view.
  destruct v as [b l fd off]; cbn [v_base v_len v_fd v_off].
  destruct (Z.ltb_spec b (Z.min p (b + l))),
    (Z.ltb_spec (Z.max (p + n) b) (b + l));
    cbn [app find v_base v_len];
    repeat match goal with
           | |- context [?a <=? ?b] => destruct (Z.leb_spec a b)
           | |- context [?a <? ?b] => destruct (Z.ltb_spec a b)
           end; cbn; try reflexivity; lia.
Qed.

(** After [munmap] an address in the range leads nowhere and an address
    outside it leads where it led before. *)
Lemma resolve_munmap (o : OS) (p n x : Z) :
  0 < n ->
  resolve (munmap p n o) x =
  if (p <=? x) && (x <? p + n) then None else resolve o x.
Proof.
  intros Hn. unfold munmap, resolve.
  destruct (Z.eqb_spec n 0) as [?|_]; [lia|]. cbn [views].
  induction (views o) as [|v vs IH].
  - cbn. now destruct ((p <=? x) && (x <? p + n)).
  - cbn [flat_map find]. rewrite FifoPosixFacts.find_app, find_clip by assumption.
    destruct (in_view x v) eqn:Ein;
      destruct ((p <=? x) && (x <? p + n)) eqn:Erange; cbn [andb negb].
    + rewrite IH. reflexivity.
    + destruct (Z.ltb_spec x p); cbn [v_fd v_off v_base]; [reflexivity|].
      f_equal. f_equal.
      unfold in_view in Ein. apply andb_prop in Ein.
      destruct Ein as [E1 E2]. apply Z.leb_le in E1. apply Z.ltb_lt in E2.
      apply andb_false_iff in Erange.
      rewrite Z.leb_gt, Z.ltb_ge in Erange. lia.
    + rewrite IH. reflexivity.
    + rewrite IH. reflexivity.
Qed.

(** X15. [fifo_free], POSIX build. With no descriptor held ([s_shm_fd]
    negative: before any [fifo_alloc], after a failed one, after a
    [fifo_free]) it does nothing. After a [fifo_alloc] in which every
    mapping succeeded, [fifo_free] with the same arguments leaves no
    address of the ring mapped, leaves every other address leading where
    it led, closes the descriptor and sets [s_shm_fd] to -1 - so that a
    second [fifo_free] does nothing. *)
Theorem fifo_free_releases_the_ring (size repeat fifo : Z) (p : Proc)
  (chosen : list Z) (rest : list (option Z)) :
  0 < size -> 1 <= repeat -> 0 <= fifo ->
  fifo + size * repeat < 2 ^ 64 ->
  0 <= shm_open_answer (os p) ->
  mmap_answers (os p) = Some fifo :: map Some chosen ++ rest ->
  List.length chosen = Z.to_nat (repeat - 1) ->
  (forall q ptr, s_shm_fd (os q) < 0 -> fifo_free ptr size repeat q = q) /\
  exists p1,
    fifo_alloc_in size repeat p = (fifo, p1) /\
    let p2 := fifo_free fifo size repeat p1 in
    (forall x, fifo <= x < fifo + size * repeat -> resolve (os p2) x = None) /\
    (forall x, ~ fifo <= x < fifo + size * repeat ->
               resolve (os p2) x = resolve (os p1) x) /\
    s_shm_fd (os p2) = -1 /\
    closed p2 = shm_open_answer (os p) :: closed p /\
    fifo_free fifo size repeat p2 = p2.
Proof.
  intros Hs Hr Hf Hfit Hfd Hans Hlen.
  split.
  { intros q ptr Hq. unfold fifo_free.
    destruct (Z.ltb_spec (s_shm_fd (os q)) 0); [reflexivity|lia]. }
  unfold fifo_alloc_in.
  assert (Hshape : exists o1,
             fifo_alloc size repeat (os p) = (fifo, o1) /\
             s_shm_fd o1 = shm_open_answer (os p)).
  { unfold fifo_alloc. cbn [shm_open s_shm_fd].
    destruct (Z.eqb_spec (shm_open_answer (os p)) (-1)) as [?|_]; [lia|].
    unfold mmap at 1, ftruncate, shm_open.
    cbn [mmap_answers s_shm_fd shm_open_answer shm_length views shm_bytes].
    rewrite Hans. eexists. split; [reflexivity|].
    match goal with
    | |- context [fold_left _ _ ?o] =>
        pose proof (FifoPosixFacts.map_segments_all_succeed fifo size
                      (loop_indices repeat) o chosen rest Hf Hs) as H
    end.
    cbv zeta in H. cbn [views s_shm_fd mmap_answers] in H.
    destruct H as (_ & Hfd1 & _); [| reflexivity | | exact Hfd1].
    - intros i Hi. apply FifoPosixFacts.loop_indices_bounds in Hi. nia.
    - unfold loop_indices. rewrite length_map, length_seq. lia. }
  destruct Hshape as (o1 & E & Hfd1). rewrite E.
  eexists. split; [reflexivity|]. cbv zeta.
  unfold fifo_free. cbn [os closed].
  destruct (Z.ltb_spec (s_shm_fd o1) 0) as [?|_]; [lia|].
  cbn [os closed].
  assert (Hlen' : size_t (size * repeat) = size * repeat)
    by (unfold size_t; apply Z.mod_small; nia).
  rewrite Hlen'.
  assert (Hpos : 0 < size * repeat) by nia.
  repeat split.
  - intros x Hx. unfold set_s_shm_fd, resolve. cbn [views].
    change (resolve (munmap fifo (size * repeat) o1) x = None).
    rewrite resolve_munmap by assumption.
    destruct (Z.leb_spec fifo x), (Z.ltb_spec x (fifo + size * repeat));
      cbn; try reflexivity; lia.
  - intros x Hx. unfold set_s_shm_fd, resolve at 1. cbn [views].
    change (resolve (munmap fifo (size * repeat) o1) x = resolve o1 x).
    rewrite resolve_munmap by assumption.
    destruct (Z.leb_spec fifo x), (Z.ltb_spec x (fifo + size * repeat));
      cbn; try reflexivity; lia.
  - unfold munmap. destruct (size * repeat =? 0); cbn [s_shm_fd]; congruence.
Qed.

Lemma fifo_free_releases_the_ring_witness :
  (forall q ptr, s_shm_fd (os q) < 0 -> fifo_free ptr 4096 2 q = q) /\
  exists p1,
    fifo_alloc_in 4096 2
      (mkProc (mkOS 3 [Some 0x10000; Some 0] (-1) 0 [] (fun _ _ => 0)) [])
      = (0x10000, p1) /\
    let p2 := fifo_free 0x10000 4096 2 p1 in
    (forall x, 0x10000 <= x < 0x10000 + 4096 * 2 ->
               resolve (os p2) x = None) /\
    (forall x, ~ 0x10000 <= x < 0x10000 + 4096 * 2 ->
               resolve (os p2) x = resolve (os p1) x) /\
    s_shm_fd (os p2) = -1 /\
    closed p2 = [3] /\
    fifo_free 0x10000 4096 2 p2 = p2.
Proof.
  apply (fifo_free_releases_the_ring 4096 2 0x10000
           (mkProc (mkOS 3 [Some 0x10000; Some 0] (-1) 0 [] (fun _ _ => 0)) [])
           [0] []);
    cbn [os shm_open_answer mmap_answers]; try lia; reflexivity.
Defined.

End FifoPosixFree.

(** ** More on the FIFO ring, Windows build *)

Module FifoWin32Ring.
Import FifoWin32.

(** The address the loop asks for at index [i]. *)
Definition segment_base (fifo size : Z) (i : nat) : Z :=
  size_t (fifo + size_t (size * Z.of_nat i)).

Lemma MapViewOfFileEx_keeps (h size : Z) (base : option Z) (o : OS) :
  let o' := snd (MapViewOfFileEx h size base o) in
  s_fh o' = s_fh o /\ s_Next o' = s_Next o /\
  open_handles o' = open_handles o /\
  (forall v, In v (views o) -> In v (views o')) /\
  (fst (MapViewOfFileEx h size base o) <> 0 ->
   In (mkView (fst (MapViewOfFileEx h size base o)) size h) (views o')).
Proof.
  unfold MapViewOfFileEx.
  destruct (map_answers o) as [|[c|] rest]; cbn [fst snd s_fh s_Next views open_handles];
    repeat split; auto; try (intros; now right); try (intros; now left);
    intros H; now elim H.
Qed.

(** A pass that maps every segment leaves each of them in place, recorded
    in [s_Next], and removes nothing. *)
Lemma map_segments_pass (fifo size : Z) :
  forall (idx : list nat) (o o' : OS),
    NoDup idx ->
    (forall i, In i idx -> segment_base fifo size i <> 0) ->
    map_segments fifo size idx o = (None, o') ->
    s_fh o' = s_fh o /\
    open_handles o' = open_handles o /\
    (forall v, In v (views o) -> In v (views o')) /\
    (forall i, ~ In i idx -> s_Next o' i = s_Next o i) /\
    forall i, In i idx ->
      s_Next o' i = segment_base fifo size i /\
      In (mkView (segment_base fifo size i) size (s_fh o)) (views o').
Proof.
  induction idx as [|i idx IH]; intros o o' Hnd Hnz Hrun.
  - injection Hrun as <-.
    split; [|split; [|split; [|split]]]; auto. intros j [].
  - cbn [map_segments] in Hrun.
    fold (segment_base fifo size i) in Hrun.
    pose proof (MapViewOfFileEx_keeps (s_fh o) size
                  (Some (segment_base fifo size i)) o) as Hk.
    destruct (MapViewOfFileEx (s_fh o) size (Some (segment_base fifo size i)) o)
      as [p o1] eqn:Emap.
    cbv zeta in Hk. cbn [fst snd] in Hk.
    destruct Hk as (Hfh & Hnx & Hoh & Hsub & Hin).
    cbn [set_s_Next s_Next] in Hrun. unfold store at 1 in Hrun.
    rewrite Nat.eqb_refl in Hrun.
    destruct (Z.eqb_spec p (segment_base fifo size i)) as [Ep|Ep];
      cbn [negb] in Hrun; [|discriminate].
    inversion Hnd as [|? ? Hni Hnd']; subst.
    apply IH in Hrun; [|assumption|intros j Hj; apply Hnz; now right].
    unfold set_s_Next in Hrun.
    cbn [s_fh open_handles views s_Next] in Hrun.
    destruct Hrun as (Hfh' & Hoh' & Hsub' & Hout & Hseg).
    assert (Hnzi : segment_base fifo size i <> 0) by (apply Hnz; now left).
    split; [|split; [|split; [|split]]].
    + congruence.
    + congruence.
    + intros v Hv. apply Hsub', Hsub, Hv.
    + intros j Hj. rewrite Hout by (intros Hin'; apply Hj; now right).
      unfold store. destruct (Nat.eqb_spec j i) as [->|_];
        [elim Hj; now left|now rewrite Hnx].
    + intros j [<-|Hj].
      * split.
        -- rewrite Hout by assumption. unfold store. now rewrite Nat.eqb_refl.
        -- apply Hsub'. exact (Hin Hnzi).
      * rewrite <- Hfh. now apply Hseg.
Qed.

Lemma map_segments_handle (fifo size : Z) :
  forall (idx : list nat) (o : OS),
    s_fh (snd (map_segments fifo size idx o)) = s_fh o /\
    open_handles (snd (map_segments fifo size idx o)) = open_handles o.
Proof.
  induction idx as [|i idx IH]; intros o; [now split|].
  cbn [map_segments].
  pose proof (MapViewOfFileEx_keeps (s_fh o) size
                (Some (size_t (fifo + size_t (size * Z.of_nat i)))) o) as Hk.
  destruct (MapViewOfFileEx (s_fh o) size
              (Some (size_t (fifo + size_t (size * Z.of_nat i)))) o)
    as [p o1].
  cbv zeta in Hk. cbn [fst snd] in Hk. destruct Hk as (Hfh & _ & Hoh & _).
  match goal with |- context [if ?b then _ else _] => destruct b end.
  - cbn [snd set_s_Next s_fh open_handles]. now split.
  - destruct (IH (set_s_Next i p o1)) as (H1 & H2).
    rewrite H1, H2. cbn [set_s_Next s_fh open_handles]. now split.
Qed.

Lemma unmap_down_from_handle (i : nat) (o : OS) :
  s_fh (unmap_down_from i o) = s_fh o /\
  open_handles (unmap_down_from i o) = open_handles o.
Proof.
  unfold unmap_down_from. revert o.
  induction (rev (seq 1 i)) as [|j l IH]; intros o; [now split|].
  cbn [fold_left].
  destruct (IH (set_s_Next j 0 (UnmapViewOfFile (s_Next o j) o))) as (H1 & H2).
  rewrite H1, H2. now split.
Qed.

Lemma map_ring_result (size repeat p : Z) :
  (forall i, In i (seq 1 (Z.to_nat repeat - 1)) -> segment_base p size i <> 0) ->
  forall (retries_left : nat) (fifo : Z) (o o' : OS),
    (fifo <> 0 -> In (mkView fifo size (s_fh o)) (views o)) ->
    map_ring retries_left fifo size repeat o = (p, o') ->
    p <> 0 ->
    s_fh o' = s_fh o /\
    open_handles o' = open_handles o /\
    In (mkView p size (s_fh o)) (views o') /\
    forall i, In i (seq 1 (Z.to_nat repeat - 1)) ->
      s_Next o' i = segment_base p size i /\
      In (mkView (segment_base p size i) size (s_fh o)) (views o').
Proof.
  intros Hnz.
  induction retries_left as [|r IH]; intros fifo o o' Hpre Hrun Hp;
    cbn [map_ring] in Hrun;
    pose proof (map_segments_handle fifo size (seq 1 (Z.to_nat repeat - 1)) o)
      as Hh;
    destruct (map_segments fifo size (seq 1 (Z.to_nat repeat - 1)) o)
      as [[i|] o1] eqn:Epass; cbn [snd] in Hh; destruct Hh as (Hfh1 & Hoh1).
  - injection Hrun as <- _. now elim Hp.
  - injection Hrun as <- <-.
    apply map_segments_pass in Epass; [|apply seq_NoDup|assumption].
    destruct Epass as (Hfh & Hoh & Hsub & _ & Hseg).
    split; [assumption|]. split; [assumption|]. split; [|assumption].
    apply Hsub, Hpre, Hp.
  - destruct (unmap_down_from_handle i o1) as (Hfh2 & Hoh2).
    pose proof (MapViewOfFileEx_keeps (s_fh (unmap_down_from i o1)) size None
                  (unmap_down_from i o1)) as Hk.
    unfold MapViewOfFile in Hrun.
    destruct (MapViewOfFileEx (s_fh (unmap_down_from i o1)) size None
                (unmap_down_from i o1)) as [fifo' o3].
    cbv zeta in Hk. cbn [fst snd] in Hk.
    destruct Hk as (Hfh3 & _ & Hoh3 & _ & Hin3).
    apply IH in Hrun; [|rewrite Hfh3; exact Hin3|assumption].
    rewrite Hfh3, Hfh2, Hfh1, Hoh3, Hoh2, Hoh1 in Hrun. exact Hrun.
  - injection Hrun as <- <-.
    apply map_segments_pass in Epass; [|apply seq_NoDup|assumption].
    destruct Epass as (Hfh & Hoh & Hsub & _ & Hseg).
    split; [assumption|]. split; [assumption|]. split; [|assumption].
    apply Hsub, Hpre, Hp.
Qed.

(** X16. The Windows [fifo_alloc], whatever the system answers and however
    many passes it takes: a non-null result [p] - with the ring
    [p .. p + size * repeat] inside the address space - means [repeat]
    is below 8, [s_fh] holds the open handle of the file mapping, there
    is a view of it of [size] bytes at [p], and for every [i] from 1 to
    [repeat - 1] there is one at [p + size * i], recorded in [s_Next[i]]. *)
Theorem fifo_alloc_win32_ring (size repeat p : Z) (o o' : OS) :
  fifo_alloc size repeat o = (p, o') ->
  0 < p -> 0 <= size -> p + size * repeat < 2 ^ 64 ->
  repeat < ARRAY_SIZE_s_Next /\
  s_fh o' = CreateFileMapping_answer o /\
  s_fh o' <> 0 /\
  In (s_fh o') (open_handles o') /\
  In (mkView p size (s_fh o')) (views o') /\
  forall i, 1 <= i < repeat ->
    s_Next o' (Z.to_nat i) = p + size * i /\
    In (mkView (p + size * i) size (s_fh o')) (views o').
Proof.
  intros Hrun Hp Hsz Hfit. unfold fifo_alloc in Hrun.
  destruct (Z.geb_spec repeat ARRAY_SIZE_s_Next) as [Hge|Hlt];
    [injection Hrun as <- _; lia|].
  unfold CreateFileMapping, set_s_fh in Hrun.
  cbn [s_fh CreateFileMapping_answer map_answers s_Next views open_handles]
    in Hrun.
  destruct (Z.eqb_spec (CreateFileMapping_answer o) 0) as [Eh|Eh];
    [injection Hrun as <- _; lia|].
  unfold MapViewOfFile in Hrun.
  match type of Hrun with
  | context [MapViewOfFileEx ?h ?s None ?o0] =>
      pose proof (MapViewOfFileEx_keeps h s None o0) as Hk;
      destruct (MapViewOfFileEx h s None o0) as [fifo o1]
  end.
  cbv zeta in Hk. cbn [fst snd s_fh open_handles] in Hk.
  destruct Hk as (Hfh1 & _ & Hoh1 & _ & Hin1).
  assert (Hbase : forall i, 1 <= i < repeat ->
                    segment_base p size (Z.to_nat i) = p + size * i).
  { intros i Hi. unfold segment_base, size_t. rewrite Z2Nat.id by lia.
    rewrite (Z.mod_small (size * i)) by nia. apply Z.mod_small. nia. }
  apply map_ring_result in Hrun; [| |rewrite Hfh1; exact Hin1|lia].
  - destruct Hrun as (Hfh & Hoh & Hview & Hseg).
    rewrite Hfh1 in Hfh, Hview, Hseg.
    split; [assumption|]. split; [assumption|]. split; [congruence|].
    split; [rewrite Hoh, Hoh1, Hfh; now left|].
    split; [now rewrite Hfh|].
    intros i Hi. rewrite <- (Hbase i Hi), Hfh. apply Hseg.
    apply in_seq. lia.
  - intros i Hi. apply in_seq in Hi.
    rewrite <- (Nat2Z.id i), Hbase by lia. nia.
Qed.

Lemma fifo_alloc_win32_ring_witness :
  exists o',
    fifo_alloc 4096 3
      (mkOS 7 [Some 0x10000; Some 0; None; Some 0x20000; Some 0; Some 0]
            0 (fun _ => 0) [] [] [] []) = (0x20000, o') /\
    s_fh o' = 7 /\
    In (mkView 0x20000 4096 7) (views o') /\
    forall i, 1 <= i < 3 ->
      s_Next o' (Z.to_nat i) = 0x20000 + 4096 * i /\
      In (mkView (0x20000 + 4096 * i) 4096 (s_fh o')) (views o').
Proof.
  eexists. split; [vm_compute; reflexivity|].
  match goal with
  | |- context [s_fh ?o'] =>
      pose proof (fifo_alloc_win32_ring 4096 3 0x20000
                    (mkOS 7 [Some 0x10000; Some 0; None; Some 0x20000;
                             Some 0; Some 0] 0 (fun _ => 0) [] [] [] [])
                    o' ltac:(vm_compute; reflexivity)
                    ltac:(lia) ltac:(lia) ltac:(lia)) as H
  end.
  destruct H as (_ & Hfh & _ & _ & Hview & Hseg).
  split; [exact Hfh|]. split; [|exact Hseg].
  exact Hview.
Defined.

(** A pass in which every view is granted. *)
Lemma map_segments_granted (fifo size : Z) :
  forall (idx : list nat) (o : OS) (cs : list Z) (rest : list (option Z)),
    map_answers o = map Some cs ++ rest ->
    List.length cs = List.length idx ->
    exists o',
      map_segments fifo size idx o = (None, o') /\
      s_fh o' = s_fh o /\ open_handles o' = open_handles o /\
      reserved o' = reserved o /\
      map_answers o' = rest /\
      (forall v, In v (views o') ->
         In v (views o) \/
         exists i, In i idx /\
                   v = mkView (segment_base fifo size i) size (s_fh o)) /\
      (forall i, In i idx -> s_Next o' i = segment_base fifo size i) /\
      (forall i, ~ In i idx -> s_Next o' i = s_Next o i).
Proof.
  induction idx as [|i idx IH]; intros o cs rest Hans Hlen.
  - destruct cs; [|discriminate]. exists o. cbn in Hans.
    repeat split; auto. intros j [].
  - destruct cs as [|c cs]; [discriminate|].
    cbn [map_segments]. fold (segment_base fifo size i).
    unfold MapViewOfFileEx. rewrite Hans. cbn [map app].
    cbn [set_s_Next s_Next]. unfold store at 1. rewrite Nat.eqb_refl.
    rewrite Z.eqb_refl. cbn [negb].
    match goal with
    | |- context [map_segments _ _ idx ?o1] =>
        destruct (IH o1 cs rest eq_refl ltac:(cbn in Hlen; lia))
          as (o' & E & Hfh & Hoh & Hres & Hrest & Hv & Hin & Hout)
    end.
    unfold set_s_Next in *.
    cbn [s_fh open_handles views s_Next map_answers reserved] in *.
    exists o'. split; [exact E|].
    split; [assumption|]. split; [assumption|]. split; [assumption|].
    split; [assumption|].
    split; [|split].
    + intros v Hvin. destruct (Hv v Hvin) as [[<-|Hold]|(j & Hj & ->)].
      * right. exists i. split; [now left|reflexivity].
      * now left.
      * right. exists j. split; [now right|reflexivity].
    + intros j [<-|Hj]; [|now apply Hin].
      destruct (in_dec Nat.eq_dec i idx) as [Hi|Hi]; [now apply Hin|].
      rewrite Hout by assumption. unfold store. now rewrite Nat.eqb_refl.
    + intros j Hj. rewrite Hout by (intros Hc; apply Hj; now right).
      unfold store. destruct (Nat.eqb_spec j i) as [->|_]; [|reflexivity].
      elim Hj. now left.
Qed.

(** The loop of [fifo_free] over [s_Next[1 .. 7]], from index [a] on: if
    the views left are segments of index [a] and above and [s_Next] holds
    their addresses, then it unmaps them all and clears [s_Next]. *)
Lemma fifo_free_loop (p size h : Z) (R : nat) :
  0 < p -> 0 < size -> p + size * Z.of_nat R < 2 ^ 64 ->
  forall (n a : nat) (o : OS),
    (forall v, In v (views o) ->
       exists i, (a <= i < R)%nat /\
                 v = mkView (p + size * Z.of_nat i) size h) ->
    (forall i, (a <= i < R)%nat -> s_Next o i = p + size * Z.of_nat i) ->
    (forall i, (i < a \/ R <= i)%nat -> s_Next o i = 0) ->
    let o' :=
      fold_left (fun os i =>
                   if negb (s_Next os i =? 0)
                   then set_s_Next i 0 (UnmapViewOfFile (s_Next os i) os)
                   else os)
                (seq a n) o in
    s_fh o' = s_fh o /\ open_handles o' = open_handles o /\
    reserved o' = reserved o /\
    (forall v, In v (views o') ->
       exists i, (a + n <= i < R)%nat /\
                 v = mkView (p + size * Z.of_nat i) size h) /\
    (forall i, (i < a + n \/ R <= i)%nat -> s_Next o' i = 0).
Proof.
  intros Hp Hs Hfit.
  induction n as [|n IH]; intros a o Hv Hseg Hzero; cbv zeta.
  - cbn [seq fold_left]. rewrite Nat.add_0_r. repeat split; auto.
  - cbn [seq fold_left].
    destruct (Nat.lt_ge_cases a R) as [Ha|Ha].
    + rewrite (Hseg a) by lia.
      destruct (Z.eqb_spec (p + size * Z.of_nat a) 0) as [?|_]; [nia|].
      cbn [negb].
      specialize (IH (S a)
        (set_s_Next a 0 (UnmapViewOfFile (p + size * Z.of_nat a) o))).
      cbv zeta in IH. unfold set_s_Next, UnmapViewOfFile in IH |- *.
      cbn [s_fh open_handles views s_Next reserved] in IH |- *.
      replace (a + S n)%nat with (S a + n)%nat by lia.
      apply IH.
      * intros v Hin. apply filter_In in Hin. destruct Hin as [Hin Hne].
        destruct (Hv v Hin) as (i & Hi & ->). cbn [w_base] in Hne.
        exists i. split; [|reflexivity].
        destruct (Nat.eq_dec i a) as [->|?]; [|lia].
        rewrite Z.eqb_refl in Hne. discriminate.
      * intros i Hi. unfold store.
        destruct (Nat.eqb_spec i a); [lia|]. apply Hseg. lia.
      * intros i Hi. unfold store.
        destruct (Nat.eqb_spec i a); [reflexivity|]. apply Hzero. lia.
    + rewrite (Hzero a) by lia. cbn [Z.eqb negb].
      replace (a + S n)%nat with (S a + n)%nat by lia.
      apply IH.
      * intros v Hin. destruct (Hv v Hin) as (i & Hi & _). lia.
      * intros i Hi. lia.
      * intros i Hi. apply Hzero. lia.
Qed.

Lemma map_ring_first_pass (r : nat) (fifo size repeat : Z) (o o1 : OS) :
  map_segments fifo size (seq 1 (Z.to_nat repeat - 1)) o = (None, o1) ->
  map_ring r fifo size repeat o = (fifo, o1).
Proof. intros E. destruct r; cbn [map_ring]; now rewrite E. Qed.

(** With no file mapping open [fifo_free] hands a non-null [ptr] to
    [vmfree]. *)
Lemma fifo_free_without_handle (ptr size repeat : Z) (o : OS) :
  s_fh o = 0 ->
  fifo_free ptr size repeat o =
  if ptr =? 0 then o else vmfree ptr size o.
Proof.
  intros E. unfold fifo_free. rewrite E. now destruct (ptr =? 0).
Qed.

Lemma fifo_free_with_handle (ptr size repeat : Z) (o : OS) :
  s_fh o <> 0 ->
  fifo_free ptr size repeat o =
  let o3 :=
    fold_left (fun os i =>
                 if negb (s_Next os i =? 0)
                 then set_s_Next i 0 (UnmapViewOfFile (s_Next os i) os)
                 else os)
              (seq 1 (Z.to_nat ARRAY_SIZE_s_Next - 1))
              (UnmapViewOfFile ptr o) in
  set_s_fh 0 (CloseHandle (s_fh o3) o3).
Proof.
  intros E. unfold fifo_free.
  destruct (Z.eqb_spec (s_fh o) 0); [contradiction|reflexivity].
Qed.

(** [fifo_alloc] in a process that holds no view and no handle, every
    view granted. *)
Lemma fifo_alloc_granted (size repeat p h : Z)
  (cs : list Z) (rest va : list (option Z)) (rs : list Region) :
  0 <= repeat < ARRAY_SIZE_s_Next ->
  h <> 0 ->
  List.length cs = (Z.to_nat repeat - 1)%nat ->
  exists o1,
    fifo_alloc size repeat
      (mkOS h (Some p :: map Some cs ++ rest) 0 (fun _ => 0) [] [] va rs)
      = (p, o1) /\
    s_fh o1 = h /\ open_handles o1 = [h] /\ reserved o1 = rs /\
    (forall v, In v (views o1) ->
       v = mkView p size h \/
       exists i, In i (seq 1 (Z.to_nat repeat - 1)) /\
                 v = mkView (segment_base p size i) size h) /\
    (forall i, In i (seq 1 (Z.to_nat repeat - 1)) ->
               s_Next o1 i = segment_base p size i) /\
    (forall i, ~ In i (seq 1 (Z.to_nat repeat - 1)) -> s_Next o1 i = 0).
Proof.
  intros Hr Hh Hlen.
  destruct (map_segments_granted p size (seq 1 (Z.to_nat repeat - 1))
              (mkOS h (map Some cs ++ rest) h (fun _ => 0)
                 [mkView p size h] [h] va rs) cs rest eq_refl
              ltac:(rewrite length_seq; exact Hlen))
    as (o1 & E & Hfh & Hoh & Hres & _ & Hv & Hin & Hout).
  cbn [s_fh open_handles views s_Next reserved] in Hfh, Hoh, Hres, Hv, Hin, Hout.
  exists o1. split.
  - unfold fifo_alloc.
    destruct (Z.geb_spec repeat ARRAY_SIZE_s_Next) as [?|_]; [lia|].
    unfold CreateFileMapping, set_s_fh.
    cbn [s_fh CreateFileMapping_answer map_answers s_Next views open_handles
         VirtualAlloc_answers reserved].
    destruct (Z.eqb_spec h 0) as [?|_]; [contradiction|].
    unfold MapViewOfFile, MapViewOfFileEx. cbn [map_answers].
    cbn [s_fh CreateFileMapping_answer map_answers s_Next views open_handles
         VirtualAlloc_answers reserved].
    apply map_ring_first_pass. exact E.
  - split; [assumption|]. split; [assumption|]. split; [assumption|].
    split; [|split; assumption].
    intros v Hvin. destruct (Hv v Hvin) as [[<-|[]]|Hseg]; [now left|now right].
Qed.

(** X17. [fifo_alloc] then [fifo_free], Windows build, in a process that
    holds no view and no handle, when every view is granted: [fifo_alloc]
    returns the base address, and [fifo_free] with the same arguments
    unmaps every view, closes the handle and clears [s_fh] and [s_Next],
    leaving what [VirtualAlloc] reserved alone. A second [fifo_free] with
    the same pointer finds [s_fh] null and hands the pointer to [vmfree]:
    it releases the region [VirtualAlloc] reserved at that address, if
    there is one, and changes nothing otherwise. *)
Theorem fifo_free_win32_undoes_fifo_alloc (size repeat p h : Z)
  (cs : list Z) (rest va : list (option Z)) (rs : list Region) :
  0 < p -> 0 < size -> 0 <= repeat < ARRAY_SIZE_s_Next ->
  p + size * repeat < 2 ^ 64 ->
  h <> 0 ->
  List.length cs = (Z.to_nat repeat - 1)%nat ->
  exists o1 o2,
    fifo_alloc size repeat
      (mkOS h (Some p :: map Some cs ++ rest) 0 (fun _ => 0) [] [] va rs)
      = (p, o1) /\
    fifo_free p size repeat o1 = o2 /\
    views o2 = [] /\ open_handles o2 = [] /\ s_fh o2 = 0 /\
    (forall i, s_Next o2 i = 0) /\
    reserved o2 = rs /\
    fifo_free p size repeat o2 = VirtualFree p o2 /\
    reserved (fifo_free p size repeat o2)
      = filter (fun r => negb (a_base r =? p)) rs /\
    ((forall r, In r rs -> a_base r <> p) ->
     fifo_free p size repeat o2 = o2).
Proof.
  intros Hp Hs Hr Hfit Hh Hlen.
  assert (Hbase : forall i, (1 <= i < Z.to_nat repeat)%nat ->
                    segment_base p size i = p + size * Z.of_nat i).
  { intros i Hi. unfold segment_base, size_t.
    rewrite (Z.mod_small (size * Z.of_nat i)) by nia. apply Z.mod_small. nia. }
  assert (HR : (Z.to_nat repeat < 8)%nat).
  { change 8%nat with (Z.to_nat 8). apply Z2Nat.inj_lt;
      unfold ARRAY_SIZE_s_Next in Hr; lia. }
  destruct (fifo_alloc_granted size repeat p h cs rest va rs Hr Hh Hlen)
    as (o1 & E & Hfh & Hoh & Hres & Hv & Hin & Hout).
  exists o1. eexists. split; [exact E|].
  split; [apply fifo_free_with_handle; congruence|]. cbv zeta.
  pose proof (fifo_free_loop p size h (Z.to_nat repeat) Hp Hs
                ltac:(rewrite Z2Nat.id by lia; exact Hfit)
                (Z.to_nat ARRAY_SIZE_s_Next - 1)%nat 1%nat
                (UnmapViewOfFile p o1)) as Hloop.
  cbv zeta in Hloop.
  match type of Hloop with
  | context [fold_left ?f ?l ?o] => set (o3 := fold_left f l o) in *
  end.
  unfold UnmapViewOfFile in Hloop.
  cbn [views s_Next s_fh open_handles reserved] in Hloop.
  destruct Hloop as (Hfh2 & Hoh2 & Hres2 & Hv2 & Hz2).
  - intros v Hvin. apply filter_In in Hvin. destruct Hvin as [Hvin Hne].
    destruct (Hv v Hvin) as [->|(i & Hi & ->)].
    + cbn [w_base] in Hne. rewrite Z.eqb_refl in Hne. discriminate.
    + apply in_seq in Hi. exists i. split; [lia|].
      now rewrite Hbase by lia.
  - intros i Hi. rewrite Hin by (apply in_seq; lia). apply Hbase. lia.
  - intros i Hi. apply Hout. rewrite in_seq. lia.
  - change (Z.to_nat ARRAY_SIZE_s_Next - 1)%nat with 7%nat in *.
    assert (Hsecond :
      fifo_free p size repeat (set_s_fh 0 (CloseHandle (s_fh o3) o3))
      = VirtualFree p (set_s_fh 0 (CloseHandle (s_fh o3) o3))).
    { rewrite fifo_free_without_handle by reflexivity.
      destruct (Z.eqb_spec p 0) as [?|_]; [lia|reflexivity]. }
    unfold set_s_fh, CloseHandle in *.
    cbn [views open_handles s_fh s_Next reserved] in *.
    split; [|split; [|split; [|split; [|split; [|split; [|split]]]]]].
    + destruct (views o3) as [|v vs] eqn:Ev; [reflexivity|].
      destruct (Hv2 v ltac:(now left)) as (i & Hi & _). lia.
    + rewrite Hoh2, Hfh2, Hoh, Hfh. cbn [filter].
      now rewrite Z.eqb_refl.
    + reflexivity.
    + intros i. apply Hz2. lia.
    + congruence.
    + exact Hsecond.
    + rewrite Hsecond. unfold VirtualFree. cbn [reserved]. congruence.
    + intros Hfree. rewrite Hsecond. unfold VirtualFree.
      cbn [CreateFileMapping_answer map_answers s_fh s_Next views
           open_handles VirtualAlloc_answers reserved].
      rewrite (forallb_filter_id (fun r => negb (a_base r =? p))
                 (reserved o3)); [reflexivity|].
      apply forallb_forall. intros r Hr'. rewrite Hres2, Hres in Hr'.
      apply negb_true_iff, Z.eqb_neq. now apply Hfree.
Qed.

(** A process that holds one region from [vmalloc], away from the ring:
    both calls of [fifo_free] leave it alone. *)
Lemma fifo_free_win32_undoes_fifo_alloc_witness :
  exists o1 o2,
    fifo_alloc 4096 3
      (mkOS 7 [Some 0x10000; Some 0; Some 0] 0 (fun _ => 0) [] [] []
            [mkRegion 0x80000 4096 false])
      = (0x10000, o1) /\
    fifo_free 0x10000 4096 3 o1 = o2 /\
    views o2 = [] /\ open_handles o2 = [] /\ s_fh o2 = 0 /\
    (forall i, s_Next o2 i = 0) /\
    reserved o2 = [mkRegion 0x80000 4096 false] /\
    fifo_free 0x10000 4096 3 o2 = VirtualFree 0x10000 o2 /\
    reserved (fifo_free 0x10000 4096 3 o2)
      = filter (fun r => negb (a_base r =? 0x10000))
          [mkRegion 0x80000 4096 false] /\
    ((forall r, In r [mkRegion 0x80000 4096 false] -> a_base r <> 0x10000) ->
     fifo_free 0x10000 4096 3 o2 = o2).
Proof.
  apply (fifo_free_win32_undoes_fifo_alloc 4096 3 0x10000 7 [0; 0] [] []
           [mkRegion 0x80000 4096 false]);
    unfold ARRAY_SIZE_s_Next; try lia; try reflexivity; discriminate.
Defined.

End FifoWin32Ring.

(** ** More on GSopen2, GSfreeze and the lane masks *)

(** X18. Two successive [GSopen2] calls, from any state and on any host:
    both end, and the renderer type left current is decided by the host
    and by whether bit 2 of the flags changed between the two calls - the
    configured type if it did not, the other mode if it did - and is never
    [Undefined]. A host with no hardware context, whose configured type is
    [Null], is thus switched to [OGL_SW] by the toggle. Both calls return
    when a renderer is in place at the start; with none, a call can be left
    by the exception of [std::stoi], the type being set all the same. *)
Theorem GSopen2_toggle_law stoi WIN32 f1 p1 f2 p2 w :
  exists o1 w1 o2 w2,
    GSopen2 stoi WIN32 f1 p1 w = Some (o1, w1) /\
    GSopen2 stoi WIN32 f2 p2 w1 = Some (o2, w2) /\
    m_current_renderer_type w2 =
      (if Bool.eqb (Z.testbit f1 2) (Z.testbit f2 2)
       then configured_type (host w)
       else other_mode (configured_type (host w))) /\
    m_current_renderer_type w2 <> Undefined /\
    (context_type (host w) = RETRO_HW_CONTEXT_NONE ->
     Z.testbit f1 2 <> Z.testbit f2 2 ->
     m_current_renderer_type w2 = OGL_SW) /\
    (s_gs w <> None ->
     exists rc1 rc2, o1 = Returned rc1 /\ o2 = Returned rc2) /\
    (o1 = Thrown -> s_gs w = None /\ m_current_renderer_type w1 = OGL_SW) /\
    (o2 = Thrown -> o1 = Thrown /\ m_current_renderer_type w2 = OGL_SW).
Proof.
  destruct (GSopen2_result stoi WIN32 f1 p1 w)
    as (o1 & w1 & E1 & Hh1 & Hst1 & _ & Ht1 & Hr1).
  destruct (GSopen2_result stoi WIN32 f2 p2 w1)
    as (o2 & w2 & E2 & _ & _ & Hty & Ht2 & Hr2).
  rewrite Hst1, Hh1 in Hty.
  exists o1, w1, o2, w2. split; [exact E1|]. split; [exact E2|].
  split; [exact Hty|]. split; [|split; [|split; [|split]]].
  - rewrite Hty. unfold configured_type, other_mode.
    destruct (Bool.eqb (Z.testbit f1 2) (Z.testbit f2 2)),
      (context_type (host w)),
      (String.eqb (opt_renderer (host w)) "Software"); discriminate.
  - intros Hctx Hne. rewrite Hty.
    apply eqb_false_iff in Hne. rewrite Hne.
    unfold configured_type. now rewrite Hctx.
  - intros Hs.
    destruct o1 as [rc1|]; [|now destruct (Ht1 eq_refl)].
    destruct o2 as [rc2|]; [now exists rc1, rc2|].
    destruct (Ht2 eq_refl) as (Hn & _). now elim (Hr1 rc1 eq_refl).
  - intros Ho. destruct (Ht1 Ho) as (Hn & _ & Hsw & _). now split.
  - intros Ho. destruct (Ht2 Ho) as (Hn & _ & Hsw & _). split; [|exact Hsw].
    destruct o1 as [rc1|]; [|reflexivity]. now elim (Hr1 rc1 eq_refl).
Qed.

(** X19. [GSfreeze] with one of the three modes, the constants being
    distinct and a renderer being in [s_gs]: [FREEZE_SAVE] makes one call
    of [Freeze] with [sizeonly] false, [FREEZE_SIZE] one with [sizeonly]
    true, [FREEZE_LOAD] one call of [Defrost]; the code and the buffer
    returned are the method's, and the renderer is as the method left it.
    With no renderer each of the three is undefined. *)
Theorem GSfreeze_dispatch
  (FREEZE_LOAD FREEZE_SAVE FREEZE_SIZE : Z)
  (Freeze : GSRenderer -> GSFreezeData -> bool -> Z * GSFreezeData * GSRenderer)
  (Defrost : GSRenderer -> GSFreezeData -> Z * GSFreezeData * GSRenderer)
  (data : GSFreezeData) (w : World) :
  FREEZE_SAVE <> FREEZE_SIZE ->
  FREEZE_SAVE <> FREEZE_LOAD ->
  FREEZE_SIZE <> FREEZE_LOAD ->
  let run := GSfreeze FREEZE_LOAD FREEZE_SAVE FREEZE_SIZE Freeze Defrost in
  let done (r : GSRenderer) (e : Event)
           (res : Z * GSFreezeData * GSRenderer) :=
    Some ((fst (fst res), snd (fst res)),
          mkWorld (host w) (theApp w) (is_d3d w) (Some (snd res))
            (m_current_renderer_type w) (stored_toggle_state w) (next_id w)
            (calls w ++ [e])) in
  match s_gs w with
  | Some r =>
      run FREEZE_SAVE data w
        = done r (EvFreeze (rnd_id r) false) (Freeze r data false) /\
      run FREEZE_SIZE data w
        = done r (EvFreeze (rnd_id r) true) (Freeze r data true) /\
      run FREEZE_LOAD data w
        = done r (EvDefrost (rnd_id r)) (Defrost r data)
  | None =>
      run FREEZE_SAVE data w = None /\
      run FREEZE_SIZE data w = None /\
      run FREEZE_LOAD data w = None
  end.
Proof.
  intros H1 H2 H3. cbv zeta. unfold GSfreeze.
  rewrite !Z.eqb_refl.
  destruct (Z.eqb_spec FREEZE_SIZE FREEZE_SAVE) as [?|_]; [congruence|].
  destruct (Z.eqb_spec FREEZE_LOAD FREEZE_SAVE) as [?|_]; [congruence|].
  destruct (Z.eqb_spec FREEZE_LOAD FREEZE_SIZE) as [?|_]; [congruence|].
  unfold call_Freeze, call_Defrost, via_s_gs, bind, gets, emit, modify, ret.
  destruct (s_gs w) as [r|]; [|repeat split].
  cbn [calls set_calls].
  destruct (Freeze r data false) as [[c1 d1] r1],
    (Freeze r data true) as [[c2 d2] r2],
    (Defrost r data) as [[c3 d3] r3].
  repeat split.
Qed.

Lemma GSfreeze_dispatch_witness :
  GSfreeze 0 1 2 (fun r d so => (if so then 0 else 7, d, r))
    (fun r d => (0, d, r)) 1 (mkFreezeData 4 [1; 2; 3; 4]) opened_hw
  = Some ((7, mkFreezeData 4 [1; 2; 3; 4]),
          mkWorld (host opened_hw) (theApp opened_hw) (is_d3d opened_hw)
            (Some opened_hw_renderer)
            (m_current_renderer_type opened_hw)
            (stored_toggle_state opened_hw) (next_id opened_hw)
            (calls opened_hw ++ [EvFreeze 1%nat false])).
Proof.
  exact (proj1 (GSfreeze_dispatch 0 1 2
                  (fun r d so => (if so then 0 else 7, d, r))
                  (fun r d => (0, d, r))
                  (mkFreezeData 4 [1; 2; 3; 4]) opened_hw
                  ltac:(discriminate) ltac:(discriminate)
                  ltac:(discriminate))).
Defined.

(** Lane-wise AND of two vectors. *)
Definition lanes_and (a b : list Z) : list Z :=
  map (fun xy => Z.land (fst xy) (snd xy)) (combine a b).

Definition lanes_eqb (a b : list Z) : bool :=
  (List.length a =? List.length b)%nat
  && forallb (fun xy => fst xy =? snd xy) (combine a b).

Lemma lanes_eqb_eq (a b : list Z) : lanes_eqb a b = true -> a = b.
Proof.
  unfold lanes_eqb. rewrite andb_true_iff, Nat.eqb_eq. intros [Hl Hall].
  revert b Hl Hall. induction a as [|x a IH]; intros [|y b] Hl Hall;
    try discriminate; [reflexivity|].
  cbn in Hl, Hall. apply andb_prop in Hall. destruct Hall as [Hxy Hall].
  apply Z.eqb_eq in Hxy. subst y. f_equal. apply IH; [lia|assumption].
Qed.

(** The masks of a table nest: the AND of entries [n] and [m] of the [xff]
    table is its entry [min n m], and the [x0f] entry [n] is the [xff]
    entry [n] cut down by the full [x0f] entry. *)
Definition masks_nest {A : Type} (U32 : A -> list Z) (zero : A) (W : nat)
  (xff x0f : list A) : bool :=
  forallb (fun n =>
    lanes_eqb (U32 (nth n x0f zero))
              (lanes_and (U32 (nth n xff zero)) (U32 (nth W x0f zero)))
    && forallb (fun m =>
         lanes_eqb (lanes_and (U32 (nth n xff zero)) (U32 (nth m xff zero)))
                   (U32 (nth (Nat.min n m) xff zero)))
       (seq 0 (S W)))
    (seq 0 (S W)).

Lemma masks_nest_spec {A : Type} (U32 : A -> list Z) (zero : A) (W : nat)
  (xff x0f : list A) :
  masks_nest U32 zero W xff x0f = true ->
  forall n m, (n <= W)%nat -> (m <= W)%nat ->
    U32 (nth n x0f zero)
      = lanes_and (U32 (nth n xff zero)) (U32 (nth W x0f zero)) /\
    lanes_and (U32 (nth n xff zero)) (U32 (nth m xff zero))
      = U32 (nth (Nat.min n m) xff zero).
Proof.
  intros H n m Hn Hm. unfold masks_nest in H.
  rewrite forallb_forall in H. specialize (H n).
  rewrite in_seq in H. specialize (H ltac:(lia)).
  apply andb_prop in H. destruct H as [H1 H2].
  split; [now apply lanes_eqb_eq|].
  rewrite forallb_forall in H2. specialize (H2 m).
  rewrite in_seq in H2. apply lanes_eqb_eq, H2. lia.
Qed.

(** X20. After [InitVectors] the lane masks nest, in both widths: for
    [n], [m] up to the width, [m_xff[n] & m_xff[m]] is
    [m_xff[min(n, m)]], and [m_x0f[n]] is [m_xff[n] & m_x0f[W]]. *)
Theorem InitVectors_masks_nest :
  (forall (s : GSVector4i.tables) (n m : nat),
      (n <= 16)%nat -> (m <= 16)%nat ->
      let t := GSVector4i.InitVectors s in
      GSVector4i.U32 (GSVector4i.m_x0f t n)
        = lanes_and (GSVector4i.U32 (GSVector4i.m_xff t n))
                    (GSVector4i.U32 (GSVector4i.m_x0f t 16)) /\
      lanes_and (GSVector4i.U32 (GSVector4i.m_xff t n))
                (GSVector4i.U32 (GSVector4i.m_xff t m))
        = GSVector4i.U32 (GSVector4i.m_xff t (Nat.min n m))) /\
  (forall (s : GSVector8i.tables) (n m : nat),
      (n <= 32)%nat -> (m <= 32)%nat ->
      let t := GSVector8i.InitVectors s in
      GSVector8i.U32 (GSVector8i.m_x0f t n)
        = lanes_and (GSVector8i.U32 (GSVector8i.m_xff t n))
                    (GSVector8i.U32 (GSVector8i.m_x0f t 32)) /\
      lanes_and (GSVector8i.U32 (GSVector8i.m_xff t n))
                (GSVector8i.U32 (GSVector8i.m_xff t m))
        = GSVector8i.U32 (GSVector8i.m_xff t (Nat.min n m))).
Proof.
  split.
  - intros s n m Hn Hm. cbv zeta.
    cbn [GSVector4i.InitVectors GSVector4i.m_xff GSVector4i.m_x0f].
    rewrite !copy_table_spec by (cbn; lia).
    apply (masks_nest_spec GSVector4i.U32 GSVector4i.zero 16);
      [vm_compute; reflexivity|assumption|assumption].
  - intros s n m Hn Hm. cbv zeta.
    cbn [GSVector8i.InitVectors GSVector8i.m_xff GSVector8i.m_x0f].
    rewrite !copy_table_spec by (cbn; lia).
    apply (masks_nest_spec GSVector8i.U32 GSVector8i.zero 32);
      [vm_compute; reflexivity|assumption|assumption].
Qed.
